(** * Hangzhou Inundation Reporting Tool: a model of [app.js]

    The application is a single script of event handlers over a handful of
    module-level variables, the page's DOM and a Leaflet map.  The model
    keeps that shape: one [State] record for the variables, the DOM and the
    host, a small state-and-exception monad [M] for the handlers, and one
    definition per function of the script, under the script's names.

    What the host decides (the clock, the network, the authored page) is an
    argument of the function that reads it. *)

From Stdlib Require Import ZArith NArith List String Ascii Lia PrimFloat.
From stdpp Require Import base list gmap.

Open Scope string_scope.
Open Scope list_scope.

Set Warnings "-inexact-float".

(* ================================================================== *)
(** * JavaScript values *)

(** A string is its sequence of UTF-16 code units. *)
Abbreviation jsstring := (list N).

(** An ASCII literal of the script. *)
Definition js (s : string) : jsstring :=
  map N_of_ascii (list_ascii_of_string s).

(** The values a loosely typed slot of the script can hold: [null],
    [undefined] or a string. *)
Inductive jsval : Type :=
  | JNull
  | JUndefined
  | JStr (s : jsstring).

#[global] Instance jsval_eq_dec : EqDecision jsval.
Proof. solve_decision. Defined.

(** [ToBoolean]: of these values only a non-empty string is truthy. *)
Definition truthy (v : jsval) : bool :=
  match v with
  | JStr (_ :: _) => true
  | _ => false
  end.

Definition str_truthy (s : jsstring) : bool :=
  match s with
  | [] => false
  | _ :: _ => true
  end.

(** [a === b] *)
Definition strict_eq (a b : jsval) : bool := bool_decide (a = b).

(** [a < b] on two strings: code unit by code unit, a proper prefix first. *)
Fixpoint str_lt (a b : jsstring) : bool :=
  match a, b with
  | _, [] => false
  | [], _ :: _ => true
  | x :: a', y :: b' =>
      if (x <? y)%N then true
      else if (y <? x)%N then false
      else str_lt a' b'
  end.

(** [a > b] *)
Definition str_gt (a b : jsstring) : bool := str_lt b a.

(** [v || ''] for a string-valued slot. *)
Definition or_empty (v : jsval) : jsstring :=
  match v with
  | JStr s => s
  | _ => []
  end.

(** [s.split(c)[0]]: the part of [s] before the first [c]. *)
Fixpoint before (c : N) (s : jsstring) : jsstring :=
  match s with
  | [] => []
  | x :: s' => if (x =? c)%N then [] else x :: before c s'
  end.

(** [s.slice(0, n)] *)
Definition slice0 (n : nat) (s : jsstring) : jsstring := take n s.

(** A property of an object literal whose keys are the four depth or
    situation names, read with a computed key; a missing key reads
    [undefined]. *)
Fixpoint prop_of (table : list (jsstring * jsstring)) (key : jsval) : jsval :=
  match table with
  | [] => JUndefined
  | (k, v) :: rest => if strict_eq key (JStr k) then JStr v else prop_of rest key
  end.

(** [classList] of an element: an ordered set of tokens. *)
Definition contains (tokens : list jsstring) (t : jsstring) : bool :=
  bool_decide (t ∈ tokens).

Definition classList_add (t : jsstring) (tokens : list jsstring) : list jsstring :=
  if contains tokens t then tokens else tokens ++ [t].

Definition classList_remove (t : jsstring) (tokens : list jsstring) : list jsstring :=
  filter (λ x, x ≠ t) tokens.

Definition classList_toggle (t : jsstring) (tokens : list jsstring) : list jsstring :=
  if contains tokens t then classList_remove t tokens else tokens ++ [t].

(* ================================================================== *)
(** * Data of the script *)

(** A coordinate, as Leaflet hands it to the click handler. *)
Record LatLng : Type := mkLatLng { lat : float; lng : float }.

(** A [Date] object, by what the script reads of it. *)
Record JsDate : Type := mkDate {
  getTime : Z;               (* milliseconds since the epoch *)
  toISOString : jsstring;
  toTimeString : jsstring
}.

(** An entry of [floodReports]. *)
Record FloodReport : Type := mkReport {
  report_id : Z;
  report_location : LatLng;
  report_date : jsstring;
  report_time : jsstring;
  report_depth : jsval;
  report_situation : jsval;
  report_description : jsstring;
  report_photo : jsval;
  report_timestamp : jsstring
}.

(** [formState] *)
Record FormState : Type := mkForm {
  form_location : option LatLng;
  form_depth : jsval;
  form_situation : jsval
}.

(** ** Map objects *)

Inductive Icon : Type :=
  | TempIcon
  | FloodIcon (background : jsval).

(** The interpolated parts of the popup markup of a flood marker. *)
Record FloodPopup : Type := mkFloodPopup {
  popup_subtitle : jsstring;
  popup_depth : jsval;
  popup_type : jsval;
  popup_description : option jsstring;
  popup_image : option jsval
}.

(** A Leaflet marker; [stamp] is the object's identity. *)
Record Marker : Type := mkMarker {
  stamp : nat;
  marker_latlng : LatLng;
  marker_icon : Icon;
  marker_popup : option FloodPopup;
  reportData : option FloodReport
}.

(** The parsed body of a static layer file. *)
Record Properties : Type := mkProps {
  prop_name : jsval;
  prop_category : jsval;
  prop_address : jsval
}.

Inductive Geometry : Type :=
  | Point (p : LatLng)
  | Shape (ring : list LatLng)
  | Malformed.

Record Feature : Type := mkFeature {
  feature_geometry : Geometry;
  feature_properties : option Properties
}.

Inductive GeoData : Type :=
  | GeoNull
  | GeoObject (features : option (list Feature)).

(** Styling options of the six layers. *)
Record PathStyle : Type := mkStyle {
  style_color : jsstring;
  style_weight : Z;
  style_opacity : option float;
  style_fillColor : option jsstring;
  style_fillOpacity : option float;
  style_dashArray : option jsstring
}.

Record CircleStyle : Type := mkCircle {
  circle_radius : Z;
  circle_fillColor : jsstring;
  circle_color : jsstring;
  circle_weight : Z;
  circle_opacity : float;
  circle_fillOpacity : float
}.

(** The interpolated parts of the popup markup of an amenity or a metro
    station. *)
Record InfoPopup : Type := mkInfoPopup {
  info_icon : jsstring;
  info_title : jsval;
  info_subtitle : jsstring;
  info_address : option jsval
}.

(** The options object of one static layer: a path style, the circle that
    [pointToLayer] draws, the popup markup that [onEachFeature] binds. *)
Record LayerOptions : Type := mkOptions {
  opt_style : option PathStyle;
  opt_pointToLayer : option CircleStyle;
  opt_onEachFeature : option (Properties → InfoPopup)
}.

Inductive FeatureShape : Type :=
  | Path (ring : list LatLng) (style : option PathStyle)
  | PlainMarker (p : LatLng)
  | CircleMarker (p : LatLng) (circle : CircleStyle).

Record FeatureLayer : Type := mkFeatureLayer {
  feature_shape : FeatureShape;
  feature_popup : option InfoPopup
}.

(** A member of a layer group. *)
Inductive Layer : Type :=
  | GeoJSONLayer (features : list FeatureLayer)
  | MarkerLayer (m : Marker).

(** What is drawn on the map itself. *)
Inductive MapItem : Type :=
  | TileItem (url : jsstring)
  | GroupItem (name : jsstring)
  | MarkerItem (m : Marker).

Record LMap : Type := mkMap {
  map_center : LatLng;
  map_zoom : Z;
  map_items : list MapItem
}.

(** ** The page *)

(** An element reached through a class selector. *)
Record Element : Type := mkElement {
  classList : list jsstring;
  dataset : gmap jsstring jsstring
}.

Definition has_class (c : string) (el : Element) : bool :=
  contains (classList el) (js c).

(** [el.dataset.key] *)
Definition data (key : string) (el : Element) : jsval :=
  match dataset el !! js key with
  | Some v => JStr v
  | None => JUndefined
  end.

Inductive LocationHtml : Type :=
  | LocationAuthored
  | LocationPlaceholder
  | LocationCoords (p : LatLng).

Inductive PhotoHtml : Type :=
  | PhotoAuthored
  | PhotoPlaceholder
  | PhotoPreview (src : jsstring).

(** A row of the report list: the interpolated parts of its markup. *)
Record Row : Type := mkRow {
  row_data_id : Z;
  row_time : jsstring;
  row_badge : jsval;
  row_label : jsval;
  row_location : jsstring + LatLng
}.

(** ** The host *)

Inductive Exn : Type :=
  | TypeError
  | FetchRejected
  | HttpError (status : Z) (url : jsstring)
  | JsonSyntaxError
  | InvalidGeoJSON.

Inductive LogEntry : Type :=
  | LogLoading (name url : jsstring)
  | LogLoaded (name : jsstring) (featureCount : option nat)
  | LogFailed (name url : jsstring) (error : Exn).

(** The outcome of one [fetch]: the promise rejects, or a response arrives
    with a status and a body that parses as JSON or does not. *)
Inductive FetchResult : Type :=
  | Rejected
  | Responded (status : Z) (body : option GeoData).

(** [res.ok] *)
Definition status_ok (status : Z) : bool :=
  (200 <=? status)%Z && (status <=? 299)%Z.
(* ================================================================== *)
(** * The state *)

(** The module-level variables of the script. *)
Record Vars : Type := mkVars {
  vars_leafletMap : option LMap;  (* [map]; [None] before [initializeMap] *)
  vars_layers : gmap jsstring (list Layer);  (* group members by layer name; no entry while [null] *)
  vars_currentMarker : option Marker;
  vars_selectedLocation : option LatLng;
  vars_floodReports : list FloodReport;
  vars_formState : FormState;
  vars_uploadedPhoto : jsval
}.

(** The report form. *)
Record FormDom : Type := mkFormDom {
  form_eventDate : jsstring;  (* [#eventDate.value] *)
  form_eventTime : jsstring;  (* [#eventTime.value] *)
  form_locationDesc : jsstring;  (* [#locationDesc.value] *)
  form_photoInput : jsstring;  (* [#photoInput.value] *)
  form_submitDisabled : bool;  (* [#submitBtn.disabled] *)
  form_photoUploadHtml : PhotoHtml;  (* [#photoUpload.innerHTML] *)
  form_photoUploadClasses : list jsstring;  (* [#photoUpload.classList] *)
  form_locationDisplay : LocationHtml  (* [#locationDisplay.innerHTML] *)
}.

(** The rest of the page. *)
Record ViewDom : Type := mkViewDom {
  view_instructionsDisplay : jsval;  (* [#instructions.style.display] *)
  view_reportFormDisplay : jsval;  (* [#reportForm.style.display] *)
  view_reportListDisplay : jsval;  (* [#reportList.style.display] *)
  view_totalReports : option nat;  (* [#totalReports.textContent]; [None] as authored *)
  view_todayReports : option nat;  (* [#todayReports.textContent] *)
  view_reportItems : option (list Row);  (* [#reportItems.innerHTML]; [None] as authored *)
  view_toastClasses : list jsstring;  (* [#toast.classList] *)
  view_filterDateFrom : jsstring;  (* [#filterDateFrom.value] *)
  view_filterDateTo : jsstring;  (* [#filterDateTo.value] *)
  view_document : list Element  (* the elements reached by class, in order *)
}.

(** The host: console, network, allocation, timers. *)
Record Host : Type := mkHost {
  host_console : list LogEntry;
  host_requests : list jsstring;  (* the URLs fetched so far *)
  host_nextStamp : nat;  (* the next object identity *)
  host_timers : nat  (* pending toast timeouts *)
}.

Record State : Type := mkState {
  vars : Vars;
  form : FormDom;
  view : ViewDom;
  host : Host
}.

(** ** Reading and writing one slot of the state *)

Definition leafletMap (st : State) : option LMap := vars_leafletMap (vars st).
Definition layers (st : State) : gmap jsstring (list Layer) := vars_layers (vars st).
Definition currentMarker (st : State) : option Marker := vars_currentMarker (vars st).
Definition selectedLocation (st : State) : option LatLng := vars_selectedLocation (vars st).
Definition floodReports (st : State) : list FloodReport := vars_floodReports (vars st).
Definition formState (st : State) : FormState := vars_formState (vars st).
Definition uploadedPhoto (st : State) : jsval := vars_uploadedPhoto (vars st).

Definition eventDate (st : State) : jsstring := form_eventDate (form st).
Definition eventTime (st : State) : jsstring := form_eventTime (form st).
Definition locationDesc (st : State) : jsstring := form_locationDesc (form st).
Definition photoInput (st : State) : jsstring := form_photoInput (form st).
Definition submitDisabled (st : State) : bool := form_submitDisabled (form st).
Definition photoUploadHtml (st : State) : PhotoHtml := form_photoUploadHtml (form st).
Definition photoUploadClasses (st : State) : list jsstring := form_photoUploadClasses (form st).
Definition locationDisplay (st : State) : LocationHtml := form_locationDisplay (form st).

Definition instructionsDisplay (st : State) : jsval := view_instructionsDisplay (view st).
Definition reportFormDisplay (st : State) : jsval := view_reportFormDisplay (view st).
Definition reportListDisplay (st : State) : jsval := view_reportListDisplay (view st).
Definition totalReports (st : State) : option nat := view_totalReports (view st).
Definition todayReports (st : State) : option nat := view_todayReports (view st).
Definition reportItems (st : State) : option (list Row) := view_reportItems (view st).
Definition toastClasses (st : State) : list jsstring := view_toastClasses (view st).
Definition filterDateFrom (st : State) : jsstring := view_filterDateFrom (view st).
Definition filterDateTo (st : State) : jsstring := view_filterDateTo (view st).
Definition document (st : State) : list Element := view_document (view st).

Definition console (st : State) : list LogEntry := host_console (host st).
Definition requests (st : State) : list jsstring := host_requests (host st).
Definition nextStamp (st : State) : nat := host_nextStamp (host st).
Definition timers (st : State) : nat := host_timers (host st).

Definition set_leafletMap (x : option LMap) (st : State) : State :=
  mkState (mkVars x (vars_layers (vars st)) (vars_currentMarker (vars st)) (vars_selectedLocation (vars st)) (vars_floodReports (vars st)) (vars_formState (vars st)) (vars_uploadedPhoto (vars st))) (form st) (view st) (host st).
Definition set_layers (x : gmap jsstring (list Layer)) (st : State) : State :=
  mkState (mkVars (vars_leafletMap (vars st)) x (vars_currentMarker (vars st)) (vars_selectedLocation (vars st)) (vars_floodReports (vars st)) (vars_formState (vars st)) (vars_uploadedPhoto (vars st))) (form st) (view st) (host st).
Definition set_currentMarker (x : option Marker) (st : State) : State :=
  mkState (mkVars (vars_leafletMap (vars st)) (vars_layers (vars st)) x (vars_selectedLocation (vars st)) (vars_floodReports (vars st)) (vars_formState (vars st)) (vars_uploadedPhoto (vars st))) (form st) (view st) (host st).
Definition set_selectedLocation (x : option LatLng) (st : State) : State :=
  mkState (mkVars (vars_leafletMap (vars st)) (vars_layers (vars st)) (vars_currentMarker (vars st)) x (vars_floodReports (vars st)) (vars_formState (vars st)) (vars_uploadedPhoto (vars st))) (form st) (view st) (host st).
Definition set_floodReports (x : list FloodReport) (st : State) : State :=
  mkState (mkVars (vars_leafletMap (vars st)) (vars_layers (vars st)) (vars_currentMarker (vars st)) (vars_selectedLocation (vars st)) x (vars_formState (vars st)) (vars_uploadedPhoto (vars st))) (form st) (view st) (host st).
Definition set_formState (x : FormState) (st : State) : State :=
  mkState (mkVars (vars_leafletMap (vars st)) (vars_layers (vars st)) (vars_currentMarker (vars st)) (vars_selectedLocation (vars st)) (vars_floodReports (vars st)) x (vars_uploadedPhoto (vars st))) (form st) (view st) (host st).
Definition set_uploadedPhoto (x : jsval) (st : State) : State :=
  mkState (mkVars (vars_leafletMap (vars st)) (vars_layers (vars st)) (vars_currentMarker (vars st)) (vars_selectedLocation (vars st)) (vars_floodReports (vars st)) (vars_formState (vars st)) x) (form st) (view st) (host st).

Definition set_eventDate (x : jsstring) (st : State) : State :=
  mkState (vars st) (mkFormDom x (form_eventTime (form st)) (form_locationDesc (form st)) (form_photoInput (form st)) (form_submitDisabled (form st)) (form_photoUploadHtml (form st)) (form_photoUploadClasses (form st)) (form_locationDisplay (form st))) (view st) (host st).
Definition set_eventTime (x : jsstring) (st : State) : State :=
  mkState (vars st) (mkFormDom (form_eventDate (form st)) x (form_locationDesc (form st)) (form_photoInput (form st)) (form_submitDisabled (form st)) (form_photoUploadHtml (form st)) (form_photoUploadClasses (form st)) (form_locationDisplay (form st))) (view st) (host st).
Definition set_locationDesc (x : jsstring) (st : State) : State :=
  mkState (vars st) (mkFormDom (form_eventDate (form st)) (form_eventTime (form st)) x (form_photoInput (form st)) (form_submitDisabled (form st)) (form_photoUploadHtml (form st)) (form_photoUploadClasses (form st)) (form_locationDisplay (form st))) (view st) (host st).
Definition set_photoInput (x : jsstring) (st : State) : State :=
  mkState (vars st) (mkFormDom (form_eventDate (form st)) (form_eventTime (form st)) (form_locationDesc (form st)) x (form_submitDisabled (form st)) (form_photoUploadHtml (form st)) (form_photoUploadClasses (form st)) (form_locationDisplay (form st))) (view st) (host st).
Definition set_submitDisabled (x : bool) (st : State) : State :=
  mkState (vars st) (mkFormDom (form_eventDate (form st)) (form_eventTime (form st)) (form_locationDesc (form st)) (form_photoInput (form st)) x (form_photoUploadHtml (form st)) (form_photoUploadClasses (form st)) (form_locationDisplay (form st))) (view st) (host st).
Definition set_photoUploadHtml (x : PhotoHtml) (st : State) : State :=
  mkState (vars st) (mkFormDom (form_eventDate (form st)) (form_eventTime (form st)) (form_locationDesc (form st)) (form_photoInput (form st)) (form_submitDisabled (form st)) x (form_photoUploadClasses (form st)) (form_locationDisplay (form st))) (view st) (host st).
Definition set_photoUploadClasses (x : list jsstring) (st : State) : State :=
  mkState (vars st) (mkFormDom (form_eventDate (form st)) (form_eventTime (form st)) (form_locationDesc (form st)) (form_photoInput (form st)) (form_submitDisabled (form st)) (form_photoUploadHtml (form st)) x (form_locationDisplay (form st))) (view st) (host st).
Definition set_locationDisplay (x : LocationHtml) (st : State) : State :=
  mkState (vars st) (mkFormDom (form_eventDate (form st)) (form_eventTime (form st)) (form_locationDesc (form st)) (form_photoInput (form st)) (form_submitDisabled (form st)) (form_photoUploadHtml (form st)) (form_photoUploadClasses (form st)) x) (view st) (host st).

Definition set_instructionsDisplay (x : jsval) (st : State) : State :=
  mkState (vars st) (form st) (mkViewDom x (view_reportFormDisplay (view st)) (view_reportListDisplay (view st)) (view_totalReports (view st)) (view_todayReports (view st)) (view_reportItems (view st)) (view_toastClasses (view st)) (view_filterDateFrom (view st)) (view_filterDateTo (view st)) (view_document (view st))) (host st).
Definition set_reportFormDisplay (x : jsval) (st : State) : State :=
  mkState (vars st) (form st) (mkViewDom (view_instructionsDisplay (view st)) x (view_reportListDisplay (view st)) (view_totalReports (view st)) (view_todayReports (view st)) (view_reportItems (view st)) (view_toastClasses (view st)) (view_filterDateFrom (view st)) (view_filterDateTo (view st)) (view_document (view st))) (host st).
Definition set_reportListDisplay (x : jsval) (st : State) : State :=
  mkState (vars st) (form st) (mkViewDom (view_instructionsDisplay (view st)) (view_reportFormDisplay (view st)) x (view_totalReports (view st)) (view_todayReports (view st)) (view_reportItems (view st)) (view_toastClasses (view st)) (view_filterDateFrom (view st)) (view_filterDateTo (view st)) (view_document (view st))) (host st).
Definition set_totalReports (x : option nat) (st : State) : State :=
  mkState (vars st) (form st) (mkViewDom (view_instructionsDisplay (view st)) (view_reportFormDisplay (view st)) (view_reportListDisplay (view st)) x (view_todayReports (view st)) (view_reportItems (view st)) (view_toastClasses (view st)) (view_filterDateFrom (view st)) (view_filterDateTo (view st)) (view_document (view st))) (host st).
Definition set_todayReports (x : option nat) (st : State) : State :=
  mkState (vars st) (form st) (mkViewDom (view_instructionsDisplay (view st)) (view_reportFormDisplay (view st)) (view_reportListDisplay (view st)) (view_totalReports (view st)) x (view_reportItems (view st)) (view_toastClasses (view st)) (view_filterDateFrom (view st)) (view_filterDateTo (view st)) (view_document (view st))) (host st).
Definition set_reportItems (x : option (list Row)) (st : State) : State :=
  mkState (vars st) (form st) (mkViewDom (view_instructionsDisplay (view st)) (view_reportFormDisplay (view st)) (view_reportListDisplay (view st)) (view_totalReports (view st)) (view_todayReports (view st)) x (view_toastClasses (view st)) (view_filterDateFrom (view st)) (view_filterDateTo (view st)) (view_document (view st))) (host st).
Definition set_toastClasses (x : list jsstring) (st : State) : State :=
  mkState (vars st) (form st) (mkViewDom (view_instructionsDisplay (view st)) (view_reportFormDisplay (view st)) (view_reportListDisplay (view st)) (view_totalReports (view st)) (view_todayReports (view st)) (view_reportItems (view st)) x (view_filterDateFrom (view st)) (view_filterDateTo (view st)) (view_document (view st))) (host st).
Definition set_filterDateFrom (x : jsstring) (st : State) : State :=
  mkState (vars st) (form st) (mkViewDom (view_instructionsDisplay (view st)) (view_reportFormDisplay (view st)) (view_reportListDisplay (view st)) (view_totalReports (view st)) (view_todayReports (view st)) (view_reportItems (view st)) (view_toastClasses (view st)) x (view_filterDateTo (view st)) (view_document (view st))) (host st).
Definition set_filterDateTo (x : jsstring) (st : State) : State :=
  mkState (vars st) (form st) (mkViewDom (view_instructionsDisplay (view st)) (view_reportFormDisplay (view st)) (view_reportListDisplay (view st)) (view_totalReports (view st)) (view_todayReports (view st)) (view_reportItems (view st)) (view_toastClasses (view st)) (view_filterDateFrom (view st)) x (view_document (view st))) (host st).
Definition set_document (x : list Element) (st : State) : State :=
  mkState (vars st) (form st) (mkViewDom (view_instructionsDisplay (view st)) (view_reportFormDisplay (view st)) (view_reportListDisplay (view st)) (view_totalReports (view st)) (view_todayReports (view st)) (view_reportItems (view st)) (view_toastClasses (view st)) (view_filterDateFrom (view st)) (view_filterDateTo (view st)) x) (host st).

Definition set_console (x : list LogEntry) (st : State) : State :=
  mkState (vars st) (form st) (view st) (mkHost x (host_requests (host st)) (host_nextStamp (host st)) (host_timers (host st))).
Definition set_requests (x : list jsstring) (st : State) : State :=
  mkState (vars st) (form st) (view st) (mkHost (host_console (host st)) x (host_nextStamp (host st)) (host_timers (host st))).
Definition set_nextStamp (x : nat) (st : State) : State :=
  mkState (vars st) (form st) (view st) (mkHost (host_console (host st)) (host_requests (host st)) x (host_timers (host st))).
Definition set_timers (x : nat) (st : State) : State :=
  mkState (vars st) (form st) (view st) (mkHost (host_console (host st)) (host_requests (host st)) (host_nextStamp (host st)) x).

(* ================================================================== *)
(** * Handlers as state transformers that may throw *)

Inductive Res (A : Type) : Type :=
  | Ok (a : A) (st : State)
  | Throw (e : Exn) (st : State).
Arguments Ok {A} a st.
Arguments Throw {A} e st.

Definition M (A : Type) : Type := State → Res A.

#[global] Instance M_ret : MRet M := λ A a st, Ok a st.

#[global] Instance M_bind : MBind M := λ A B f m st,
  match m st with
  | Ok a st' => f a st'
  | Throw e st' => Throw e st'
  end.

Definition throw {A : Type} (e : Exn) : M A := λ st, Throw e st.

Definition read {A : Type} (f : State → A) : M A := λ st, Ok (f st) st.

Definition write (f : State → State) : M unit := λ st, Ok tt (f st).

(** [try { body } catch (error) { handler }] *)
Definition try_catch (body : M unit) (handler : Exn → M unit) : M unit := λ st,
  match body st with
  | Ok a st' => Ok a st'
  | Throw e st' => handler e st'
  end.

(** [array.forEach(f)] over an array that [f] leaves alone. *)
Fixpoint forEach {A : Type} (f : A → M unit) (l : list A) : M unit :=
  match l with
  | [] => mret tt
  | x :: l' => f x ;; forEach f l'
  end.

(** The state a handler leaves behind, whether it returned or threw. *)
Definition state_of {A : Type} (r : Res A) : State :=
  match r with
  | Ok _ st => st
  | Throw _ st => st
  end.

(** ** The DOM *)

Definition with_classes (f : list jsstring → list jsstring) (el : Element) : Element :=
  mkElement (f (classList el)) (dataset el).

(** [document.querySelectorAll('.c').forEach(el => f(el))] *)
Definition querySelectorAll_forEach (c : string) (f : Element → Element) : M unit :=
  write (λ st, set_document (map (λ el, if has_class c el then f el else el) (document st)) st).

(** [this], the element a listener runs on, by its position in the page. *)
Definition this_element (this : nat) : M Element :=
  d ← read document;
  match d !! this with
  | Some el => mret el
  | None => throw TypeError
  end.

Definition update_this (this : nat) (f : Element → Element) : M unit :=
  write (λ st, set_document (alter f this (document st)) st).

(** ** Leaflet *)

(** [L.marker(latlng, { icon })]: a fresh object. *)
Definition L_marker (p : LatLng) (icon : Icon) : M Marker :=
  n ← read nextStamp;
  write (set_nextStamp (S n));;
  mret (mkMarker n p icon None None).

Definition bindPopup (p : FloodPopup) (m : Marker) : Marker :=
  mkMarker (stamp m) (marker_latlng m) (marker_icon m) (Some p) (reportData m).

Definition set_reportData (r : FloodReport) (m : Marker) : Marker :=
  mkMarker (stamp m) (marker_latlng m) (marker_icon m) (marker_popup m) (Some r).

Definition same_item (a b : MapItem) : bool :=
  match a, b with
  | TileItem u, TileItem v => bool_decide (u = v)
  | GroupItem n, GroupItem k => bool_decide (n = k)
  | MarkerItem m, MarkerItem m' => bool_decide (stamp m = stamp m')
  | _, _ => false
  end.

Definition with_map (f : LMap → LMap) : M unit :=
  mp ← read leafletMap;
  match mp with
  | None => throw TypeError
  | Some mp => write (set_leafletMap (Some (f mp)))
  end.

(** [map.addLayer(item)], also [item.addTo(map)] *)
Definition map_addLayer (item : MapItem) : M unit :=
  with_map (λ mp,
    if existsb (same_item item) (map_items mp) then mp
    else mkMap (map_center mp) (map_zoom mp) (map_items mp ++ [item])).

(** [map.removeLayer(item)] *)
Definition map_removeLayer (item : MapItem) : M unit :=
  with_map (λ mp,
    mkMap (map_center mp) (map_zoom mp)
          (filter (λ x, same_item item x = false) (map_items mp))).

(** [map.setView(center, zoom)] *)
Definition map_setView (center : LatLng) (zoom : Z) : M unit :=
  with_map (λ mp, mkMap center zoom (map_items mp)).

(** [layer.addTo(layers[name])] *)
Definition group_addLayer (name : jsstring) (l : Layer) : M unit :=
  ls ← read layers;
  match ls !! name with
  | None => throw TypeError
  | Some g => write (set_layers (<[name := g ++ [l]]> ls))
  end.

(** [layers[name].clearLayers()] *)
Definition group_clearLayers (name : jsstring) : M unit :=
  ls ← read layers;
  match ls !! name with
  | None => throw TypeError
  | Some _ => write (set_layers (<[name := []]> ls))
  end.

(** [L.geoJSON(data, options)], as far as the script relies on it: one layer
    per feature, points through [pointToLayer] when the options have one,
    [onEachFeature] run on every feature; malformed input throws. *)
Definition featureToLayer (options : LayerOptions) (f : Feature) : option FeatureLayer :=
  let popup :=
    match opt_onEachFeature options, feature_properties f with
    | Some create, Some props =>
        if truthy (prop_name props) then Some (create props) else None
    | _, _ => None
    end in
  match feature_geometry f with
  | Malformed => None
  | Shape ring => Some (mkFeatureLayer (Path ring (opt_style options)) popup)
  | Point p =>
      match opt_pointToLayer options with
      | Some circle => Some (mkFeatureLayer (CircleMarker p circle) popup)
      | None => Some (mkFeatureLayer (PlainMarker p) popup)
      end
  end.

Definition geoJSON_layer (geo : GeoData) (options : LayerOptions) : option Layer :=
  match geo with
  | GeoNull => Some (GeoJSONLayer [])
  | GeoObject None => None
  | GeoObject (Some fs) => GeoJSONLayer <$> mapM (featureToLayer options) fs
  end.

Definition L_geoJSON (geo : GeoData) (options : LayerOptions) : M Layer :=
  match geoJSON_layer geo options with
  | Some layer => mret layer
  | None => throw InvalidGeoJSON
  end.

(** ** The host *)

Definition console_log (e : LogEntry) : M unit :=
  write (λ st, set_console (console st ++ [e]) st).

(** [await fetch(url)] against the network [net]. *)
Definition fetch (net : jsstring → FetchResult) (url : jsstring) : M (Z * option GeoData) :=
  write (λ st, set_requests (requests st ++ [url]) st);;
  match net url with
  | Rejected => throw FetchRejected
  | Responded status body => mret (status, body)
  end.

(** [await res.json()] *)
Definition res_json (res : Z * option GeoData) : M GeoData :=
  match res.2 with
  | Some geo => mret geo
  | None => throw JsonSyntaxError
  end.

(* ================================================================== *)
(** * The script *)

(** ** Initialization *)

Definition initializeMap : M unit :=
  write (set_leafletMap (Some (mkMap (mkLatLng 30.25 120.15) 11 [])));;
  map_addLayer
    (TileItem (js "https://{s}.basemaps.cartocdn.com/dark_all/{z}/{x}/{y}{r}.png")).

(** [layers.name = L.layerGroup().addTo(map)] *)
Definition new_layerGroup (name : string) : M unit :=
  map_addLayer (GroupItem (js name));;
  write (λ st, set_layers (<[js name := []]> (layers st)) st).

Definition initializeLayerGroups : M unit :=
  new_layerGroup "roads";;
  new_layerGroup "water";;
  new_layerGroup "parks";;
  new_layerGroup "amenities";;
  new_layerGroup "metro";;
  new_layerGroup "floods";;
  new_layerGroup "boundary".

(** ** Popup creators *)

Definition createAmenityPopup (props : Properties) : InfoPopup :=
  mkInfoPopup [55356; 57314]%N
              (prop_name props)
              (or_empty (prop_category props))
              (if truthy (prop_address props) then Some (prop_address props) else None).

Definition createMetroPopup (props : Properties) : InfoPopup :=
  mkInfoPopup [55357; 56967]%N
              (prop_name props)
              (or_empty (prop_address props))
              None.

Definition depthLabels : list (jsstring * jsstring) :=
  [ (js "shallow", [27973; 32; 60; 49; 48; 99; 109]%N);
    (js "moderate", [20013; 32; 49; 48; 45; 51; 48; 99; 109]%N);
    (js "deep", [28145; 32; 51; 48; 45; 53; 48; 99; 109]%N);
    (js "severe", [20005; 37325; 32; 62; 53; 48; 99; 109]%N) ].

Definition situationLabels : list (jsstring * jsstring) :=
  [ (js "home", [23478; 38468; 36817]%N);
    (js "commute", [36890; 21220; 36335; 19978]%N);
    (js "work", [24037; 20316; 22320; 28857]%N);
    (js "other", [20854; 20182]%N) ].

Definition createFloodPopup (report : FloodReport) : FloodPopup :=
  mkFloodPopup
    (report_date report ++ js " " ++ report_time report)
    (prop_of depthLabels (report_depth report))
    (prop_of situationLabels (report_situation report))
    (if str_truthy (report_description report)
     then Some (report_description report) else None)
    (if truthy (report_photo report) then Some (report_photo report) else None).

(** ** Marker icons *)

Definition colors : list (jsstring * jsstring) :=
  [ (js "shallow", js "#85C1E9");
    (js "moderate", js "#3498DB");
    (js "deep", js "#1A5276");
    (js "severe", js "#C0392B") ].

Definition createFloodIcon (depth : jsval) : Icon :=
  FloodIcon (prop_of colors depth).

Definition createTempMarkerIcon : Icon := TempIcon.

(** ** Data loading *)

(** The helper of [loadGeoJSONData]; [targetLayer] names the group. *)
Definition loadLayer (net : jsstring → FetchResult)
    (url name : string) (options : LayerOptions) (targetLayer : string) : M unit :=
  try_catch
    (console_log (LogLoading (js name) (js url));;
     res ← fetch net (js url);
     (if negb (status_ok res.1)
      then throw (HttpError res.1 (js url))
      else mret tt);;
     geo ← res_json res;
     layer ← L_geoJSON geo options;
     group_addLayer (js targetLayer) layer;;
     let featureCount :=
       match geo with
       | GeoObject (Some fs) => Some (length fs)
       | _ => None
       end in
     console_log (LogLoaded (js name) featureCount))
    (λ error, console_log (LogFailed (js name) (js url) error)).

Definition boundaryOptions : LayerOptions :=
  mkOptions (Some (mkStyle (js "#00A5D6") 3 None (Some (js "#00A5D6"))
                           (Some 0.05%float) (Some (js "10, 5"))))
            None None.

Definition roadsOptions : LayerOptions :=
  mkOptions (Some (mkStyle (js "#4a4a4a") 1 (Some 0.6%float) None None None))
            None None.

Definition waterOptions : LayerOptions :=
  mkOptions (Some (mkStyle (js "#3498DB") 1 None (Some (js "#3498DB"))
                           (Some 0.4%float) None))
            None None.

Definition parksOptions : LayerOptions :=
  mkOptions (Some (mkStyle (js "#27AE60") 1 None (Some (js "#27AE60"))
                           (Some 0.3%float) None))
            None None.

Definition amenitiesOptions : LayerOptions :=
  mkOptions None
            (Some (mkCircle 4 (js "#E67E22") (js "#E67E22") 1 0.8%float 0.6%float))
            (Some createAmenityPopup).

Definition metroOptions : LayerOptions :=
  mkOptions None
            (Some (mkCircle 6 (js "#9B59B6") (js "#ffffff") 2 1%float 0.9%float))
            (Some createMetroPopup).

Definition loadGeoJSONData (net : jsstring → FetchResult) : M unit :=
  loadLayer net "HZ_Center.geojson" "boundary" boundaryOptions "boundary";;
  loadLayer net "roads_simplified.geojson" "roads" roadsOptions "roads";;
  loadLayer net "water.geojson" "water" waterOptions "water";;
  loadLayer net "park.geojson" "parks" parksOptions "parks";;
  loadLayer net "amenity.geojson" "amenities" amenitiesOptions "amenities";;
  loadLayer net "metrostation.geojson" "metro" metroOptions "metro".

(** ** Form helpers *)

Definition validateForm : M unit :=
  date ← read eventDate;
  time ← read eventTime;
  fs ← read formState;
  if bool_decide (is_Some (form_location fs))
     && truthy (form_depth fs) && truthy (form_situation fs)
     && str_truthy date && str_truthy time
  then write (set_submitDisabled false)
  else write (set_submitDisabled true).

(** [now] is the [new Date()] the call makes. *)
Definition setDefaultDateTime (now : JsDate) : M unit :=
  write (set_eventDate (before 84 (toISOString now)));;
  write (set_eventTime (slice0 5 (toTimeString now))).

Definition resetForm (now : JsDate) : M unit :=
  cm ← read currentMarker;
  match cm with
  | Some m =>
      map_removeLayer (MarkerItem m);;
      write (set_currentMarker None)
  | None => mret tt
  end;;
  write (set_selectedLocation None);;
  write (set_formState (mkForm None JNull JNull));;
  write (set_locationDisplay LocationPlaceholder);;
  querySelectorAll_forEach "depth-option" (with_classes (classList_remove (js "selected")));;
  querySelectorAll_forEach "situation-chip" (with_classes (classList_remove (js "selected")));;
  write (set_locationDesc []);;
  write (set_photoUploadHtml PhotoPlaceholder);;
  write (λ st, set_photoUploadClasses
                 (classList_remove (js "has-image") (photoUploadClasses st)) st);;
  write (set_uploadedPhoto JNull);;
  write (set_photoInput []);;
  write (set_submitDisabled true);;
  setDefaultDateTime now.

(** ** Flood markers *)

Definition addFloodMarker (report : FloodReport) : M unit :=
  marker ← L_marker (mkLatLng (lat (report_location report))
                              (lng (report_location report)))
                    (createFloodIcon (report_depth report));
  let marker := bindPopup (createFloodPopup report) marker in
  let marker := set_reportData report marker in
  group_addLayer (js "floods") (MarkerLayer marker).

(** ** UI updates *)

Definition updateLocationDisplay (latlng : LatLng) : M unit :=
  write (set_locationDisplay (LocationCoords latlng)).

(** [now] is the [new Date()] the call makes. *)
Definition updateStats (now : JsDate) : M unit :=
  reports ← read floodReports;
  write (set_totalReports (Some (length reports)));;
  let today := before 84 (toISOString now) in
  let todayCount :=
    length (filter (λ r, report_date r = today) reports) in
  write (set_todayReports (Some todayCount)).

Definition shortDepthLabels : list (jsstring * jsstring) :=
  [ (js "shallow", [27973]%N);
    (js "moderate", [20013]%N);
    (js "deep", [28145]%N);
    (js "severe", [20005; 37325]%N) ].

Definition report_row (report : FloodReport) : Row :=
  mkRow (report_id report)
        (report_date report ++ js " " ++ report_time report)
        (report_depth report)
        (prop_of shortDepthLabels (report_depth report))
        (if str_truthy (report_description report)
         then inl (report_description report)
         else inr (report_location report)).

Definition updateReportList : M unit :=
  reports ← read floodReports;
  write (set_reportItems (Some (map report_row (reverse reports)))).

(** The click listener [updateReportList] puts on the row at position
    [this]. *)
Definition handleReportItemClick (this : nat) : M unit :=
  rows ← read reportItems;
  match default [] rows !! this with
  | None => throw TypeError
  | Some row =>
      reports ← read floodReports;
      match find (λ r, bool_decide (report_id r = row_data_id row)) reports with
      | Some report =>
          map_setView (mkLatLng (lat (report_location report))
                                (lng (report_location report))) 15
      | None => mret tt
      end
  end.

Definition showToast : M unit :=
  write (λ st, set_toastClasses (classList_add (js "show") (toastClasses st)) st);;
  write (λ st, set_timers (S (timers st)) st).

(** The callback [showToast] hands to [setTimeout]. *)
Definition toastTimeout : M unit :=
  write (λ st, set_toastClasses (classList_remove (js "show") (toastClasses st)) st);;
  write (λ st, set_timers (pred (timers st)) st).

(** ** Event handlers *)

Definition handleMapClick (latlng : LatLng) : M unit :=
  cm ← read currentMarker;
  match cm with
  | Some m => map_removeLayer (MarkerItem m)
  | None => mret tt
  end;;
  marker ← L_marker latlng createTempMarkerIcon;
  map_addLayer (MarkerItem marker);;
  write (set_currentMarker (Some marker));;
  write (set_selectedLocation (Some latlng));;
  write (λ st, set_formState (mkForm (Some latlng) (form_depth (formState st))
                                     (form_situation (formState st))) st);;
  updateLocationDisplay latlng;;
  write (set_instructionsDisplay (JStr (js "none")));;
  validateForm.

Definition handleDepthSelect (this : nat) : M unit :=
  querySelectorAll_forEach "depth-option" (with_classes (classList_remove (js "selected")));;
  el ← this_element this;
  update_this this (with_classes (classList_add (js "selected")));;
  write (λ st, set_formState (mkForm (form_location (formState st))
                                     (data "depth" el)
                                     (form_situation (formState st))) st);;
  validateForm.

Definition handleSituationSelect (this : nat) : M unit :=
  querySelectorAll_forEach "situation-chip" (with_classes (classList_remove (js "selected")));;
  el ← this_element this;
  update_this this (with_classes (classList_add (js "selected")));;
  write (λ st, set_formState (mkForm (form_location (formState st))
                                     (form_depth (formState st))
                                     (data "situation" el)) st);;
  validateForm.

(** [file] is the data URL the reader produces for [e.target.files[0]],
    when a file was chosen. *)
Definition handlePhotoUpload (file : option jsstring) : M unit :=
  match file with
  | Some result =>
      write (set_uploadedPhoto (JStr result));;
      write (set_photoUploadHtml (PhotoPreview result));;
      write (λ st, set_photoUploadClasses
                     (classList_add (js "has-image") (photoUploadClasses st)) st)
  | None => mret tt
  end.

(** The four clock readings of one submission, in the order the handler
    takes them: [Date.now()] for the id, [new Date()] for the timestamp, and
    the ones of [updateStats] and [setDefaultDateTime]. *)
Record SubmitClock : Type := mkSubmitClock {
  clock_id : Z;
  clock_timestamp : JsDate;
  clock_stats : JsDate;
  clock_reset : JsDate
}.

Definition handleFormSubmit (clock : SubmitClock) : M unit :=
  fs ← read formState;
  location ← match form_location fs with
             | Some l => mret l
             | None => throw TypeError
             end;
  date ← read eventDate;
  time ← read eventTime;
  description ← read locationDesc;
  photo ← read uploadedPhoto;
  let report :=
    mkReport (clock_id clock)
             (mkLatLng (lat location) (lng location))
             date time
             (form_depth fs) (form_situation fs)
             description photo
             (toISOString (clock_timestamp clock)) in
  write (λ st, set_floodReports (floodReports st ++ [report]) st);;
  addFloodMarker report;;
  updateStats (clock_stats clock);;
  showToast;;
  resetForm (clock_reset clock);;
  updateReportList.

Definition handleLayerToggle (this : nat) : M unit :=
  el ← this_element this;
  let layerName := data "layer" el in
  update_this this (with_classes (classList_toggle (js "active")));;
  el ← this_element this;
  ls ← read layers;
  match layerName with
  | JStr name =>
      match ls !! name with
      | Some _ =>
          if has_class "active" el
          then map_addLayer (GroupItem name)
          else map_removeLayer (GroupItem name)
      | None => throw TypeError
      end
  | _ => throw TypeError
  end.

Definition handleModeToggle (this : nat) : M unit :=
  querySelectorAll_forEach "mode-btn" (with_classes (classList_remove (js "active")));;
  el ← this_element this;
  update_this this (with_classes (classList_add (js "active")));;
  if strict_eq (data "mode" el) (JStr (js "report"))
  then write (set_reportFormDisplay (JStr (js "block")));;
       write (set_reportListDisplay (JStr (js "none")))
  else write (set_reportFormDisplay (JStr (js "none")));;
       write (set_reportListDisplay (JStr (js "block"))).

(** ** Filter functionality *)

(** The body of the loop of [filterReports]: the flag [show] after its three
    tests. *)
Definition show_report (depthFilter : jsval) (dateFrom dateTo : jsstring)
    (report : FloodReport) : bool :=
  let show := true in
  let show :=
    if negb (strict_eq depthFilter (JStr (js "all")))
       && negb (strict_eq (report_depth report) depthFilter)
    then false else show in
  let show :=
    if str_truthy dateFrom && str_lt (report_date report) dateFrom
    then false else show in
  let show :=
    if str_truthy dateTo && str_gt (report_date report) dateTo
    then false else show in
  show.

(** [document.querySelector('.filter-chip.active')] *)
Definition active_filter_chip (doc : list Element) : option Element :=
  find (λ el, has_class "filter-chip" el && has_class "active" el) doc.

Definition filterReports : M unit :=
  doc ← read document;
  chip ← match active_filter_chip doc with
         | Some el => mret el
         | None => throw TypeError
         end;
  let depthFilter := data "depth" chip in
  dateFrom ← read filterDateFrom;
  dateTo ← read filterDateTo;
  group_clearLayers (js "floods");;
  reports ← read floodReports;
  forEach (λ report,
             if show_report depthFilter dateFrom dateTo report
             then addFloodMarker report
             else mret tt)
          reports.

Definition handleFilterChipClick (this : nat) : M unit :=
  querySelectorAll_forEach "filter-chip" (with_classes (classList_remove (js "active")));;
  _ ← this_element this;
  update_this this (with_classes (classList_add (js "active")));;
  filterReports.

(** ** Demo data *)

(** [now k] is the [k]-th [new Date()] of the call. *)
Definition demoReports (now : nat → JsDate) : list FloodReport :=
  [ mkReport 1 (mkLatLng 30.2574 120.1583) (js "2025-06-15") (js "08:30")
             (JStr (js "moderate")) (JStr (js "commute"))
             [20013; 27827; 21271; 36335; 19982; 24198; 26149; 36335; 20132; 21449; 21475]%N
             JNull (toISOString (now 0%nat));
    mkReport 2 (mkLatLng 30.2456 120.1789) (js "2025-06-15") (js "09:15")
             (JStr (js "deep")) (JStr (js "work"))
             [20964; 36215; 36335; 22320; 38081; 31449; 38468; 36817]%N
             JNull (toISOString (now 1%nat));
    mkReport 3 (mkLatLng 30.2312 120.1456) (js "2025-06-14") (js "16:45")
             (JStr (js "shallow")) (JStr (js "home"))
             [35199; 28246; 25991; 21270; 24191; 22330; 21608; 36793]%N
             JNull (toISOString (now 2%nat));
    mkReport 4 (mkLatLng 30.2689 120.1234) (js "2025-06-14") (js "07:20")
             (JStr (js "severe")) (JStr (js "commute"))
             [25991; 19977; 36335; 19982; 23398; 38498; 36335; 36335; 21475]%N
             JNull (toISOString (now 3%nat));
    mkReport 5 (mkLatLng 30.1923 120.2134) (js "2025-06-13") (js "14:30")
             (JStr (js "moderate")) (JStr (js "other"))
             [28392; 27743; 21306; 27743; 21335; 22823; 36947]%N
             JNull (toISOString (now 4%nat)) ].

Definition addDemoData (now : nat → JsDate) : M unit :=
  forEach (λ report,
             write (λ st, set_floodReports (floodReports st ++ [report]) st);;
             addFloodMarker report)
          (demoReports now);;
  updateStats (now 5%nat);;
  updateReportList.

(** ** The session *)

(** The state the script starts in, over the page as authored. *)
Definition initial (page_form : FormDom) (page_view : ViewDom) : State :=
  mkState (mkVars None ∅ None None [] (mkForm None JNull JNull) JNull)
          page_form page_view
          (mkHost [] [] 0 0).

(** The [DOMContentLoaded] listener.  The layer loads only write the six
    static groups and the console, so they are run to completion where the
    script starts them. *)
Definition onDOMContentLoaded (net : jsstring → FetchResult) (now : nat → JsDate) : M unit :=
  initializeMap;;
  initializeLayerGroups;;
  loadGeoJSONData net;;
  setDefaultDateTime (now 0%nat);;
  addDemoData (λ k, now (S k)).

(** [initializeEventListeners]: the click listeners of the elements reached
    by class, in the order they are added. *)
Definition clickListeners : list (string * (nat → M unit)) :=
  [ ("depth-option", handleDepthSelect);
    ("situation-chip", handleSituationSelect);
    ("layer-item", handleLayerToggle);
    ("mode-btn", handleModeToggle);
    ("filter-chip", handleFilterChipClick) ].

(** The transitions of the draft's fields. *)
Inductive FieldTransition : Type :=
  | MapClicked (latlng : LatLng)
  | DepthSelected (this : nat)
  | SituationSelected (this : nat)
  | DateEdited (value : jsstring)
  | TimeEdited (value : jsstring)
  | FormReset (now : JsDate).

Definition transition (t : FieldTransition) : M unit :=
  match t with
  | MapClicked latlng => handleMapClick latlng
  | DepthSelected this => handleDepthSelect this
  | SituationSelected this => handleSituationSelect this
  | DateEdited value => write (set_eventDate value);; validateForm
  | TimeEdited value => write (set_eventTime value);; validateForm
  | FormReset now => resetForm now
  end.

(** What can happen to the page after it has loaded. *)
Inductive Event : Type :=
  | MapClick (latlng : LatLng)
  | Click (this : nat)
  | PhotoChange (file : option jsstring)
  | DateChange (value : jsstring)
  | TimeChange (value : jsstring)
  | DescriptionInput (value : jsstring)
  | Submit (clock : SubmitClock)
  | FilterDateFromChange (value : jsstring)
  | FilterDateToChange (value : jsstring)
  | CloseInstructions
  | ReportItemClick (this : nat)
  | ToastTimeout.

(** Listeners run one after the other; one that throws does not stop the
    next. *)
Definition run_listeners (ls : list (M unit)) (st : State) : State :=
  fold_left (λ s m, state_of (m s)) ls st.

Definition dispatch (ev : Event) (st : State) : State :=
  match ev with
  | MapClick latlng => state_of (handleMapClick latlng st)
  | Click this =>
      match document st !! this with
      | Some el =>
          run_listeners
            (map (λ l, l.2 this) (filter (λ l, has_class l.1 el) clickListeners))
            st
      | None => st
      end
  | PhotoChange file => state_of (handlePhotoUpload file st)
  | DateChange value => state_of (transition (DateEdited value) st)
  | TimeChange value => state_of (transition (TimeEdited value) st)
  | DescriptionInput value => set_locationDesc value st
  | Submit clock => state_of (handleFormSubmit clock st)
  | FilterDateFromChange value => state_of (filterReports (set_filterDateFrom value st))
  | FilterDateToChange value => state_of (filterReports (set_filterDateTo value st))
  | CloseInstructions => set_instructionsDisplay (JStr (js "none")) st
  | ReportItemClick this => state_of (handleReportItemClick this st)
  | ToastTimeout => state_of (toastTimeout st)
  end.

Definition session (evs : list Event) (st : State) : State :=
  fold_left (λ s ev, dispatch ev s) evs st.

(* ================================================================== *)
(** * Observations used in the statements *)

(** The members of [layers.floods]. *)
Definition floods (st : State) : list Layer :=
  default [] (layers st !! js "floods").

(** The marker [addFloodMarker] builds for a report, as object [k]. *)
Definition floodMarker (k : nat) (report : FloodReport) : Marker :=
  mkMarker k
           (mkLatLng (lat (report_location report)) (lng (report_location report)))
           (createFloodIcon (report_depth report))
           (Some (createFloodPopup report))
           (Some report).

(** The validation gate: location, depth, situation, date and time all
    set. *)
Definition all_set (st : State) : Prop :=
  is_Some (form_location (formState st))
  ∧ truthy (form_depth (formState st)) = true
  ∧ truthy (form_situation (formState st)) = true
  ∧ eventDate st ≠ []
  ∧ eventTime st ≠ [].

(** When a field transition can happen: the map exists for the handlers
    that draw on it, and [this] is an element of the group the listener was
    added to. *)
Definition ready (t : FieldTransition) (st : State) : Prop :=
  match t with
  | MapClicked _ => is_Some (leafletMap st)
  | DepthSelected this =>
      ∃ el, document st !! this = Some el ∧ has_class "depth-option" el = true
  | SituationSelected this =>
      ∃ el, document st !! this = Some el ∧ has_class "situation-chip" el = true
  | DateEdited _ | TimeEdited _ => True
  | FormReset _ => is_Some (leafletMap st)
  end.

(** ** The filter, in the words of the specification *)

(** [a <= b] on strings. *)
Definition str_le (a b : jsstring) : Prop := a = b ∨ str_lt a b = true.

(** A report passes when its depth is the selected one unless the selection
    is 'all', its date is not before [dateFrom] unless that is empty, and
    not after [dateTo] unless that is empty. *)
Definition passes (depthFilter : jsval) (dateFrom dateTo : jsstring)
    (report : FloodReport) : Prop :=
  (depthFilter = JStr (js "all") ∨ report_depth report = depthFilter)
  ∧ (dateFrom = [] ∨ str_le dateFrom (report_date report))
  ∧ (dateTo = [] ∨ str_le (report_date report) dateTo).

(** ** Calendar dates *)

Definition is_digit (c : N) : bool := (48 <=? c)%N && (c <=? 57)%N.

(** [s] has the shape DDDD-DD-DD. *)
Definition zero_padded_iso (s : jsstring) : bool :=
  match s with
  | [y1; y2; y3; y4; h1; m1; m2; h2; d1; d2] =>
      forallb is_digit [y1; y2; y3; y4; m1; m2; d1; d2]
      && (h1 =? 45)%N && (h2 =? 45)%N
  | _ => false
  end.

(** The number a run of decimal digits writes. *)
Definition decimal (ds : jsstring) : Z :=
  fold_left (λ acc d, 10 * acc + (Z.of_N d - 48))%Z ds 0%Z.

(** [s.split(c)] *)
Fixpoint split_on (c : N) (s : jsstring) : list jsstring :=
  match s with
  | [] => [[]]
  | x :: s' =>
      if (x =? c)%N then [] :: split_on c s'
      else match split_on c s' with
           | [] => [[x]]
           | f :: fs => (x :: f) :: fs
           end
  end.

Definition parse_field (f : jsstring) : option Z :=
  if str_truthy f && forallb is_digit f then Some (decimal f) else None.

(** Year, month and day of a date written Y-M-D, padded or not. *)
Definition parse_date (s : jsstring) : option (Z * Z * Z) :=
  match split_on 45 s with
  | [y; m; d] =>
      y ← parse_field y; m ← parse_field m; d ← parse_field d; Some (y, m, d)
  | _ => None
  end.

(** Strictly earlier, on year, month, day. *)
Definition earlier (a b : Z * Z * Z) : bool :=
  let '(y, m, d) := a in
  let '(y', m', d') := b in
  (y <? y')%Z
  || (y =? y')%Z && ((m <? m')%Z || (m =? m')%Z && (d <? d')%Z).

(** On [a] and [b] the two string tests of the filter are the calendar's. *)
Definition chronological (a b : jsstring) : Prop :=
  ∃ da db, parse_date a = Some da ∧ parse_date b = Some db
           ∧ str_lt a b = earlier da db ∧ str_gt a b = earlier db da.

(** ** The six static layers *)

Record StaticLayer : Type := mkStatic {
  static_url : string;
  static_name : string;
  static_options : LayerOptions;
  static_target : string
}.

Definition staticLayers : list StaticLayer :=
  [ mkStatic "HZ_Center.geojson" "boundary" boundaryOptions "boundary";
    mkStatic "roads_simplified.geojson" "roads" roadsOptions "roads";
    mkStatic "water.geojson" "water" waterOptions "water";
    mkStatic "park.geojson" "parks" parksOptions "parks";
    mkStatic "amenity.geojson" "amenities" amenitiesOptions "amenities";
    mkStatic "metrostation.geojson" "metro" metroOptions "metro" ].

(** What one layer's own file gives: the layer to draw, or the error its
    load ends in. *)
Definition own_outcome (net : jsstring → FetchResult) (l : StaticLayer) : Exn + Layer :=
  match net (js (static_url l)) with
  | Rejected => inl FetchRejected
  | Responded status body =>
      if status_ok status then
        match body with
        | Some geo =>
            match geoJSON_layer geo (static_options l) with
            | Some layer => inr layer
            | None => inl InvalidGeoJSON
            end
        | None => inl JsonSyntaxError
        end
      else inl (HttpError status (js (static_url l)))
  end.

(** The ids in the store. *)
Definition ids (st : State) : list Z := map report_id (floodReports st).

(** The [Date.now()] readings of the submissions of a session. *)
Definition submit_clocks (evs : list Event) : list Z :=
  omap (λ ev, match ev with Submit clock => Some (clock_id clock) | _ => None end) evs.

(** The condition [validateForm] tests. *)
Definition gate (st : State) : bool :=
  bool_decide (is_Some (form_location (formState st)))
  && truthy (form_depth (formState st)) && truthy (form_situation (formState st))
  && str_truthy (eventDate st) && str_truthy (eventTime st).

(** The report a submission makes of the draft at [location]. *)
Definition submitted (clock : SubmitClock) (st : State) (location : LatLng) : FloodReport :=
  mkReport (clock_id clock)
           (mkLatLng (lat location) (lng location))
           (eventDate st) (eventTime st)
           (form_depth (formState st)) (form_situation (formState st))
           (locationDesc st) (uploadedPhoto st)
           (toISOString (clock_timestamp clock)).

(** The script has run its initialization: the map and the flood group
    exist. *)
Definition initialised (st : State) : Prop :=
  is_Some (leafletMap st) ∧ is_Some (layers st !! js "floods").

(** The temporary marker [m] is not drawn on the map. *)
Definition off_map (m : Marker) (st : State) : Prop :=
  ∀ mp, leafletMap st = Some mp →
        existsb (same_item (MarkerItem m)) (map_items mp) = false.

#[global] Instance str_le_dec (a b : jsstring) : Decision (str_le a b).
Proof. unfold str_le. apply _. Defined.

#[global] Instance passes_dec (depthFilter : jsval) (dateFrom dateTo : jsstring)
    (report : FloodReport) : Decision (passes depthFilter dateFrom dateTo report).
Proof. unfold passes. apply _. Defined.

(** The state with the flood group holding [members] and [n] the next
    object identity. *)
Definition with_floods (members : list Layer) (n : nat) (st : State) : State :=
  set_nextStamp n (set_layers (<[js "floods" := members]> (layers st)) st).

(** The markers [addFloodMarker] builds for [reports] one after the other,
    the first as object [n]. *)
Definition floodMarkers (n : nat) (reports : list FloodReport) : list Layer :=
  imap (λ i report, MarkerLayer (floodMarker (n + i) report)) reports.

(** One load per static layer, in order. *)
Definition loadAll (net : jsstring → FetchResult) (ls : list StaticLayer) : M unit :=
  forEach (λ l, loadLayer net (static_url l) (static_name l)
                          (static_options l) (static_target l)) ls.

(** What a group holds once the load of [l] is over: one more layer when
    the file gave one. *)
Definition after_load (net : jsstring → FetchResult) (l : StaticLayer)
    (g : list Layer) : list Layer :=
  match own_outcome net l with
  | inr layer => g ++ [layer]
  | inl _ => g
  end.

(** The load of [l] logged its failure, if it failed. *)
Definition failure_logged (net : jsstring → FetchResult) (l : StaticLayer)
    (st : State) : Prop :=
  match own_outcome net l with
  | inr _ => True
  | inl error =>
      LogFailed (js (static_name l)) (js (static_url l)) error ∈ console st
  end.

(** A computation that leaves the store alone, whether it returns or
    throws. *)
Definition keeps_store {A : Type} (m : M A) : Prop :=
  ∀ st, floodReports (state_of (m st)) = floodReports st.

(* ================================================================== *)
(** * A sample page and session *)

Definition chip (classes : list string) (key value : string) : Element :=
  mkElement (js <$> classes) {[ js key := js value ]}.

(** Modelled from the spec: the page's markup, which is not among the
    source files.  Four depth options, four situation chips, one toggle per
    layer, two mode buttons and five filter chips, 'all' active; the form is
    empty and its submit control disabled. *)
Definition samplePage : list Element :=
  [ chip ["depth-option"] "depth" "shallow";
    chip ["depth-option"] "depth" "moderate";
    chip ["depth-option"] "depth" "deep";
    chip ["depth-option"] "depth" "severe";
    chip ["situation-chip"] "situation" "home";
    chip ["situation-chip"] "situation" "commute";
    chip ["situation-chip"] "situation" "work";
    chip ["situation-chip"] "situation" "other";
    chip ["layer-item"; "active"] "layer" "roads";
    chip ["layer-item"; "active"] "layer" "water";
    chip ["layer-item"; "active"] "layer" "parks";
    chip ["layer-item"; "active"] "layer" "amenities";
    chip ["layer-item"; "active"] "layer" "metro";
    chip ["layer-item"; "active"] "layer" "floods";
    chip ["layer-item"; "active"] "layer" "boundary";
    chip ["mode-btn"; "active"] "mode" "report";
    chip ["mode-btn"] "mode" "list";
    chip ["filter-chip"; "active"] "depth" "all";
    chip ["filter-chip"] "depth" "shallow";
    chip ["filter-chip"] "depth" "moderate";
    chip ["filter-chip"] "depth" "deep";
    chip ["filter-chip"] "depth" "severe" ].

Definition sampleForm : FormDom :=
  mkFormDom [] [] [] [] true PhotoAuthored [] LocationAuthored.

Definition sampleView : ViewDom :=
  mkViewDom (JStr []) (JStr []) (JStr []) None None None [] [] [] samplePage.

(** A network on which the water file is missing and the other five files
    hold one feature each. *)
Definition sampleNet (url : jsstring) : FetchResult :=
  if bool_decide (url = js "water.geojson") then Responded 404 None
  else if bool_decide (url = js "amenity.geojson")
       || bool_decide (url = js "metrostation.geojson") then
    Responded 200
      (Some (GeoObject (Some [ mkFeature (Point (mkLatLng 30.26 120.16))
                                         (Some (mkProps (JStr (js "Library"))
                                                        JUndefined JUndefined)) ])))
  else
    Responded 200
      (Some (GeoObject (Some [ mkFeature (Shape [ mkLatLng 30.2 120.1;
                                                  mkLatLng 30.3 120.1;
                                                  mkLatLng 30.3 120.2 ])
                                         None ]))).

(** A clock that stands at 2025-06-15T15:06:40Z, read in Hangzhou. *)
Definition sampleNow : JsDate :=
  mkDate 1750000000000
         (js "2025-06-15T15:06:40.000Z")
         (js "23:06:40 GMT+0800 (China Standard Time)").

Definition sampleClock : SubmitClock :=
  mkSubmitClock 1750000000000 sampleNow sampleNow sampleNow.

(** The page once the script has loaded. *)
Definition loaded : State :=
  state_of (onDOMContentLoaded sampleNet (λ _, sampleNow)
                               (initial sampleForm sampleView)).

(** A complete draft: a click on the map, 'deep', 'commute'. *)
Definition draft : list Event :=
  [ MapClick (mkLatLng 30.25 120.15); Click 2%nat; Click 5%nat ].

(** Two complete submissions on a clock that has not moved. *)
Definition twoSubmissions : list Event :=
  draft ++ [Submit sampleClock] ++ draft ++ [Submit sampleClock].

(** The loaded page after a click on the filter chip 'moderate'. *)
Definition moderateFilter : State := session [Click 19%nat] loaded.

Definition moderateChip : Element :=
  mkElement [js "filter-chip"; js "active"] {[ js "depth" := js "moderate" ]}.

(** The loaded page after a click on the filter chip 'severe' and the two
    date bounds set. *)
Definition severeFilter : State :=
  session [ Click 21%nat; FilterDateFromChange (js "2025-06-14");
            FilterDateToChange (js "2025-06-15") ] loaded.

Definition severeChip : Element :=
  mkElement [js "filter-chip"; js "active"] {[ js "depth" := js "severe" ]}.

(** The page once the map and the layer groups exist, before any file is
    fetched. *)
Definition mapReady : State :=
  state_of ((initializeMap;; initializeLayerGroups) (initial sampleForm sampleView)).

(* ================================================================== *)
(** * Observations on the rest of the script *)

(** A computation that leaves [obs] as it was, whether it returns or
    throws. *)
Definition preserves {A B : Type} (obs : State → B) (m : M A) : Prop :=
  ∀ st, obs (state_of (m st)) = obs st.

(** The markers drawn on the map itself (the temporary ones). *)
Definition temp_markers (mp : LMap) : list Marker :=
  omap (λ item, match item with MarkerItem m => Some m | _ => None end) (map_items mp).

(** The draft's location is where the temporary marker stands, and there
    is no other temporary marker on the map. *)
Definition marker_follows_draft (st : State) : Prop :=
  form_location (formState st) = marker_latlng <$> currentMarker st
  ∧ selectedLocation st = form_location (formState st)
  ∧ ∀ mp, leafletMap st = Some mp → temp_markers mp = option_list (currentMarker st).

(** The list view and the total show the store as it is. *)
Definition in_sync (st : State) : Prop :=
  initialised st
  ∧ reportItems st = Some (map report_row (reverse (floodReports st)))
  ∧ totalReports st = Some (length (floodReports st)).

(** Every member of the flood group is the marker [addFloodMarker] builds
    for a report, and these reports are stored reports, in the store's
    order. *)
Definition markers_stand_for_reports (st : State) : Prop :=
  ∃ kr : list (nat * FloodReport),
    floods st = (λ p, MarkerLayer (floodMarker p.1 p.2)) <$> kr
    ∧ kr.*2 `sublist_of` floodReports st.

(** The group [name] is drawn on the map. *)
Definition on_map (name : jsstring) (st : State) : bool :=
  match leafletMap st with
  | Some mp => existsb (same_item (GroupItem name)) (map_items mp)
  | None => false
  end.

(** A computation that keeps [P], whether it returns or throws. *)
Definition maintains {A : Type} (P : State → Prop) (m : M A) : Prop :=
  ∀ st, P st → P (state_of (m st)).

(** What the invariants below read of the state: the temporary markers
    on the map, the draft's location and marker, the store, the layer groups,
    the list view and the total. *)
Definition page_obs (st : State)
  : option (list Marker) * option Marker * option LatLng * option LatLng
    * list FloodReport * gmap jsstring (list Layer) * option (list Row) * option nat :=
  (temp_markers <$> leafletMap st, currentMarker st, selectedLocation st,
   form_location (formState st),
   floodReports st, layers st, reportItems st, totalReports st).

(** The same without the draft's location and marker. *)
Definition sync_obs (st : State)
  : option unit * list FloodReport * gmap jsstring (list Layer)
    * option (list Row) * option nat :=
  ((λ _, tt) <$> leafletMap st, floodReports st, layers st, reportItems st,
   totalReports st).

(** What [marker_follows_draft] reads of the state. *)
Definition marker_obs (st : State)
  : option (list Marker) * option Marker * option LatLng * option LatLng :=
  (temp_markers <$> leafletMap st, currentMarker st, selectedLocation st,
   form_location (formState st)).

(** What [markers_stand_for_reports] reads of the state. *)
Definition shown_obs (st : State) : list FloodReport * gmap jsstring (list Layer) :=
  (floodReports st, layers st).

(** The submit control stands as [validateForm] would leave it. *)
Definition gate_tracked (st : State) : Prop :=
  submitDisabled st = negb (gate st).

(** What the gate and the submit control read of the state. *)
Definition gate_obs (st : State) : FormState * jsstring * jsstring * bool :=
  (formState st, eventDate st, eventTime st, submitDisabled st).


(** The layer groups other than the flood group. *)
Definition static_groups (st : State) : gmap jsstring (list Layer) :=
  delete (js "floods") (layers st).

(** The names of the seven layer groups, in the order
    [initializeLayerGroups] creates them. *)
Definition groupNames : list jsstring :=
  js <$> ["roads"; "water"; "parks"; "amenities"; "metro"; "floods"; "boundary"].

(* ================================================================== *)
(** * Proofs *)

Arguments js : simpl never.

(** Running a handler on a state whose slots are exposed. *)
Ltac expose st :=
  destruct st as [[? ? ? ? ? [? ? ?] ?] [? ? ? ? ? ? ? ?] [? ? ? ? ? ? ? ? ? ?] [? ? ? ?]].

Ltac run :=
  cbv [mbind M_bind mret M_ret read write throw try_catch] in *; cbn in *.

(** ** The validation gate *)

Lemma str_truthy_spec (s : jsstring) : str_truthy s = true ↔ s ≠ [].
Proof. destruct s; cbn; split; congruence. Qed.

Lemma gate_spec (st : State) : gate st = true ↔ all_set st.
Proof.
  unfold gate, all_set.
  rewrite !andb_true_iff, bool_decide_eq_true, !str_truthy_spec. tauto.
Qed.

Lemma validateForm_run (st : State) :
  validateForm st = Ok tt (set_submitDisabled (negb (gate st)) st).
Proof.
  unfold validateForm, gate. expose st. run.
  match goal with |- context [bool_decide ?P] => destruct (bool_decide P) end;
    repeat match goal with |- context [truthy ?v] => destruct (truthy v) end;
    repeat match goal with |- context [str_truthy ?v] => destruct (str_truthy v) end;
    reflexivity.
Qed.

Lemma gate_set_submitDisabled (b : bool) (st : State) :
  gate (set_submitDisabled b st) = gate st.
Proof. reflexivity. Qed.

Arguments validateForm : simpl never.

Ltac close_gate :=
  rewrite validateForm_run; eexists; split; [reflexivity|];
  rewrite <- gate_spec, gate_set_submitDisabled;
  match goal with |- context [gate ?s] => destruct (gate s) end;
  cbn; split; congruence.

Lemma this_lookup_map (f : Element → Element) (doc : list Element)
    (this : nat) (el : Element) :
  doc !! this = Some el → map f doc !! this = Some (f el).
Proof.
  intros H. change (map f doc) with (f <$> doc). by rewrite list_lookup_fmap, H.
Qed.

Lemma handleMapClick_gate (latlng : LatLng) (st : State) :
  is_Some (leafletMap st) →
  ∃ st', handleMapClick latlng st = Ok tt st'
         ∧ (submitDisabled st' = false ↔ all_set st').
Proof.
  intros [mp Hmp].
  unfold handleMapClick, map_removeLayer, map_addLayer, with_map, L_marker,
    updateLocationDisplay.
  expose st. run. subst.
  match goal with |- context [match ?c with Some _ => _ | None => _ end] =>
    destruct c end; run; close_gate.
Qed.

(** The state a depth selection hands to [validateForm]. *)
Lemma handleDepthSelect_run (this : nat) (st : State) (el : Element) :
  document st !! this = Some el →
  handleDepthSelect this st =
  validateForm
    (set_formState
       (mkForm (form_location (formState st)) (data "depth" el)
               (form_situation (formState st)))
       (set_document
          (alter (with_classes (classList_add (js "selected"))) this
             (map (λ e, if has_class "depth-option" e
                        then with_classes (classList_remove (js "selected")) e
                        else e)
                  (document st)))
          st)).
Proof.
  intros Hel.
  unfold handleDepthSelect, querySelectorAll_forEach, this_element, update_this.
  expose st. run.
  erewrite this_lookup_map by eassumption.
  destruct (has_class "depth-option" el); reflexivity.
Qed.

Lemma handleSituationSelect_run (this : nat) (st : State) (el : Element) :
  document st !! this = Some el →
  handleSituationSelect this st =
  validateForm
    (set_formState
       (mkForm (form_location (formState st)) (form_depth (formState st))
               (data "situation" el))
       (set_document
          (alter (with_classes (classList_add (js "selected"))) this
             (map (λ e, if has_class "situation-chip" e
                        then with_classes (classList_remove (js "selected")) e
                        else e)
                  (document st)))
          st)).
Proof.
  intros Hel.
  unfold handleSituationSelect, querySelectorAll_forEach, this_element, update_this.
  expose st. run.
  erewrite this_lookup_map by eassumption.
  destruct (has_class "situation-chip" el); reflexivity.
Qed.

Lemma resetForm_gate (now : JsDate) (st : State) :
  is_Some (leafletMap st) →
  ∃ st', resetForm now st = Ok tt st'
         ∧ submitDisabled st' = true
         ∧ form_location (formState st') = None.
Proof.
  intros [mp Hmp].
  unfold resetForm, map_removeLayer, with_map, querySelectorAll_forEach,
    setDefaultDateTime.
  expose st. run. subst.
  match goal with |- context [match ?c with Some _ => _ | None => _ end] =>
    destruct c end; run; eexists; (split; [reflexivity|]); cbn; done.
Qed.

Lemma not_all_set_without_location (st : State) :
  form_location (formState st) = None → ¬ all_set st.
Proof. intros H [[l Hl] _]. congruence. Qed.

Lemma transition_gate (t : FieldTransition) (st : State) :
  ready t st →
  ∃ st', transition t st = Ok tt st'
         ∧ (submitDisabled st' = false ↔ all_set st').
Proof.
  destruct t as [latlng|this|this|value|value|now]; cbn [ready transition].
  - apply handleMapClick_gate.
  - intros (el & Hel & _). rewrite (handleDepthSelect_run _ _ _ Hel). close_gate.
  - intros (el & Hel & _). rewrite (handleSituationSelect_run _ _ _ Hel). close_gate.
  - intros _. run. close_gate.
  - intros _. run. close_gate.
  - intros Hmap. destruct (resetForm_gate now st Hmap) as (st' & Hrun & Hdis & Hloc).
    exists st'. split; [exact Hrun|]. split; [congruence|].
    intros Hall. by apply not_all_set_without_location in Hall.
Qed.

Lemma lookup_after_select (doc : list Element) (this j : nat)
    (f g : Element → Element) (el : Element) :
  doc !! j = Some el → is_Some (alter f this (map g doc) !! j).
Proof.
  intros H. apply lookup_lt_is_Some. rewrite length_alter, length_map.
  by eapply lookup_lt_Some.
Qed.

(** C2. After each transition of the draft's fields (map click, depth
    selection, situation selection, date edit, time edit, form reset) the
    handler returns and the submit control is enabled if and only if
    location, depth, situation, date and time are all set; and after a depth
    and a situation selection on a draft with no location it is disabled. *)
Theorem submit_enabled_iff_all_set :
  (∀ (t : FieldTransition) (st : State),
     ready t st →
     ∃ st', transition t st = Ok tt st'
            ∧ (submitDisabled st' = false ↔ all_set st'))
  ∧ (∀ (i j : nat) (st : State),
       ready (DepthSelected i) st →
       ready (SituationSelected j) st →
       form_location (formState st) = None →
       ∃ st1 st2, transition (DepthSelected i) st = Ok tt st1
                  ∧ transition (SituationSelected j) st1 = Ok tt st2
                  ∧ form_location (formState st2) = None
                  ∧ submitDisabled st2 = true).
Proof.
  split; [exact transition_gate|].
  intros i j st (el & Hel & _) (el' & Hel' & _) Hloc. cbn [transition].
  rewrite (handleDepthSelect_run _ _ _ Hel), validateForm_run.
  eexists. 
  destruct (lookup_after_select (document st) i j
              (with_classes (classList_add (js "selected")))
              (λ e, if has_class "depth-option" e
                    then with_classes (classList_remove (js "selected")) e
                    else e) el' Hel') as [el2 Hel2].
  eexists. split; [reflexivity|].
  erewrite handleSituationSelect_run; [|cbn; exact Hel2].
  rewrite validateForm_run. split; [reflexivity|].
  unfold gate, formState in *. cbn. rewrite Hloc. split; reflexivity.
Qed.

Lemma submit_enabled_iff_all_set_witness :
  (∃ st', transition (MapClicked (mkLatLng 30.25 120.15)) loaded = Ok tt st'
          ∧ (submitDisabled st' = false ↔ all_set st'))
  ∧ (∃ st1 st2, transition (DepthSelected 2) loaded = Ok tt st1
                ∧ transition (SituationSelected 5) st1 = Ok tt st2
                ∧ form_location (formState st2) = None
                ∧ submitDisabled st2 = true).
Proof.
  split.
  - apply (proj1 submit_enabled_iff_all_set). vm_compute. eauto.
  - apply (proj2 submit_enabled_iff_all_set).
    + eexists. split; vm_compute; reflexivity.
    + eexists. split; vm_compute; reflexivity.
    + vm_compute. reflexivity.
Defined.

(** ** Single selection *)

Lemma contains_spec (tokens : list jsstring) (t : jsstring) :
  contains tokens t = true ↔ t ∈ tokens.
Proof. unfold contains. apply bool_decide_eq_true. Qed.

Lemma elem_of_classList_add (t x : jsstring) (tokens : list jsstring) :
  x ∈ classList_add t tokens ↔ x ∈ tokens ∨ x = t.
Proof.
  unfold classList_add. destruct (contains tokens t) eqn:E.
  - apply contains_spec in E. split; [tauto|]. intros [H| ->]; assumption.
  - rewrite elem_of_app, list_elem_of_singleton. tauto.
Qed.

Lemma elem_of_classList_remove (t x : jsstring) (tokens : list jsstring) :
  x ∈ classList_remove t tokens ↔ x ∈ tokens ∧ x ≠ t.
Proof. unfold classList_remove. rewrite list_elem_of_filter. tauto. Qed.

Lemma has_class_spec (c : string) (el : Element) :
  has_class c el = true ↔ js c ∈ classList el.
Proof. apply contains_spec. Qed.

(** After the two class updates of a selection handler on the group [g],
    an element of the group is selected exactly when it is the clicked
    one. *)
Lemma select_unique (g : string) (doc : list Element) (this j : nat) (el' : Element) :
  alter (with_classes (classList_add (js "selected"))) this
    (map (λ e, if has_class g e
               then with_classes (classList_remove (js "selected")) e
               else e) doc) !! j = Some el' →
  has_class g el' = true →
  has_class "selected" el' = true ↔ j = this.
Proof.
  intros Hlook Hg. destruct (decide (j = this)) as [->|Hne].
  - rewrite list_lookup_alter_eq in Hlook.
    destruct (map _ doc !! this) as [e|]; [|discriminate]. cbn in Hlook.
    injection Hlook as <-. split; [done|]. intros _.
    apply has_class_spec. cbn. apply elem_of_classList_add. by right.
  - rewrite list_lookup_alter_ne in Hlook by done.
    change (map ?f doc) with (f <$> doc) in Hlook.
    rewrite list_lookup_fmap in Hlook.
    destruct (doc !! j) as [e|]; [|discriminate]. cbn in Hlook.
    injection Hlook as <-. split; [|done]. intros Hsel. exfalso.
    destruct (has_class g e) eqn:E.
    + apply has_class_spec in Hsel. cbn in Hsel.
      apply elem_of_classList_remove in Hsel. tauto.
    + congruence.
Qed.

(** C7. A depth or situation selection returns with [selected] on exactly
    the clicked element of its group, hence on at most one, and with the
    draft's field equal to the clicked element's value. *)
Theorem selection_is_single :
  (∀ (this : nat) (st : State) (el : Element),
     document st !! this = Some el →
     has_class "depth-option" el = true →
     ∃ st', handleDepthSelect this st = Ok tt st'
            ∧ form_depth (formState st') = data "depth" el
            ∧ ∀ j el', document st' !! j = Some el' →
                       has_class "depth-option" el' = true →
                       (has_class "selected" el' = true ↔ j = this))
  ∧ (∀ (this : nat) (st : State) (el : Element),
       document st !! this = Some el →
       has_class "situation-chip" el = true →
       ∃ st', handleSituationSelect this st = Ok tt st'
              ∧ form_situation (formState st') = data "situation" el
              ∧ ∀ j el', document st' !! j = Some el' →
                         has_class "situation-chip" el' = true →
                         (has_class "selected" el' = true ↔ j = this)).
Proof.
  split; intros this st el Hel _.
  - rewrite (handleDepthSelect_run _ _ _ Hel), validateForm_run.
    eexists. split; [reflexivity|]. split; [reflexivity|].
    intros j el'. cbn. apply select_unique.
  - rewrite (handleSituationSelect_run _ _ _ Hel), validateForm_run.
    eexists. split; [reflexivity|]. split; [reflexivity|].
    intros j el'. cbn. apply select_unique.
Qed.

Lemma selection_is_single_witness :
  (∃ st', handleDepthSelect 2 loaded = Ok tt st'
          ∧ form_depth (formState st') = JStr (js "deep")
          ∧ ∀ j el', document st' !! j = Some el' →
                     has_class "depth-option" el' = true →
                     (has_class "selected" el' = true ↔ j = 2%nat))
  ∧ (∃ st', handleSituationSelect 5 loaded = Ok tt st'
            ∧ form_situation (formState st') = JStr (js "commute")
            ∧ ∀ j el', document st' !! j = Some el' →
                       has_class "situation-chip" el' = true →
                       (has_class "selected" el' = true ↔ j = 5%nat)).
Proof.
  split.
  - apply (proj1 selection_is_single 2%nat loaded
             (chip ["depth-option"] "depth" "deep")); vm_compute; reflexivity.
  - apply (proj2 selection_is_single 5%nat loaded
             (chip ["situation-chip"] "situation" "commute")); vm_compute; reflexivity.
Defined.

(** ** Submission *)

Ltac run_with H := run; subst; repeat (progress (rewrite ?H; cbn)).

Lemma latlng_eta (p : LatLng) : mkLatLng (lat p) (lng p) = p.
Proof. by destruct p. Qed.

Lemma filter_same_item_off (item : MapItem) (items : list MapItem) :
  existsb (same_item item) (filter (λ x, same_item item x = false) items) = false.
Proof.
  induction items as [|x items IH]; [done|].
  rewrite filter_cons. destruct (decide (same_item item x = false)) as [E|E]; [|done].
  cbn. by rewrite E, IH.
Qed.

(** What a submission of a draft with a location leaves behind. *)
Lemma handleFormSubmit_run (clock : SubmitClock) (st : State) (loc : LatLng) :
  initialised st →
  form_location (formState st) = Some loc →
  ∃ st', handleFormSubmit clock st = Ok tt st'
    ∧ floodReports st' = floodReports st ++ [submitted clock st loc]
    ∧ floods st'
      = floods st ++ [MarkerLayer (floodMarker (nextStamp st) (submitted clock st loc))]
    ∧ currentMarker st' = None
    ∧ (∀ m, currentMarker st = Some m → off_map m st')
    ∧ selectedLocation st' = None
    ∧ formState st' = mkForm None JNull JNull
    ∧ uploadedPhoto st' = JNull
    ∧ photoUploadHtml st' = PhotoPlaceholder
    ∧ (js "has-image" ∉ photoUploadClasses st')
    ∧ photoInput st' = []
    ∧ locationDesc st' = []
    ∧ eventDate st' = before 84 (toISOString (clock_reset clock))
    ∧ eventTime st' = slice0 5 (toTimeString (clock_reset clock))
    ∧ submitDisabled st' = true.
Proof.
  intros [[mp Hmp] [g Hg]] Hloc.
  unfold handleFormSubmit, addFloodMarker, L_marker, group_addLayer, updateStats,
    showToast, resetForm, updateReportList, map_removeLayer, with_map,
    querySelectorAll_forEach, setDefaultDateTime, floods, off_map.
  expose st. run_with Hg.
  match goal with |- context [match ?c with Some _ => _ | None => _ end] =>
    destruct c as [m0|] end; run_with Hg;
    (eexists; split; [reflexivity|]); cbn; rewrite lookup_insert_eq; cbn;
    repeat split; try reflexivity; try discriminate;
    try (intros Hin; apply elem_of_classList_remove in Hin; tauto).
  intros m [= <-] mp' [= <-]. cbn. apply (filter_same_item_off (MarkerItem m0)).
Qed.

(** C1. A submission on an initialised page whose gate is open returns,
    makes the store one report longer, the new report being at the draft's
    coordinate, and adds to the flood group a marker at that coordinate
    carrying the report. *)
Theorem submit_appends_report (clock : SubmitClock) (st : State) :
  initialised st →
  all_set st →
  ∃ st' loc report m,
    handleFormSubmit clock st = Ok tt st'
    ∧ form_location (formState st) = Some loc
    ∧ floodReports st' = floodReports st ++ [report]
    ∧ length (floodReports st') = S (length (floodReports st))
    ∧ report_location report = loc
    ∧ floods st' = floods st ++ [MarkerLayer m]
    ∧ marker_latlng m = loc
    ∧ reportData m = Some report.
Proof.
  intros Hinit ([loc Hloc] & _).
  destruct (handleFormSubmit_run clock st loc Hinit Hloc)
    as (st' & Hrun & Hreports & Hfloods & _).
  exists st', loc, (submitted clock st loc),
    (floodMarker (nextStamp st) (submitted clock st loc)).
  repeat split; try assumption.
  - rewrite Hreports, length_app. cbn. lia.
  - cbn. apply latlng_eta.
  - cbn. by rewrite !latlng_eta.
Qed.

Lemma submit_appends_report_witness :
  ∃ st' loc report m,
    handleFormSubmit sampleClock (session draft loaded) = Ok tt st'
    ∧ form_location (formState (session draft loaded)) = Some loc
    ∧ floodReports st' = floodReports (session draft loaded) ++ [report]
    ∧ length (floodReports st') = S (length (floodReports (session draft loaded)))
    ∧ report_location report = loc
    ∧ floods st' = floods (session draft loaded) ++ [MarkerLayer m]
    ∧ marker_latlng m = loc
    ∧ reportData m = Some report.
Proof.
  apply (submit_appends_report sampleClock (session draft loaded)).
  - split; vm_compute; eauto.
  - repeat split; vm_compute; eauto; discriminate.
Defined.



(** ** String order *)

Lemma str_lt_irrefl (a : jsstring) : str_lt a a = false.
Proof.
  induction a as [|x a IH]; [done|]. cbn. by rewrite N.ltb_irrefl.
Qed.

Lemma str_lt_asym (a b : jsstring) : str_lt a b = true → str_lt b a = false.
Proof.
  revert b. induction a as [|x a IH]; intros [|y b]; cbn; try done.
  destruct (N.ltb_spec x y) as [Hxy|Hxy], (N.ltb_spec y x) as [Hyx|Hyx];
    try done; try lia. apply IH.
Qed.

Lemma str_lt_connex (a b : jsstring) :
  str_lt a b = false → str_lt b a = false → a = b.
Proof.
  revert b. induction a as [|x a IH]; intros [|y b]; cbn; try done.
  destruct (N.ltb_spec x y) as [Hxy|Hxy], (N.ltb_spec y x) as [Hyx|Hyx];
    try done. intros Hab Hba. f_equal; [lia|]. by apply IH.
Qed.

(** [!(a < b)] is [b <= a]. *)
Lemma str_lt_false (a b : jsstring) : str_lt a b = false ↔ str_le b a.
Proof.
  unfold str_le. split.
  - intros Hab. destruct (str_lt b a) eqn:Hba; [by right|].
    left. symmetry. by apply str_lt_connex.
  - intros [->|Hba]; [apply str_lt_irrefl|by apply str_lt_asym].
Qed.

(** ** The filter *)

(** The loop body's flag is the specification's conjunction. *)
Lemma show_report_passes (depthFilter : jsval) (dateFrom dateTo : jsstring)
    (report : FloodReport) :
  show_report depthFilter dateFrom dateTo report = true
  ↔ passes depthFilter dateFrom dateTo report.
Proof.
  unfold show_report, passes, strict_eq, str_gt.
  rewrite <- !str_lt_false.
  destruct (decide (depthFilter = JStr (js "all"))) as [Hall|Hall],
           (decide (report_depth report = depthFilter)) as [Hd|Hd];
    rewrite ?(bool_decide_eq_true_2 _ Hall), ?(bool_decide_eq_false_2 _ Hall),
            ?(bool_decide_eq_true_2 _ Hd), ?(bool_decide_eq_false_2 _ Hd); cbn;
    destruct dateFrom as [|f dateFrom], dateTo as [|t dateTo]; cbn [str_truthy andb];
    repeat match goal with
           | |- context [str_lt ?a ?b] => destruct (str_lt a b)
           end;
    split; try discriminate; try tauto; intros; repeat split; auto;
    try (right; reflexivity); intuition discriminate.
Qed.

Lemma with_floods_id (g : list Layer) (st : State) :
  layers st !! js "floods" = Some g →
  with_floods g (nextStamp st) st = st.
Proof.
  intros Hg. unfold with_floods. expose st. cbn in *. by rewrite insert_id.
Qed.

Lemma with_floods_twice (a b : list Layer) (n k : nat) (st : State) :
  with_floods a n (with_floods b k st) = with_floods a n st.
Proof. unfold with_floods. cbn. by rewrite insert_insert_eq. Qed.

Lemma addFloodMarker_run (report : FloodReport) (st : State) (g : list Layer) :
  layers st !! js "floods" = Some g →
  addFloodMarker report st =
  Ok tt (with_floods (g ++ [MarkerLayer (floodMarker (nextStamp st) report)])
                     (S (nextStamp st)) st).
Proof.
  intros Hg. unfold addFloodMarker, L_marker, group_addLayer, with_floods.
  expose st. run_with Hg. reflexivity.
Qed.

Lemma floodMarkers_cons (n : nat) (r : FloodReport) (l : list FloodReport) :
  floodMarkers n (r :: l) = MarkerLayer (floodMarker n r) :: floodMarkers (S n) l.
Proof.
  unfold floodMarkers. cbn. rewrite Nat.add_0_r. f_equal.
  apply imap_ext. intros i x _. cbn. do 2 f_equal. lia.
Qed.

(** The loop of [filterReports]: one marker per report that passes, in
    order, after the members already there. *)
Lemma forEach_markers (p : FloodReport → bool) (l : list FloodReport) :
  ∀ (st : State) (g : list Layer),
    layers st !! js "floods" = Some g →
    forEach (λ report, if p report then addFloodMarker report else mret tt) l st
    = Ok tt (with_floods
               (g ++ floodMarkers (nextStamp st) (filter (λ r, p r = true) l))
               (nextStamp st + length (filter (λ r, p r = true) l)) st).
Proof.
  induction l as [|r l IH]; intros st g Hg.
  - cbn. rewrite app_nil_r, Nat.add_0_r. by rewrite (with_floods_id g).
  - cbn [forEach]. rewrite filter_cons. destruct (p r) eqn:Hp.
    + rewrite decide_True by done.
      unfold mbind, M_bind. rewrite (addFloodMarker_run r st g Hg).
      erewrite IH.
      2:{ unfold with_floods. cbn. apply lookup_insert_eq. }
      rewrite with_floods_twice, floodMarkers_cons. cbn.
      rewrite <- app_assoc. cbn. do 2 f_equal. 
      unfold with_floods, nextStamp. cbn. lia.
    + rewrite decide_False by congruence.
      unfold mbind, M_bind, mret, M_ret. by apply IH.
Qed.

Lemma filterReports_run (st : State) (chip : Element) (g : list Layer) :
  active_filter_chip (document st) = Some chip →
  layers st !! js "floods" = Some g →
  filterReports st =
  Ok tt (with_floods
           (floodMarkers (nextStamp st)
              (filter (λ r, show_report (data "depth" chip) (filterDateFrom st)
                                        (filterDateTo st) r = true)
                      (floodReports st)))
           (nextStamp st
            + length (filter (λ r, show_report (data "depth" chip) (filterDateFrom st)
                                               (filterDateTo st) r = true)
                             (floodReports st)))
           st).
Proof.
  intros Hchip Hg. unfold filterReports, group_clearLayers.
  cbv [mbind M_bind mret M_ret read write throw].
  rewrite Hchip, Hg.
  erewrite forEach_markers.
  2:{ unfold layers. cbn. apply lookup_insert_eq. }
  cbn [app]. f_equal. unfold with_floods. expose st. cbn.
  by rewrite insert_insert_eq.
Qed.

Lemma filter_show_passes (depthFilter : jsval) (dateFrom dateTo : jsstring)
    (reports : list FloodReport) :
  filter (λ r, show_report depthFilter dateFrom dateTo r = true) reports
  = filter (passes depthFilter dateFrom dateTo) reports.
Proof.
  induction reports as [|r reports IH]; [done|].
  rewrite !filter_cons, IH.
  destruct (decide (show_report depthFilter dateFrom dateTo r = true)) as [H|H],
           (decide (passes depthFilter dateFrom dateTo r)) as [H'|H'];
    try reflexivity; exfalso; apply show_report_passes in H || apply H;
    try contradiction; by apply show_report_passes.
Qed.

Lemma filter_passes_all (reports : list FloodReport) :
  filter (passes (JStr (js "all")) [] []) reports = reports.
Proof.
  induction reports as [|r reports IH]; [done|].
  rewrite filter_cons, IH. rewrite decide_True; [done|].
  unfold passes. auto.
Qed.

Lemma floods_with_floods (members : list Layer) (n : nat) (st : State) :
  floods (with_floods members n st) = members.
Proof. unfold floods, with_floods. cbn. by rewrite lookup_insert_eq. Qed.

(** C3. Whatever the store and the filter controls hold, [filterReports]
    on a page with a flood group and an active chip returns with the group
    rebuilt: its members are the markers of exactly the stored reports that
    pass the three criteria, one each and in the store's order, and nothing
    of what was there before; with 'all' and both bounds empty that is every
    stored report. *)
Theorem filter_rebuilds_markers (st : State) (chip : Element) :
  is_Some (layers st !! js "floods") →
  active_filter_chip (document st) = Some chip →
  ∃ st',
    filterReports st = Ok tt st'
    ∧ floods st'
      = floodMarkers (nextStamp st)
          (filter (passes (data "depth" chip) (filterDateFrom st) (filterDateTo st))
                  (floodReports st))
    ∧ (data "depth" chip = JStr (js "all") →
       filterDateFrom st = [] →
       filterDateTo st = [] →
       floods st' = floodMarkers (nextStamp st) (floodReports st)).
Proof.
  intros [g Hg] Hchip.
  rewrite (filterReports_run st chip g Hchip Hg).
  eexists. split; [reflexivity|].
  rewrite floods_with_floods, filter_show_passes. split; [reflexivity|].
  intros -> -> ->. by rewrite filter_passes_all.
Qed.

Lemma filter_rebuilds_markers_witness :
  ∃ st',
    filterReports moderateFilter = Ok tt st'
    ∧ floods st'
      = floodMarkers (nextStamp moderateFilter)
          (filter (passes (data "depth" moderateChip)
                          (filterDateFrom moderateFilter) (filterDateTo moderateFilter))
                  (floodReports moderateFilter))
    ∧ (data "depth" moderateChip = JStr (js "all") →
       filterDateFrom moderateFilter = [] →
       filterDateTo moderateFilter = [] →
       floods st' = floodMarkers (nextStamp moderateFilter) (floodReports moderateFilter)).
Proof.
  apply (filter_rebuilds_markers moderateFilter moderateChip).
  - vm_compute. eauto.
  - vm_compute. reflexivity.
Defined.

Lemma demo_severe_passes (now : nat → JsDate) :
  filter (λ r, show_report (JStr (js "severe")) (js "2025-06-14") (js "2025-06-15") r
               = true)
         (demoReports now)
  = match demoReports now !! 3%nat with
    | Some report => [report]
    | None => []
    end.
Proof. vm_compute. reflexivity. Qed.

(** C6. Over a store that holds exactly the five demo reports, the filter
    with depth 'severe', from 2025-06-14, to 2025-06-15 returns with one
    member in the flood group: the marker of the report with id 4, which is
    severe and dated 2025-06-14. *)
Theorem filter_demo_severe (st : State) (chip : Element) (now : nat → JsDate) :
  is_Some (layers st !! js "floods") →
  active_filter_chip (document st) = Some chip →
  data "depth" chip = JStr (js "severe") →
  filterDateFrom st = js "2025-06-14" →
  filterDateTo st = js "2025-06-15" →
  floodReports st = demoReports now →
  ∃ st' report,
    filterReports st = Ok tt st'
    ∧ floods st' = [MarkerLayer (floodMarker (nextStamp st) report)]
    ∧ demoReports now !! 3%nat = Some report
    ∧ report_id report = 4%Z
    ∧ report_depth report = JStr (js "severe")
    ∧ report_date report = js "2025-06-14".
Proof.
  intros [g Hg] Hchip Hdepth Hfrom Hto Hstore.
  rewrite (filterReports_run st chip g Hchip Hg).
  rewrite Hdepth, Hfrom, Hto, Hstore.
  rewrite demo_severe_passes.
  eexists. eexists. split; [reflexivity|].
  rewrite floods_with_floods.
  split; [|split; [reflexivity|split; [reflexivity|split; reflexivity]]].
  unfold floodMarkers. cbn. by rewrite Nat.add_0_r.
Qed.

Lemma filter_demo_severe_witness :
  ∃ st' report,
    filterReports severeFilter = Ok tt st'
    ∧ floods st' = [MarkerLayer (floodMarker (nextStamp severeFilter) report)]
    ∧ demoReports (λ _, sampleNow) !! 3%nat = Some report
    ∧ report_id report = 4%Z
    ∧ report_depth report = JStr (js "severe")
    ∧ report_date report = js "2025-06-14".
Proof.
  apply (filter_demo_severe severeFilter severeChip (λ _, sampleNow));
    vm_compute; eauto.
Defined.

(** [filterReports] either throws before it has written anything, or
    returns having replaced the members of the flood group. *)
Lemma filterReports_outcome (st : State) :
  filterReports st = Throw TypeError st
  ∨ ∃ members n, filterReports st = Ok tt (with_floods members n st).
Proof.
  destruct (active_filter_chip (document st)) as [chip|] eqn:Hchip.
  - destruct (layers st !! js "floods") as [g|] eqn:Hg.
    + right. rewrite (filterReports_run st chip g Hchip Hg). eauto.
    + left. unfold filterReports, group_clearLayers.
      cbv [mbind M_bind mret M_ret read write throw].
      by rewrite Hchip, Hg.
  - left. unfold filterReports. cbv [mbind M_bind mret M_ret read write throw].
    by rewrite Hchip.
Qed.

(** C8. Whatever the store and the filter controls hold, and whether
    [filterReports] returns or throws, it leaves the store as it was, report
    for report, and the list view, the form and the rest of the page, the map
    and every layer group other than the flood group untouched. *)
Theorem filter_keeps_store_and_list (st : State) :
  floodReports (state_of (filterReports st)) = floodReports st
  ∧ reportItems (state_of (filterReports st)) = reportItems st
  ∧ form (state_of (filterReports st)) = form st
  ∧ view (state_of (filterReports st)) = view st
  ∧ leafletMap (state_of (filterReports st)) = leafletMap st
  ∧ currentMarker (state_of (filterReports st)) = currentMarker st
  ∧ formState (state_of (filterReports st)) = formState st
  ∧ ∀ name, name ≠ js "floods" →
            layers (state_of (filterReports st)) !! name = layers st !! name.
Proof.
  destruct (filterReports_outcome st) as [->|(members & n & ->)].
  - by repeat split.
  - unfold with_floods. cbn. repeat split.
    intros name Hne. by rewrite lookup_insert_ne.
Qed.

(** ** Loading the static layers *)

(** One load: it returns whatever its file gives, has asked for its own URL,
    has changed its own group by its own outcome only, and has logged its
    failure if there was one. *)
Lemma loadLayer_run (net : jsstring → FetchResult) (l : StaticLayer)
    (st : State) (g : list Layer) :
  layers st !! js (static_target l) = Some g →
  ∃ st' entry,
    loadLayer net (static_url l) (static_name l) (static_options l) (static_target l) st
    = Ok tt st'
    ∧ requests st' = requests st ++ [js (static_url l)]
    ∧ layers st' = <[js (static_target l) := after_load net l g]> (layers st)
    ∧ console st'
      = console st ++ [LogLoading (js (static_name l)) (js (static_url l)); entry]
    ∧ (∀ error, own_outcome net l = inl error →
                entry = LogFailed (js (static_name l)) (js (static_url l)) error)
    ∧ floodReports st' = floodReports st
    ∧ leafletMap st' = leafletMap st
    ∧ form st' = form st ∧ view st' = view st
    ∧ nextStamp st' = nextStamp st.
Proof.
  intros Hg. unfold loadLayer, fetch, res_json, L_geoJSON, group_addLayer, console_log,
    after_load, own_outcome.
  expose st. run.
  destruct (net (js (static_url l))) as [|status [geo|]]; run;
    try destruct (status_ok status); run;
    try destruct (geoJSON_layer geo (static_options l)); run_with Hg;
    (eexists; eexists; split; [reflexivity|]); cbn;
    rewrite ?(insert_id _ _ _ Hg), <- ?app_assoc; cbn;
    repeat split; intros; congruence.
Qed.

Lemma loadAll_run (net : jsstring → FetchResult) (ls : list StaticLayer) :
  ∀ st : State,
    NoDup ((λ l, js (static_target l)) <$> ls) →
    (∀ l, l ∈ ls → is_Some (layers st !! js (static_target l))) →
    ∃ st',
      loadAll net ls st = Ok tt st'
      ∧ requests st' = requests st ++ ((λ l, js (static_url l)) <$> ls)
      ∧ (∀ l, l ∈ ls →
              layers st' !! js (static_target l)
              = after_load net l <$> layers st !! js (static_target l))
      ∧ (∀ name, name ∉ (λ l, js (static_target l)) <$> ls →
                 layers st' !! name = layers st !! name)
      ∧ (∀ e, e ∈ console st → e ∈ console st')
      ∧ (∀ l, l ∈ ls → failure_logged net l st')
      ∧ floodReports st' = floodReports st
      ∧ leafletMap st' = leafletMap st
      ∧ form st' = form st ∧ view st' = view st
      ∧ nextStamp st' = nextStamp st.
Proof.
  induction ls as [|l ls IH]; intros st Hnodup Hinit.
  - exists st. cbn. rewrite app_nil_r.
    repeat split; try done; intros l Hl; by apply elem_of_nil in Hl.
  - rewrite fmap_cons in Hnodup. apply NoDup_cons in Hnodup as [Hfresh Hnodup].
    destruct (Hinit l) as [g Hg]; [by left|].
    destruct (loadLayer_run net l st g Hg)
      as (st1 & entry & Hrun1 & Hreq1 & Hlay1 & Hcon1 & Hent1 & Hrep1 & Hmap1
          & Hform1 & Hview1 & Hstamp1).
    destruct (IH st1 Hnodup) as (st' & Hrun & Hreq & Hlay & Hother & Hcon & Hlog
                                 & Hrep & Hmap & Hform & Hview & Hstamp).
    { intros l' Hl'. rewrite Hlay1.
      destruct (decide (js (static_target l) = js (static_target l'))) as [->|Hne].
      - rewrite lookup_insert_eq. eauto.
      - rewrite lookup_insert_ne by done. apply Hinit. by right. }
    exists st'. split.
    { unfold loadAll in *. cbn [forEach]. unfold mbind, M_bind at 1.
      by rewrite Hrun1. }
    split. { rewrite Hreq, Hreq1, fmap_cons, <- app_assoc. reflexivity. }
    split.
    { intros l' Hl'. apply elem_of_cons in Hl' as [->|Hl'].
      - rewrite (Hother _ Hfresh), Hlay1, lookup_insert_eq, Hg. reflexivity.
      - rewrite (Hlay _ Hl'), Hlay1. rewrite lookup_insert_ne; [done|].
        intros Heq. apply Hfresh. rewrite Heq.
        apply (list_elem_of_fmap_2 (λ l, js (static_target l))), Hl'. }
    split.
    { intros name Hname. rewrite fmap_cons, not_elem_of_cons in Hname.
      destruct Hname as [Hne Hname].
      rewrite (Hother _ Hname), Hlay1. by rewrite lookup_insert_ne. }
    split.
    { intros e He. apply Hcon. rewrite Hcon1. apply elem_of_app. by left. }
    split.
    { intros l' Hl'. apply elem_of_cons in Hl' as [->|Hl']; [|by apply Hlog].
      unfold failure_logged. destruct (own_outcome net l) as [error|layer] eqn:Hout;
        [|done].
      apply Hcon. rewrite Hcon1, (Hent1 error eq_refl).
      apply elem_of_app. right. apply elem_of_cons. right. by left. }
    repeat split; congruence.
Qed.

Lemma bind_ret_unit (m : M unit) (st : State) : (m ;; mret tt) st = m st.
Proof. unfold mbind, M_bind, mret, M_ret. by destruct (m st) as [[] ?|? ?]. Qed.

Lemma bind_ext {A B : Type} (m : M A) (f g : A → M B) (st : State) :
  (∀ a s, f a s = g a s) → (m ≫= f) st = (m ≫= g) st.
Proof. intros H. unfold mbind, M_bind. by destruct (m st). Qed.

Lemma loadGeoJSONData_loadAll (net : jsstring → FetchResult) (st : State) :
  loadGeoJSONData net st = loadAll net staticLayers st.
Proof.
  unfold loadGeoJSONData, loadAll, staticLayers. cbn [forEach].
  cbn [static_url static_name static_options static_target].
  repeat (apply bind_ext; intros _ ?).
  symmetry. apply bind_ret_unit.
Qed.

Lemma staticLayers_targets_NoDup :
  NoDup ((λ l, js (static_target l)) <$> staticLayers).
Proof. apply (bool_decide_unpack _). by vm_compute. Qed.

(** C4. Whatever each of the six fetches ends in (a rejected promise, a
    status outside 200..299, a body that does not parse, a malformed feature
    collection, or a layer), [loadGeoJSONData] returns; all six files have
    been asked for, in order; each group holds what it held plus the layer
    of its own file when that file gave one, whatever became of the other
    five; and each failure stands in the console under its layer's name. *)
Theorem layer_loads_are_independent (net : jsstring → FetchResult) (st : State) :
  (∀ l, l ∈ staticLayers → is_Some (layers st !! js (static_target l))) →
  ∃ st',
    loadGeoJSONData net st = Ok tt st'
    ∧ requests st' = requests st ++ ((λ l, js (static_url l)) <$> staticLayers)
    ∧ ∀ l, l ∈ staticLayers →
           layers st' !! js (static_target l)
           = after_load net l <$> layers st !! js (static_target l)
           ∧ failure_logged net l st'.
Proof.
  intros Hinit. rewrite loadGeoJSONData_loadAll.
  destruct (loadAll_run net staticLayers st staticLayers_targets_NoDup Hinit)
    as (st' & Hrun & Hreq & Hlay & _ & _ & Hlog & _).
  exists st'. split; [exact Hrun|]. split; [exact Hreq|].
  intros l Hl. split; [by apply Hlay|by apply Hlog].
Qed.

Lemma layer_loads_are_independent_witness :
  ∃ st',
    loadGeoJSONData sampleNet mapReady = Ok tt st'
    ∧ requests st' = requests mapReady ++ ((λ l, js (static_url l)) <$> staticLayers)
    ∧ ∀ l, l ∈ staticLayers →
           layers st' !! js (static_target l)
           = after_load sampleNet l <$> layers mapReady !! js (static_target l)
           ∧ failure_logged sampleNet l st'.
Proof.
  apply (layer_loads_are_independent sampleNet mapReady).
  intros l Hl. unfold staticLayers in Hl.
  repeat (apply elem_of_cons in Hl as [->|Hl]; [vm_compute; eauto|]).
  by apply elem_of_nil in Hl.
Defined.

(** ** The store only grows *)

Lemma keeps_ret {A : Type} (a : A) : keeps_store (mret a).
Proof. by intros st. Qed.

Lemma keeps_throw {A : Type} (e : Exn) : keeps_store (@throw A e).
Proof. by intros st. Qed.

Lemma keeps_read {A : Type} (f : State → A) : keeps_store (read f).
Proof. by intros st. Qed.

Lemma keeps_write (f : State → State) :
  (∀ st, floodReports (f st) = floodReports st) → keeps_store (write f).
Proof. intros H st. apply H. Qed.

Lemma keeps_bind {A B : Type} (m : M A) (f : A → M B) :
  keeps_store m → (∀ a, keeps_store (f a)) → keeps_store (m ≫= f).
Proof.
  intros Hm Hf st. specialize (Hm st). unfold mbind, M_bind.
  destruct (m st) as [a st1|e st1]; cbn in *; [|done].
  by rewrite Hf.
Qed.

Lemma keeps_try_catch (body : M unit) (handler : Exn → M unit) :
  keeps_store body → (∀ e, keeps_store (handler e)) →
  keeps_store (try_catch body handler).
Proof.
  intros Hm Hf st. specialize (Hm st). unfold try_catch.
  destruct (body st) as [a st1|e st1]; cbn in *; [done|].
  by rewrite Hf.
Qed.

Lemma keeps_forEach {A : Type} (f : A → M unit) (l : list A) :
  (∀ a, keeps_store (f a)) → keeps_store (forEach f l).
Proof.
  intros Hf. induction l as [|x l IH]; cbn [forEach].
  - apply keeps_ret.
  - apply keeps_bind; [apply Hf|]. intros _. apply IH.
Qed.

Ltac keeps_step :=
  first
    [ apply keeps_ret
    | apply keeps_throw
    | apply keeps_read
    | apply keeps_write; intros ?; reflexivity
    | apply keeps_bind; [|intros ?]
    | apply keeps_try_catch; [|intros ?]
    | apply keeps_forEach; intros ?
    | match goal with
      | |- keeps_store (match ?x with _ => _ end) => destruct x
      | |- keeps_store (let _ := _ in _) => cbv zeta
      end ].

Ltac keeps := repeat keeps_step.

Lemma keeps_validateForm : keeps_store validateForm.
Proof. unfold validateForm. keeps. Qed.

Lemma keeps_with_map (f : LMap → LMap) : keeps_store (with_map f).
Proof. unfold with_map. keeps. Qed.

Lemma keeps_addFloodMarker (report : FloodReport) : keeps_store (addFloodMarker report).
Proof. unfold addFloodMarker, L_marker, group_addLayer. keeps. Qed.

Lemma keeps_resetForm (now : JsDate) : keeps_store (resetForm now).
Proof.
  unfold resetForm, map_removeLayer, querySelectorAll_forEach, setDefaultDateTime.
  keeps; apply keeps_with_map.
Qed.

Lemma keeps_handleMapClick (latlng : LatLng) : keeps_store (handleMapClick latlng).
Proof.
  unfold handleMapClick, map_removeLayer, map_addLayer, L_marker, updateLocationDisplay.
  keeps; first [apply keeps_with_map | apply keeps_validateForm].
Qed.

Lemma keeps_handleDepthSelect (this : nat) : keeps_store (handleDepthSelect this).
Proof.
  unfold handleDepthSelect, querySelectorAll_forEach, this_element, update_this.
  keeps; apply keeps_validateForm.
Qed.

Lemma keeps_handleSituationSelect (this : nat) : keeps_store (handleSituationSelect this).
Proof.
  unfold handleSituationSelect, querySelectorAll_forEach, this_element, update_this.
  keeps; apply keeps_validateForm.
Qed.

Lemma keeps_handleLayerToggle (this : nat) : keeps_store (handleLayerToggle this).
Proof.
  unfold handleLayerToggle, this_element, update_this, map_addLayer, map_removeLayer.
  keeps; apply keeps_with_map.
Qed.

Lemma keeps_handleModeToggle (this : nat) : keeps_store (handleModeToggle this).
Proof.
  unfold handleModeToggle, querySelectorAll_forEach, this_element, update_this.
  keeps.
Qed.

Lemma keeps_filterReports : keeps_store filterReports.
Proof.
  intros st. by destruct (filterReports_outcome st) as [->|(members & n & ->)].
Qed.

Lemma keeps_handleFilterChipClick (this : nat) : keeps_store (handleFilterChipClick this).
Proof.
  unfold handleFilterChipClick, querySelectorAll_forEach, this_element, update_this.
  keeps; apply keeps_filterReports.
Qed.

Lemma keeps_handlePhotoUpload (file : option jsstring) :
  keeps_store (handlePhotoUpload file).
Proof. unfold handlePhotoUpload. keeps. Qed.

Lemma keeps_handleReportItemClick (this : nat) : keeps_store (handleReportItemClick this).
Proof. unfold handleReportItemClick, map_setView. keeps; apply keeps_with_map. Qed.

Lemma keeps_toastTimeout : keeps_store toastTimeout.
Proof. unfold toastTimeout. keeps. Qed.

Lemma keeps_after_push (clock : SubmitClock) (report : FloodReport) :
  keeps_store (addFloodMarker report;;
               updateStats (clock_stats clock);;
               showToast;;
               resetForm (clock_reset clock);;
               updateReportList).
Proof.
  apply keeps_bind; [apply keeps_addFloodMarker|intros _].
  apply keeps_bind; [unfold updateStats; keeps|intros _].
  apply keeps_bind; [unfold showToast; keeps|intros _].
  apply keeps_bind; [apply keeps_resetForm|intros _].
  unfold updateReportList. keeps.
Qed.

Lemma keeps_clickListener (this : nat) (l : string * (nat → M unit)) :
  l ∈ clickListeners → keeps_store (l.2 this).
Proof.
  unfold clickListeners. intros Hl.
  apply elem_of_cons in Hl as [->|Hl]; [exact (keeps_handleDepthSelect this)|].
  apply elem_of_cons in Hl as [->|Hl]; [exact (keeps_handleSituationSelect this)|].
  apply elem_of_cons in Hl as [->|Hl]; [exact (keeps_handleLayerToggle this)|].
  apply elem_of_cons in Hl as [->|Hl]; [exact (keeps_handleModeToggle this)|].
  apply elem_of_cons in Hl as [->|Hl]; [exact (keeps_handleFilterChipClick this)|].
  by apply elem_of_nil in Hl.
Qed.

Lemma run_listeners_store (ls : list (M unit)) (st : State) :
  (∀ m, m ∈ ls → keeps_store m) →
  floodReports (run_listeners ls st) = floodReports st.
Proof.
  revert st. induction ls as [|m ls IH]; intros st Hls; [done|].
  cbn. unfold run_listeners in IH. rewrite IH.
  - apply Hls. by left.
  - intros m' Hm'. apply Hls. by right.
Qed.

Lemma bind_read {A B : Type} (f : State → A) (k : A → M B) (st : State) :
  (read f ≫= k) st = k (f st) st.
Proof. reflexivity. Qed.

Lemma bind_write {B : Type} (f : State → State) (k : unit → M B) (st : State) :
  (write f ≫= k) st = k tt (f st).
Proof. reflexivity. Qed.

Lemma bind_ret {A B : Type} (a : A) (k : A → M B) (st : State) :
  (mret a ≫= k) st = k a st.
Proof. reflexivity. Qed.

Lemma bind_throw {A B : Type} (e : Exn) (k : A → M B) (st : State) :
  (throw e ≫= k) st = Throw e st.
Proof. reflexivity. Qed.

(** A submission leaves the store as it was, when it throws at the missing
    location, or one report longer, the new id being the [Date.now()] it
    read. *)
Lemma handleFormSubmit_store (clock : SubmitClock) (st : State) :
  floodReports (state_of (handleFormSubmit clock st)) = floodReports st
  ∨ ∃ report, report_id report = clock_id clock
              ∧ floodReports (state_of (handleFormSubmit clock st))
                = floodReports st ++ [report].
Proof.
  unfold handleFormSubmit. rewrite bind_read.
  destruct (form_location (formState st)) as [loc|] eqn:Hloc.
  - right. rewrite bind_ret, !bind_read. cbv zeta. rewrite bind_write.
    rewrite keeps_after_push. eexists. split; [|reflexivity]. reflexivity.
  - left. by rewrite bind_throw.
Qed.

Lemma dispatch_store (ev : Event) (st : State) :
  floodReports (dispatch ev st) = floodReports st
  ∨ ∃ clock report, ev = Submit clock
                    ∧ report_id report = clock_id clock
                    ∧ floodReports (dispatch ev st) = floodReports st ++ [report].
Proof.
  destruct ev as [latlng|this|file|value|value|value|clock|value|value| |this| ];
    cbn [dispatch transition].
  - left. apply keeps_handleMapClick.
  - left. destruct (document st !! this) as [el|]; [|done].
    apply run_listeners_store. intros m Hm.
    apply list_elem_of_fmap in Hm as (l & -> & Hl).
    apply list_elem_of_filter in Hl as [_ Hl].
    by apply keeps_clickListener.
  - left. apply keeps_handlePhotoUpload.
  - left. apply (keeps_bind (write (set_eventDate value))).
    + by apply keeps_write.
    + intros _. apply keeps_validateForm.
  - left. apply (keeps_bind (write (set_eventTime value))).
    + by apply keeps_write.
    + intros _. apply keeps_validateForm.
  - by left.
  - destruct (handleFormSubmit_store clock st) as [H|(report & Hid & H)];
      [by left|right; eauto].
  - left. by rewrite keeps_filterReports.
  - left. by rewrite keeps_filterReports.
  - by left.
  - left. apply keeps_handleReportItemClick.
  - left. apply keeps_toastTimeout.
Qed.

Lemma submit_clocks_cons (ev : Event) (evs : list Event) :
  submit_clocks evs `sublist_of` submit_clocks (ev :: evs).
Proof.
  unfold submit_clocks. destruct ev; cbn; try reflexivity. by apply sublist_cons.
Qed.

(** Over a session the ids already in the store stay as they are, and the
    ids that come after them are [Date.now()] readings of the session's
    submissions, in order. *)
Lemma session_ids (evs : list Event) :
  ∀ st, ∃ k, ids (session evs st) = ids st ++ k
             ∧ k `sublist_of` submit_clocks evs.
Proof.
  induction evs as [|ev evs IH]; intros st.
  - exists []. cbn. by rewrite app_nil_r.
  - destruct (IH (dispatch ev st)) as (k & Hk & Hsub).
    change (session (ev :: evs) st) with (session evs (dispatch ev st)).
    destruct (dispatch_store ev st) as [H|(clock & report & -> & Hid & H)].
    + exists k. split.
      * rewrite Hk. unfold ids. by rewrite H.
      * etrans; [exact Hsub|apply submit_clocks_cons].
    + exists (clock_id clock :: k). split.
      * rewrite Hk. unfold ids. rewrite H, map_app, <- app_assoc. cbn.
        by rewrite Hid.
      * cbn. by apply sublist_skip.
Qed.

(** ** The page as loaded *)

Lemma bind_Ok {A B : Type} (m : M A) (k : A → M B) (st st' : State) (a : A) :
  m st = Ok a st' → (m ≫= k) st = k a st'.
Proof. intros H. unfold mbind, M_bind. by rewrite H. Qed.

Lemma push_demo_run (l : list FloodReport) :
  ∀ st, is_Some (layers st !! js "floods") →
        ∃ st', forEach (λ report,
                          write (λ st, set_floodReports (floodReports st ++ [report]) st);;
                          addFloodMarker report) l st = Ok tt st'
               ∧ floodReports st' = floodReports st ++ l.
Proof.
  induction l as [|r l IH]; intros st [g Hg].
  - exists st. cbn. by rewrite app_nil_r.
  - cbn [forEach].
    destruct (IH (with_floods (g ++ [MarkerLayer (floodMarker (nextStamp st) r)])
                              (S (nextStamp st))
                              (set_floodReports (floodReports st ++ [r]) st)))
      as (st' & Hrun & Hstore).
    { unfold with_floods. cbn. rewrite lookup_insert_eq. eauto. }
    exists st'. split.
    + erewrite bind_Ok; [exact Hrun|].
      rewrite bind_write.
      by rewrite (addFloodMarker_run r _ g).
    + rewrite Hstore. cbn. by rewrite <- app_assoc.
Qed.

Lemma addDemoData_run (now : nat → JsDate) (st : State) :
  is_Some (layers st !! js "floods") →
  ∃ st', addDemoData now st = Ok tt st'
         ∧ floodReports st' = floodReports st ++ demoReports now.
Proof.
  intros Hg. destruct (push_demo_run (demoReports now) st Hg) as (st1 & Hrun & Hstore).
  unfold addDemoData. erewrite bind_Ok by exact Hrun.
  unfold updateStats, updateReportList. eexists. split; [reflexivity|].
  cbn. exact Hstore.
Qed.

Lemma loadGeoJSONData_frame (net : jsstring → FetchResult) (st : State) :
  (∀ l, l ∈ staticLayers → is_Some (layers st !! js (static_target l))) →
  ∃ st', loadGeoJSONData net st = Ok tt st'
         ∧ floodReports st' = floodReports st
         ∧ layers st' !! js "floods" = layers st !! js "floods".
Proof.
  intros Hinit. rewrite loadGeoJSONData_loadAll.
  destruct (loadAll_run net staticLayers st staticLayers_targets_NoDup Hinit)
    as (st' & Hrun & _ & _ & Hother & _ & _ & Hstore & _).
  exists st'. split; [exact Hrun|]. split; [exact Hstore|].
  apply Hother. apply (bool_decide_unpack _). by vm_compute.
Qed.

(** Once the script has loaded, the store holds the five demo reports. *)
Lemma loaded_store (page_form : FormDom) (page_view : ViewDom)
    (net : jsstring → FetchResult) (now : nat → JsDate) :
  floodReports (state_of (onDOMContentLoaded net now (initial page_form page_view)))
  = demoReports (λ k, now (S k)).
Proof.
  unfold onDOMContentLoaded.
  erewrite bind_Ok by (vm_compute; reflexivity).
  erewrite bind_Ok by (vm_compute; reflexivity).
  match goal with |- context [mbind _ (loadGeoJSONData net) ?s] =>
    destruct (loadGeoJSONData_frame net s) as (st2 & Hrun & Hstore & Hfloods)
  end.
  { intros l Hl. unfold staticLayers in Hl.
    repeat (apply elem_of_cons in Hl as [->|Hl]; [vm_compute; eauto|]).
    by apply elem_of_nil in Hl. }
  erewrite bind_Ok by exact Hrun.
  erewrite (bind_Ok (setDefaultDateTime _)) by reflexivity.
  match goal with |- context [addDemoData ?n ?s] =>
    destruct (addDemoData_run n s) as (st3 & Hrun3 & Hstore3)
  end.
  { change (is_Some (layers st2 !! js "floods")).
    rewrite Hfloods. vm_compute. eauto. }
  rewrite Hrun3. cbn [state_of]. rewrite Hstore3.
  change (floodReports st2 ++ demoReports (λ k, now (S k))
          = demoReports (λ k, now (S k))).
  by rewrite Hstore.
Qed.

(** ** Ids *)

Lemma loaded_ids (page_form : FormDom) (page_view : ViewDom)
    (net : jsstring → FetchResult) (now : nat → JsDate) :
  ids (state_of (onDOMContentLoaded net now (initial page_form page_view)))
  = [1; 2; 3; 4; 5]%Z.
Proof. unfold ids. by rewrite loaded_store. Qed.

(** C5, as the script has it.  Over any page, network and clock, and any
    session after loading: the ids in the store are the seeded 1 to 5
    followed by [Date.now()] readings of the session's submissions in the
    order they were taken; so they are pairwise distinct whenever those
    readings are pairwise distinct and none of them is one of 1 to 5. *)
Theorem ids_distinct_on_distinct_clocks (page_form : FormDom) (page_view : ViewDom)
    (net : jsstring → FetchResult) (now : nat → JsDate) (evs : list Event) :
  NoDup (submit_clocks evs) →
  (∀ t, t ∈ submit_clocks evs → t ∉ [1; 2; 3; 4; 5]%Z) →
  NoDup (ids (session evs
                (state_of (onDOMContentLoaded net now (initial page_form page_view)))))
  ∧ ∃ k, ids (session evs
                (state_of (onDOMContentLoaded net now (initial page_form page_view))))
         = [1; 2; 3; 4; 5]%Z ++ k
         ∧ k `sublist_of` submit_clocks evs.
Proof.
  intros Hnodup Hfresh.
  destruct (session_ids evs
              (state_of (onDOMContentLoaded net now (initial page_form page_view))))
    as (k & Hk & Hsub).
  rewrite loaded_ids in Hk. split; [|eauto].
  rewrite Hk. apply NoDup_app. split; [|split].
  - apply (bool_decide_unpack _). by vm_compute.
  - intros x Hx Hxk. apply (Hfresh x); [|exact Hx].
    by apply (sublist_subseteq _ _ Hsub).
  - by eapply sublist_NoDup.
Qed.

Lemma ids_distinct_on_distinct_clocks_witness :
  NoDup (ids (session (draft ++ [Submit sampleClock])
                (state_of (onDOMContentLoaded sampleNet (λ _, sampleNow)
                                              (initial sampleForm sampleView)))))
  ∧ ∃ k, ids (session (draft ++ [Submit sampleClock])
                (state_of (onDOMContentLoaded sampleNet (λ _, sampleNow)
                                              (initial sampleForm sampleView))))
         = [1; 2; 3; 4; 5]%Z ++ k
         ∧ k `sublist_of` submit_clocks (draft ++ [Submit sampleClock]).
Proof.
  apply (ids_distinct_on_distinct_clocks sampleForm sampleView sampleNet
           (λ _, sampleNow) (draft ++ [Submit sampleClock])).
  - apply (bool_decide_unpack _). by vm_compute.
  - intros t Ht. vm_compute in Ht. apply list_elem_of_singleton in Ht as ->.
    apply (bool_decide_unpack _). by vm_compute.
Defined.

(** Two complete drafts submitted while the clock reads the same
    millisecond: both pass the gate, and the two new reports share their
    id. *)
Lemma same_millisecond_ids_collide :
  submitDisabled (session draft loaded) = false
  ∧ submitDisabled (session (draft ++ [Submit sampleClock] ++ draft) loaded) = false
  ∧ ids (session twoSubmissions loaded)
    = [1; 2; 3; 4; 5; 1750000000000; 1750000000000]%Z
  ∧ ¬ NoDup (ids (session twoSubmissions loaded)).
Proof.
  assert (Hids : ids (session twoSubmissions loaded)
                 = [1; 2; 3; 4; 5; 1750000000000; 1750000000000]%Z)
    by (vm_compute; reflexivity).
  split; [vm_compute; reflexivity|].
  split; [vm_compute; reflexivity|].
  split; [exact Hids|].
  rewrite Hids. intros Hnodup.
  do 5 apply NoDup_cons in Hnodup as [_ Hnodup].
  apply NoDup_cons in Hnodup as [Hnotin _].
  apply Hnotin. by left.
Qed.

(** ** Dates as strings *)

Lemma is_digit_spec (c : N) : is_digit c = true ↔ (48 ≤ c ≤ 57)%N.
Proof. unfold is_digit. rewrite andb_true_iff, !N.leb_le. tauto. Qed.

Lemma digit_not_dash (c : N) : is_digit c = true → (c =? 45)%N = false.
Proof. rewrite is_digit_spec. intros H. apply N.eqb_neq. lia. Qed.

Lemma decimal_fold (ds : jsstring) (acc : Z) :
  fold_left (λ acc d, 10 * acc + (Z.of_N d - 48))%Z ds acc
  = (acc * 10 ^ Z.of_nat (length ds) + decimal ds)%Z.
Proof.
  unfold decimal. revert acc. induction ds as [|d ds IH]; intros acc.
  - cbn. lia.
  - cbn [fold_left length]. rewrite IH, (IH (10 * 0 + _)%Z).
    rewrite Nat2Z.inj_succ, Z.pow_succ_r by lia. ring.
Qed.

Lemma decimal_cons (d : N) (ds : jsstring) :
  decimal (d :: ds)
  = ((Z.of_N d - 48) * 10 ^ Z.of_nat (length ds) + decimal ds)%Z.
Proof.
  unfold decimal at 1. cbn [fold_left]. rewrite decimal_fold. ring.
Qed.

Lemma decimal_bound (ds : jsstring) :
  forallb is_digit ds = true → (0 ≤ decimal ds < 10 ^ Z.of_nat (length ds))%Z.
Proof.
  induction ds as [|d ds IH]; [cbn; lia|].
  cbn [forallb]. rewrite andb_true_iff, is_digit_spec. intros [Hd Hds].
  specialize (IH Hds). rewrite decimal_cons. cbn [length].
  rewrite Nat2Z.inj_succ, Z.pow_succ_r by lia. nia.
Qed.

(** On two runs of digits of one length the string order is the order of
    the numbers. *)
Lemma str_lt_digits (a : jsstring) :
  ∀ b, length a = length b →
       forallb is_digit a = true → forallb is_digit b = true →
       str_lt a b = (decimal a <? decimal b)%Z.
Proof.
  induction a as [|x a IH]; intros [|y b] Hlen Ha Hb; try discriminate; [done|].
  cbn [forallb] in Ha, Hb. apply andb_true_iff in Ha as [Hx Ha], Hb as [Hy Hb].
  apply is_digit_spec in Hx, Hy. injection Hlen as Hlen.
  pose proof (decimal_bound a Ha) as Hba. pose proof (decimal_bound b Hb) as Hbb.
  rewrite !decimal_cons, <- Hlen in *. cbn [str_lt].
  destruct (N.ltb_spec x y) as [Hxy|Hxy].
  - symmetry. apply Z.ltb_lt. nia.
  - destruct (N.ltb_spec y x) as [Hyx|Hyx].
    + symmetry. apply Z.ltb_ge. nia.
    + assert (x = y) as -> by lia. rewrite (IH b Hlen Ha Hb).
      destruct (Z.ltb_spec (decimal a) (decimal b));
        symmetry; [apply Z.ltb_lt|apply Z.ltb_ge]; lia.
Qed.

(** On a common-length prefix the string order is decided by the prefixes,
    and by the rest when they are equal. *)
Lemma str_lt_app (u : jsstring) :
  ∀ u' r r', length u = length u' →
             str_lt (u ++ r) (u' ++ r')
             = if str_lt u u' then true
               else if str_lt u' u then false
               else str_lt r r'.
Proof.
  induction u as [|x u IH]; intros [|y u'] r r' Hlen; try discriminate.
  - cbn. by destruct r'.
  - injection Hlen as Hlen. cbn.
    destruct (N.ltb_spec x y), (N.ltb_spec y x); try done; try lia.
    by apply IH.
Qed.

Lemma zero_padded_shape (s : jsstring) :
  zero_padded_iso s = true →
  ∃ y m d, s = y ++ 45%N :: m ++ 45%N :: d
           ∧ length y = 4%nat ∧ length m = 2%nat ∧ length d = 2%nat
           ∧ forallb is_digit y = true
           ∧ forallb is_digit m = true
           ∧ forallb is_digit d = true.
Proof.
  unfold zero_padded_iso.
  destruct s as [|y1 [|y2 [|y3 [|y4 [|h1 [|m1 [|m2 [|h2 [|d1 [|d2 [|? ?]]]]]]]]]]];
    try discriminate.
  cbn [forallb]. rewrite !andb_true_iff, !N.eqb_eq.
  intros [[(Hy1 & Hy2 & Hy3 & Hy4 & Hm1 & Hm2 & Hd1 & Hd2 & _) ->] ->].
  exists [y1; y2; y3; y4], [m1; m2], [d1; d2]. cbn.
  rewrite Hy1, Hy2, Hy3, Hy4, Hm1, Hm2, Hd1, Hd2. by repeat split.
Qed.

Lemma split_on_digits (ds rest : jsstring) :
  forallb is_digit ds = true →
  split_on 45 (ds ++ 45%N :: rest) = ds :: split_on 45 rest.
Proof.
  induction ds as [|d ds IH]; [done|].
  cbn [forallb]. rewrite andb_true_iff. intros [Hd Hds].
  cbn. by rewrite (digit_not_dash d Hd), (IH Hds).
Qed.

Lemma split_on_last (ds : jsstring) :
  forallb is_digit ds = true → split_on 45 ds = [ds].
Proof.
  induction ds as [|d ds IH]; [done|].
  cbn [forallb]. rewrite andb_true_iff. intros [Hd Hds].
  cbn. by rewrite (digit_not_dash d Hd), (IH Hds).
Qed.

Lemma parse_field_digits (ds : jsstring) :
  ds ≠ [] → forallb is_digit ds = true → parse_field ds = Some (decimal ds).
Proof.
  intros Hne Hds. unfold parse_field. rewrite Hds.
  by destruct ds.
Qed.

Lemma parse_date_padded (y m d : jsstring) :
  length y = 4%nat → length m = 2%nat → length d = 2%nat →
  forallb is_digit y = true → forallb is_digit m = true → forallb is_digit d = true →
  parse_date (y ++ 45%N :: m ++ 45%N :: d) = Some (decimal y, decimal m, decimal d).
Proof.
  intros Hly Hlm Hld Hy Hm Hd. unfold parse_date.
  rewrite (split_on_digits y _ Hy), (split_on_digits m _ Hm), (split_on_last d Hd).
  rewrite !parse_field_digits; try done; by intros ->.
Qed.

Lemma str_lt_padded (y m d y' m' d' : jsstring) :
  length y = 4%nat → length m = 2%nat → length d = 2%nat →
  length y' = 4%nat → length m' = 2%nat → length d' = 2%nat →
  forallb is_digit y = true → forallb is_digit m = true → forallb is_digit d = true →
  forallb is_digit y' = true → forallb is_digit m' = true → forallb is_digit d' = true →
  str_lt (y ++ 45%N :: m ++ 45%N :: d) (y' ++ 45%N :: m' ++ 45%N :: d')
  = earlier (decimal y, decimal m, decimal d) (decimal y', decimal m', decimal d').
Proof.
  intros Hly Hlm Hld Hly' Hlm' Hld' Hy Hm Hd Hy' Hm' Hd'.
  rewrite str_lt_app by congruence. cbn [str_lt]. rewrite N.ltb_irrefl.
  rewrite str_lt_app by congruence. cbn [str_lt]. rewrite N.ltb_irrefl.
  rewrite (str_lt_digits y y'), (str_lt_digits y' y),
          (str_lt_digits m m'), (str_lt_digits m' m),
          (str_lt_digits d d') by congruence.
  unfold earlier.
  destruct (Z.ltb_spec (decimal y) (decimal y')), (Z.ltb_spec (decimal y') (decimal y)),
           (Z.eqb_spec (decimal y) (decimal y')),
           (Z.ltb_spec (decimal m) (decimal m')), (Z.ltb_spec (decimal m') (decimal m)),
           (Z.eqb_spec (decimal m) (decimal m'));
    cbn; try reflexivity; lia.
Qed.

(** On two zero-padded dates both string tests of the filter are the
    calendar's. *)
Lemma zero_padded_chronological (a b : jsstring) :
  zero_padded_iso a = true → zero_padded_iso b = true → chronological a b.
Proof.
  intros Ha Hb.
  apply zero_padded_shape in Ha as (y & m & d & -> & Hly & Hlm & Hld & Hy & Hm & Hd).
  apply zero_padded_shape in Hb as (y' & m' & d' & -> & Hly' & Hlm' & Hld' & Hy' & Hm' & Hd').
  exists (decimal y, decimal m, decimal d), (decimal y', decimal m', decimal d').
  rewrite !parse_date_padded by assumption. unfold str_gt.
  rewrite !str_lt_padded by assumption. done.
Qed.

(** C10, as the script has it.  The two date tests of the filter are the
    order of strings by code units, which decides every pair of strings one
    way; on zero-padded YYYY-MM-DD dates both tests are the calendar's, so a
    report passes the date part of the filter exactly when its date is not
    earlier than the lower bound and not later than the upper one; on dates
    that are not zero-padded the tests can differ from the calendar's. *)
Theorem date_tests_on_zero_padded :
  (∀ a b : jsstring,
     (str_lt a b = true ∨ a = b ∨ str_gt a b = true)
     ∧ (str_lt a b = true → a ≠ b ∧ str_gt a b = false))
  ∧ (∀ a b : jsstring,
       zero_padded_iso a = true → zero_padded_iso b = true → chronological a b)
  ∧ (∀ (dateFrom dateTo : jsstring) (report : FloodReport),
       zero_padded_iso dateFrom = true →
       zero_padded_iso dateTo = true →
       zero_padded_iso (report_date report) = true →
       ∃ f t d,
         parse_date dateFrom = Some f ∧ parse_date dateTo = Some t
         ∧ parse_date (report_date report) = Some d
         ∧ show_report (JStr (js "all")) dateFrom dateTo report
           = negb (earlier d f) && negb (earlier t d))
  ∧ (∃ da db,
       parse_date (js "2025-6-15") = Some da ∧ parse_date (js "2025-10-01") = Some db
       ∧ earlier da db = true
       ∧ str_lt (js "2025-6-15") (js "2025-10-01") = false).
Proof.
  split; [|split; [exact zero_padded_chronological|split]].
  - intros a b. split.
    + destruct (str_lt a b) eqn:Hab; [by left|].
      destruct (str_lt b a) eqn:Hba; [by right; right|].
      right. left. by apply str_lt_connex.
    + intros Hab. split; [|by apply str_lt_asym].
      intros ->. by rewrite str_lt_irrefl in Hab.
  - intros dateFrom dateTo report Hf Ht Hd.
    destruct (zero_padded_chronological _ _ Hd Hf) as (d & f & Hpd & Hpf & Hlt & _).
    destruct (zero_padded_chronological _ _ Hd Ht) as (d' & t & Hpd' & Hpt & _ & Hgt).
    assert (d' = d) as -> by congruence.
    exists f, t, d. repeat split; try assumption.
    unfold show_report, strict_eq. rewrite bool_decide_eq_true_2 by done. cbn [negb andb].
    rewrite Hlt, Hgt.
    assert (str_truthy dateFrom = true) as ->.
    { destruct dateFrom; [discriminate|done]. }
    assert (str_truthy dateTo = true) as ->.
    { destruct dateTo; [discriminate|done]. }
    by destruct (earlier d f), (earlier t d).
  - eexists. eexists. repeat split; vm_compute; reflexivity.
Qed.

Lemma date_tests_on_zero_padded_witness :
  chronological (js "2025-06-14") (js "2025-06-15")
  ∧ ∃ f t d,
      parse_date (js "2025-06-14") = Some f ∧ parse_date (js "2025-06-15") = Some t
      ∧ parse_date (report_date (mkReport 4 (mkLatLng 30.2689 120.1234)
                                          (js "2025-06-14") (js "07:20")
                                          (JStr (js "severe")) (JStr (js "commute"))
                                          [] JNull []))
        = Some d
      ∧ show_report (JStr (js "all")) (js "2025-06-14") (js "2025-06-15")
                    (mkReport 4 (mkLatLng 30.2689 120.1234)
                              (js "2025-06-14") (js "07:20")
                              (JStr (js "severe")) (JStr (js "commute"))
                              [] JNull [])
        = negb (earlier d f) && negb (earlier t d).
Proof.
  split.
  - apply (proj1 (proj2 date_tests_on_zero_padded)); vm_compute; reflexivity.
  - apply (proj1 (proj2 (proj2 date_tests_on_zero_padded))); vm_compute; reflexivity.
Defined.

(** Dates that are not zero-padded on which the two string tests are the
    calendar's all the same: 2025-6-15 against 2025-06-14. *)
Lemma unpadded_dates_can_agree :
  chronological (js "2025-6-15") (js "2025-06-14")
  ∧ zero_padded_iso (js "2025-6-15") = false
  ∧ ¬ (∀ a b : jsstring,
         chronological a b ↔ zero_padded_iso a = true ∧ zero_padded_iso b = true).
Proof.
  assert (H : chronological (js "2025-6-15") (js "2025-06-14")).
  { eexists. eexists. repeat split; vm_compute; reflexivity. }
  split; [exact H|]. split; [vm_compute; reflexivity|].
  intros Hiff. apply Hiff in H as [Hpad _]. vm_compute in Hpad. discriminate.
Qed.

(* ================================================================== *)
(** * Further properties of the script *)

(** ** The store over a session *)

(** X1. Over any session, from any state, the store keeps every report it
    held, unchanged and in place: what a session does to it is to append. *)
Theorem store_only_grows (evs : list Event) (st : State) :
  floodReports st `prefix_of` floodReports (session evs st).
Proof.
  revert st. induction evs as [|ev evs IH]; intros st; [done|].
  change (session (ev :: evs) st) with (session evs (dispatch ev st)).
  etrans; [|apply IH].
  destruct (dispatch_store ev st) as [->|(clock & report & _ & _ & ->)]; [done|].
  by apply prefix_app_r.
Qed.

(** ** What a computation leaves alone *)

Lemma preserves_ret {A B : Type} (obs : State → B) (a : A) : preserves obs (mret a).
Proof. by intros st. Qed.

Lemma preserves_throw {A B : Type} (obs : State → B) (e : Exn) :
  preserves obs (@throw A e).
Proof. by intros st. Qed.

Lemma preserves_read {A B : Type} (obs : State → B) (f : State → A) :
  preserves obs (read f).
Proof. by intros st. Qed.

Lemma preserves_write {B : Type} (obs : State → B) (f : State → State) :
  (∀ st, obs (f st) = obs st) → preserves obs (write f).
Proof. intros H st. apply H. Qed.

Lemma preserves_bind {A B C : Type} (obs : State → C) (m : M A) (f : A → M B) :
  preserves obs m → (∀ a, preserves obs (f a)) → preserves obs (m ≫= f).
Proof.
  intros Hm Hf st. specialize (Hm st). unfold mbind, M_bind.
  destruct (m st) as [a st1|e st1]; cbn in *; [|done].
  by rewrite Hf.
Qed.

Lemma preserves_try_catch {C : Type} (obs : State → C)
    (body : M unit) (handler : Exn → M unit) :
  preserves obs body → (∀ e, preserves obs (handler e)) →
  preserves obs (try_catch body handler).
Proof.
  intros Hm Hf st. specialize (Hm st). unfold try_catch.
  destruct (body st) as [a st1|e st1]; cbn in *; [done|].
  by rewrite Hf.
Qed.

Lemma preserves_forEach {A C : Type} (obs : State → C) (f : A → M unit) (l : list A) :
  (∀ a, preserves obs (f a)) → preserves obs (forEach f l).
Proof.
  intros Hf. induction l as [|x l IH]; cbn [forEach].
  - apply preserves_ret.
  - apply preserves_bind; [apply Hf|]. intros _. apply IH.
Qed.

Ltac preserves_step :=
  lazymatch goal with
  | |- preserves _ (with_map _) => fail
  | |- preserves _ filterReports => fail
  | |- preserves _ validateForm => fail
  | _ =>
    first
      [ apply preserves_ret
      | apply preserves_throw
      | apply preserves_read
      | apply preserves_write; intros ?; reflexivity
      | apply preserves_bind; [|intros ?]
      | apply preserves_try_catch; [|intros ?]
      | apply preserves_forEach; intros ?
      | match goal with
        | |- preserves _ (match ?x with _ => _ end) => destruct x
        | |- preserves _ (let _ := _ in _) => cbv zeta
        end ]
  end.

Ltac preserves := repeat preserves_step.

(** ** Invariants through handlers *)

Section Maintains.
Context {C : Type} (obs : State → C) (P : State → Prop).
Hypothesis respects : ∀ st st', obs st' = obs st → P st → P st'.

Lemma maintains_preserves {A : Type} (m : M A) : preserves obs m → maintains P m.
Proof. intros Hm st HP. by apply (respects st), HP. Qed.

Lemma maintains_bind {A B : Type} (m : M A) (f : A → M B) :
  maintains P m → (∀ a, maintains P (f a)) → maintains P (m ≫= f).
Proof.
  intros Hm Hf st HP. specialize (Hm st HP). unfold mbind, M_bind.
  destruct (m st) as [a st1|e st1]; cbn in *; [|done].
  by apply Hf.
Qed.

Lemma maintains_listeners (ls : list (M unit)) (st : State) :
  (∀ m, m ∈ ls → maintains P m) → P st → P (run_listeners ls st).
Proof.
  revert st. induction ls as [|m ls IH]; intros st Hls HP; [done|].
  cbn. apply IH.
  - intros m' Hm'. apply Hls. by right.
  - apply Hls; [by left|done].
Qed.
End Maintains.

Lemma session_invariant (P : State → Prop) :
  (∀ ev st, P st → P (dispatch ev st)) →
  ∀ evs st, P st → P (session evs st).
Proof.
  intros Hstep evs. induction evs as [|ev evs IH]; intros st HP; [done|].
  change (session (ev :: evs) st) with (session evs (dispatch ev st)).
  by apply IH, Hstep.
Qed.

Lemma preserves_with_map {C : Type} (obs : State → C) (f : LMap → LMap) :
  (∀ st mp, leafletMap st = Some mp → obs (set_leafletMap (Some (f mp)) st) = obs st) →
  preserves obs (with_map f).
Proof.
  intros H st. unfold with_map. rewrite bind_read.
  destruct (leafletMap st) as [mp|] eqn:Hmp; [|done]. by apply H.
Qed.

Lemma temp_markers_group_added (name : jsstring) (mp : LMap) :
  temp_markers
    (if existsb (same_item (GroupItem name)) (map_items mp) then mp
     else mkMap (map_center mp) (map_zoom mp) (map_items mp ++ [GroupItem name]))
  = temp_markers mp.
Proof.
  destruct (existsb _ _); [done|].
  unfold temp_markers. cbn. by rewrite omap_app, app_nil_r.
Qed.

Lemma temp_markers_group_removed (name : jsstring) (mp : LMap) :
  temp_markers
    (mkMap (map_center mp) (map_zoom mp)
           (filter (λ x, same_item (GroupItem name) x = false) (map_items mp)))
  = temp_markers mp.
Proof.
  unfold temp_markers. cbn. induction (map_items mp) as [|x items IH]; [done|].
  rewrite filter_cons. destruct x as [url|name'|m]; cbn.
  - rewrite decide_True by done. by cbn.
  - destruct (decide (bool_decide (name = name') = false)); by cbn.
  - rewrite decide_True by done. cbn. by rewrite IH.
Qed.

Lemma page_obs_map (st : State) (mp mp' : LMap) :
  leafletMap st = Some mp → temp_markers mp' = temp_markers mp →
  page_obs (set_leafletMap (Some mp') st) = page_obs st.
Proof. intros Hmp Ht. unfold page_obs. cbn. by rewrite Hmp, Ht. Qed.

Lemma sync_obs_map (st : State) (mp mp' : LMap) :
  leafletMap st = Some mp → sync_obs (set_leafletMap (Some mp') st) = sync_obs st.
Proof. intros Hmp. unfold sync_obs. cbn. by rewrite Hmp. Qed.

Lemma page_obs_validateForm : preserves page_obs validateForm.
Proof. intros st. by rewrite validateForm_run. Qed.

Lemma page_obs_handleDepthSelect (this : nat) : preserves page_obs (handleDepthSelect this).
Proof.
  unfold handleDepthSelect, querySelectorAll_forEach, this_element, update_this.
  preserves; apply page_obs_validateForm.
Qed.

Lemma page_obs_handleSituationSelect (this : nat) :
  preserves page_obs (handleSituationSelect this).
Proof.
  unfold handleSituationSelect, querySelectorAll_forEach, this_element, update_this.
  preserves; apply page_obs_validateForm.
Qed.

Lemma page_obs_handleLayerToggle (this : nat) : preserves page_obs (handleLayerToggle this).
Proof.
  unfold handleLayerToggle, this_element, update_this, map_addLayer, map_removeLayer.
  preserves; apply preserves_with_map; intros st mp Hmp;
    apply (page_obs_map st mp _ Hmp);
    [apply temp_markers_group_added|apply temp_markers_group_removed].
Qed.

Lemma page_obs_handleModeToggle (this : nat) : preserves page_obs (handleModeToggle this).
Proof.
  unfold handleModeToggle, querySelectorAll_forEach, this_element, update_this.
  preserves.
Qed.

Lemma page_obs_handlePhotoUpload (file : option jsstring) :
  preserves page_obs (handlePhotoUpload file).
Proof. unfold handlePhotoUpload. preserves. Qed.

Lemma page_obs_handleReportItemClick (this : nat) :
  preserves page_obs (handleReportItemClick this).
Proof.
  unfold handleReportItemClick, map_setView. preserves.
  apply preserves_with_map. intros st mp Hmp. by apply (page_obs_map st mp).
Qed.

Lemma page_obs_toastTimeout : preserves page_obs toastTimeout.
Proof. unfold toastTimeout. preserves. Qed.

(** ** The temporary marker *)

Lemma temp_markers_marker_removed (m : Marker) (mp : LMap) :
  temp_markers
    (mkMap (map_center mp) (map_zoom mp)
           (filter (λ x, same_item (MarkerItem m) x = false) (map_items mp)))
  = filter (λ m', stamp m ≠ stamp m') (temp_markers mp).
Proof.
  unfold temp_markers. cbn. induction (map_items mp) as [|x items IH]; [done|].
  rewrite filter_cons. destruct x as [url|name'|m']; cbn.
  - rewrite decide_True by done. by cbn.
  - rewrite decide_True by done. by cbn.
  - destruct (decide (stamp m = stamp m')) as [E|E];
      [rewrite bool_decide_eq_true_2 by done|rewrite bool_decide_eq_false_2 by done];
      repeat case_decide; try done; cbn; by rewrite IH.
Qed.

Lemma temp_markers_none (m : Marker) (mp : LMap) :
  temp_markers mp = [] → existsb (same_item (MarkerItem m)) (map_items mp) = false.
Proof.
  unfold temp_markers. induction (map_items mp) as [|x items IH]; [done|].
  destruct x; cbn; try done. 
Qed.

Lemma temp_markers_marker_added (new : Marker) (mp : LMap) :
  temp_markers mp = [] →
  temp_markers
    (if existsb (same_item (MarkerItem new)) (map_items mp) then mp
     else mkMap (map_center mp) (map_zoom mp) (map_items mp ++ [MarkerItem new]))
  = [new].
Proof.
  intros H. rewrite (temp_markers_none new mp H).
  unfold temp_markers in *. cbn. by rewrite omap_app, H.
Qed.

Lemma temp_markers_only_removed (m : Marker) (mp : LMap) :
  temp_markers mp = [m] →
  temp_markers
    (mkMap (map_center mp) (map_zoom mp)
           (filter (λ x, same_item (MarkerItem m) x = false) (map_items mp)))
  = [].
Proof.
  intros H. rewrite temp_markers_marker_removed, H.
  rewrite filter_cons, decide_False by tauto. done.
Qed.

Lemma handleMapClick_marker (latlng : LatLng) :
  maintains marker_follows_draft (handleMapClick latlng).
Proof.
  intros st (Hloc & Hsel & Hmap).
  unfold handleMapClick, map_removeLayer, map_addLayer, with_map, L_marker,
    updateLocationDisplay, marker_follows_draft in *.
  expose st. run. subst.
  destruct vars_currentMarker0 as [m|], vars_leafletMap0 as [mp|]; run;
    rewrite ?validateForm_run; cbn.
  all: repeat split; try done; intros mp0 [= <-].
  - apply (temp_markers_marker_added _
             (mkMap (map_center mp) (map_zoom mp)
                    (filter (λ x, same_item (MarkerItem m) x = false) (map_items mp)))).
    apply temp_markers_only_removed. by apply Hmap.
  - apply temp_markers_marker_added. by apply Hmap.
Qed.

Lemma resetForm_marker (now : JsDate) :
  maintains marker_follows_draft (resetForm now).
Proof.
  intros st (Hloc & Hsel & Hmap).
  unfold resetForm, map_removeLayer, with_map, querySelectorAll_forEach,
    setDefaultDateTime, marker_follows_draft in *.
  expose st. run. subst.
  destruct vars_currentMarker0 as [m|], vars_leafletMap0 as [mp|]; run.
  all: repeat split; try done; intros mp0 [= <-].
  apply (temp_markers_only_removed m mp). by apply Hmap.
Qed.

Lemma marker_respects (st st' : State) :
  marker_obs st' = marker_obs st → marker_follows_draft st → marker_follows_draft st'.
Proof.
  unfold marker_obs, marker_follows_draft.
  intros [= Hm Hc Hs Hl] (Hloc & Hsel & Hmap). rewrite Hc, Hs, Hl.
  repeat split; try done.
  intros mp Hmp. rewrite Hmp in Hm. cbn in Hm.
  destruct (leafletMap st) as [mp0|]; [|discriminate].
  injection Hm as ->. by apply Hmap.
Qed.

Lemma marker_obs_of_page {A : Type} (m : M A) :
  preserves page_obs m → preserves marker_obs m.
Proof.
  intros H st. specialize (H st). unfold page_obs, marker_obs in *.
  injection H as -> -> -> ->. reflexivity.
Qed.

Lemma marker_obs_filterReports : preserves marker_obs filterReports.
Proof.
  intros st. by destruct (filterReports_outcome st) as [->|(members & n & ->)].
Qed.

Lemma marker_obs_handleFilterChipClick (this : nat) :
  preserves marker_obs (handleFilterChipClick this).
Proof.
  unfold handleFilterChipClick, querySelectorAll_forEach, this_element, update_this.
  preserves; apply marker_obs_filterReports.
Qed.

Lemma marker_obs_addFloodMarker (report : FloodReport) :
  preserves marker_obs (addFloodMarker report).
Proof. unfold addFloodMarker, L_marker, group_addLayer. preserves. Qed.

Lemma handleFormSubmit_marker (clock : SubmitClock) :
  maintains marker_follows_draft (handleFormSubmit clock).
Proof.
  unfold handleFormSubmit.
  repeat match goal with
         | |- maintains _ (resetForm _) => apply resetForm_marker
         | |- maintains _ (addFloodMarker _) =>
             apply (maintains_preserves marker_obs _ marker_respects),
                   marker_obs_addFloodMarker
         | |- maintains _ (_ ≫= _) =>
             apply (maintains_bind marker_follows_draft); [|intros ?]
         | |- maintains _ (let _ := _ in _) => cbv zeta
         | |- maintains _ _ =>
             apply (maintains_preserves marker_obs _ marker_respects);
             unfold updateStats, showToast, updateReportList; solve [preserves]
         end.
Qed.

Lemma dispatch_marker (ev : Event) (st : State) :
  marker_follows_draft st → marker_follows_draft (dispatch ev st).
Proof.
  intros HP.
  destruct ev as [latlng|this|file|value|value|value|clock|value|value| |this| ];
    cbn [dispatch transition].
  - by apply handleMapClick_marker.
  - destruct (document st !! this) as [el|]; [|done].
    apply (maintains_listeners marker_follows_draft); [|done].
    intros m Hm. apply list_elem_of_fmap in Hm as (l & -> & Hl).
    apply list_elem_of_filter in Hl as [_ Hl].
    apply (maintains_preserves marker_obs _ marker_respects).
    unfold clickListeners in Hl.
    apply elem_of_cons in Hl as [->|Hl];
      [exact (marker_obs_of_page _ (page_obs_handleDepthSelect this))|].
    apply elem_of_cons in Hl as [->|Hl];
      [exact (marker_obs_of_page _ (page_obs_handleSituationSelect this))|].
    apply elem_of_cons in Hl as [->|Hl];
      [exact (marker_obs_of_page _ (page_obs_handleLayerToggle this))|].
    apply elem_of_cons in Hl as [->|Hl];
      [exact (marker_obs_of_page _ (page_obs_handleModeToggle this))|].
    apply elem_of_cons in Hl as [->|Hl];
      [exact (marker_obs_handleFilterChipClick this)|].
    by apply elem_of_nil in Hl.
  - apply (maintains_preserves marker_obs _ marker_respects); [|done].
    apply marker_obs_of_page, page_obs_handlePhotoUpload.
  - apply (maintains_preserves marker_obs _ marker_respects); [|done].
    apply (preserves_bind _ (write (set_eventDate value)));
      [by apply preserves_write|intros _].
    apply marker_obs_of_page, page_obs_validateForm.
  - apply (maintains_preserves marker_obs _ marker_respects); [|done].
    apply (preserves_bind _ (write (set_eventTime value)));
      [by apply preserves_write|intros _].
    apply marker_obs_of_page, page_obs_validateForm.
  - by apply (marker_respects st).
  - by apply handleFormSubmit_marker.
  - apply (marker_respects st); [|done]. by rewrite marker_obs_filterReports.
  - apply (marker_respects st); [|done]. by rewrite marker_obs_filterReports.
  - by apply (marker_respects st).
  - apply (maintains_preserves marker_obs _ marker_respects); [|done].
    apply marker_obs_of_page, page_obs_handleReportItemClick.
  - apply (maintains_preserves marker_obs _ marker_respects); [|done].
    apply marker_obs_of_page, page_obs_toastTimeout.
Qed.

Lemma marker_obs_loadGeoJSONData (net : jsstring → FetchResult) :
  preserves marker_obs (loadGeoJSONData net).
Proof.
  unfold loadGeoJSONData, loadLayer, fetch, res_json, L_geoJSON, group_addLayer,
    console_log.
  preserves.
Qed.

Lemma marker_obs_addDemoData (now : nat → JsDate) :
  preserves marker_obs (addDemoData now).
Proof.
  unfold addDemoData, updateStats, updateReportList.
  preserves; apply marker_obs_addFloodMarker.
Qed.

Lemma loaded_marker (page_form : FormDom) (page_view : ViewDom)
    (net : jsstring → FetchResult) (now : nat → JsDate) :
  marker_follows_draft
    (state_of (onDOMContentLoaded net now (initial page_form page_view))).
Proof.
  unfold onDOMContentLoaded.
  erewrite bind_Ok by (vm_compute; reflexivity).
  erewrite bind_Ok by (vm_compute; reflexivity).
  apply (maintains_preserves marker_obs _ marker_respects).
  - apply preserves_bind; [apply marker_obs_loadGeoJSONData|intros _].
    apply preserves_bind; [unfold setDefaultDateTime; preserves|intros _].
    apply marker_obs_addDemoData.
  - unfold marker_follows_draft. cbn. repeat split.
    intros mp [= <-]. vm_compute. reflexivity.
Qed.

(** X2. On every page, network and clock, and after every session: the
    draft's location is the position of the temporary marker (both absent
    together), [selectedLocation] is the draft's location, and the only
    marker drawn on the map itself is the temporary one, so there is never
    more than one. *)
Theorem draft_location_follows_marker (page_form : FormDom) (page_view : ViewDom)
    (net : jsstring → FetchResult) (now : nat → JsDate) (evs : list Event) :
  marker_follows_draft
    (session evs (state_of (onDOMContentLoaded net now (initial page_form page_view)))).
Proof.
  apply (session_invariant marker_follows_draft dispatch_marker), loaded_marker.
Qed.

(** ** The list view and the total *)


Lemma sync_obs_of_page {A : Type} (m : M A) :
  preserves page_obs m → preserves sync_obs m.
Proof.
  intros H st. specialize (H st). unfold page_obs, sync_obs in *.
  injection H as Hm _ _ _ -> -> -> ->. do 4 f_equal.
  destruct (leafletMap (state_of (m st))), (leafletMap st); done.
Qed.

Lemma sync_obs_handleMapClick (latlng : LatLng) :
  preserves sync_obs (handleMapClick latlng).
Proof.
  unfold handleMapClick, map_removeLayer, map_addLayer, L_marker, updateLocationDisplay.
  preserves;
    first [ apply preserves_with_map; intros st mp Hmp; by apply (sync_obs_map st mp)
          | apply sync_obs_of_page, page_obs_validateForm ].
Qed.






(** The loop of [addDemoData]: every report in the store and its marker in
    the flood group, in order. *)
Lemma push_markers_run (l : list FloodReport) :
  ∀ (st : State) (g : list Layer),
    layers st !! js "floods" = Some g →
    forEach (λ report,
               write (λ st, set_floodReports (floodReports st ++ [report]) st);;
               addFloodMarker report) l st
    = Ok tt (with_floods (g ++ floodMarkers (nextStamp st) l)
                         (nextStamp st + length l)
                         (set_floodReports (floodReports st ++ l) st)).
Proof.
  induction l as [|r l IH]; intros st g Hg.
  - cbn. rewrite !app_nil_r, Nat.add_0_r. f_equal.
    unfold with_floods. expose st. cbn in *. by rewrite insert_id.
  - cbn [forEach].
    erewrite bind_Ok.
    2:{ rewrite bind_write. by apply (addFloodMarker_run r _ g). }
    erewrite IH.
    2:{ unfold with_floods. cbn. apply lookup_insert_eq. }
    rewrite floodMarkers_cons. f_equal.
    unfold with_floods. expose st. cbn.
    rewrite insert_insert_eq, <- !app_assoc, ?Nat.add_succ_r. reflexivity.
Qed.

Lemma addDemoData_sync (now : nat → JsDate) (st : State) :
  initialised st →
  ∃ st', addDemoData now st = Ok tt st'
         ∧ in_sync st'
         ∧ floodReports st' = floodReports st ++ demoReports now
         ∧ floods st' = floods st ++ floodMarkers (nextStamp st) (demoReports now).
Proof.
  intros [[mp Hmp] [g Hg]].
  unfold addDemoData. erewrite bind_Ok by exact (push_markers_run _ st g Hg).
  unfold updateStats, updateReportList. eexists. split; [reflexivity|].
  unfold in_sync, initialised, floods, with_floods. cbn.
  unfold layers, leafletMap in *. rewrite Hg, Hmp, lookup_insert_eq. cbn.
  repeat split; eauto.
Qed.

Lemma loadGeoJSONData_initialised (net : jsstring → FetchResult) (st : State) :
  (∀ l, l ∈ staticLayers → is_Some (layers st !! js (static_target l))) →
  ∃ st', loadGeoJSONData net st = Ok tt st'
         ∧ floodReports st' = floodReports st
         ∧ leafletMap st' = leafletMap st
         ∧ nextStamp st' = nextStamp st
         ∧ layers st' !! js "floods" = layers st !! js "floods".
Proof.
  intros Hinit. rewrite loadGeoJSONData_loadAll.
  destruct (loadAll_run net staticLayers st staticLayers_targets_NoDup Hinit)
    as (st' & Hrun & _ & _ & Hother & _ & _ & Hstore & Hmap & _ & _ & Hstamp).
  exists st'. repeat split; try done.
  apply Hother. apply (bool_decide_unpack _). by vm_compute.
Qed.

(** Once the script has loaded, whatever the page, the network and the
    clock: the list view and the total show the five demo reports, whose
    markers are the members of the flood group. *)
Lemma loaded_sync (page_form : FormDom) (page_view : ViewDom)
    (net : jsstring → FetchResult) (now : nat → JsDate) :
  in_sync (state_of (onDOMContentLoaded net now (initial page_form page_view)))
  ∧ floods (state_of (onDOMContentLoaded net now (initial page_form page_view)))
    = floodMarkers 0 (demoReports (λ k, now (S k))).
Proof.
  unfold onDOMContentLoaded.
  erewrite bind_Ok by (vm_compute; reflexivity).
  erewrite bind_Ok by (vm_compute; reflexivity).
  match goal with |- context [mbind _ (loadGeoJSONData net) ?s] =>
    destruct (loadGeoJSONData_initialised net s)
      as (st2 & Hrun & Hstore & Hmap & Hstamp & Hfloods)
  end.
  { intros l Hl. unfold staticLayers in Hl.
    repeat (apply elem_of_cons in Hl as [->|Hl]; [vm_compute; eauto|]).
    by apply elem_of_nil in Hl. }
  erewrite bind_Ok by exact Hrun.
  erewrite (bind_Ok (setDefaultDateTime _)) by reflexivity.
  match goal with |- context [addDemoData ?n ?s] =>
    destruct (addDemoData_sync n s) as (st3 & Hrun3 & Hsync3 & _ & Hfloods3)
  end.
  { split.
    - change (is_Some (leafletMap st2)). rewrite Hmap. vm_compute. eauto.
    - change (is_Some (layers st2 !! js "floods")). rewrite Hfloods.
      vm_compute. eauto. }
  rewrite Hrun3. cbn [state_of]. split; [exact Hsync3|].
  rewrite Hfloods3.
  change (floods st2 ++ floodMarkers (nextStamp st2) (demoReports (λ k, now (S k)))
          = floodMarkers 0 (demoReports (λ k, now (S k)))).
  unfold floods. rewrite Hfloods, Hstamp. reflexivity.
Qed.


(** ** A click on a row of the list *)




(** ** The markers of the flood group *)

Lemma floodMarkers_pairs (n : nat) (l : list FloodReport) :
  floodMarkers n l
  = (λ p, MarkerLayer (floodMarker p.1 p.2)) <$> imap (λ i r, (n + i, r)) l.
Proof. unfold floodMarkers. by rewrite fmap_imap. Qed.

Lemma pairs_reports (n : nat) (l : list FloodReport) :
  (imap (λ i r, (n + i, r)) l).*2 = l.
Proof.
  rewrite fmap_imap. revert n. induction l as [|r l IH]; intros n; [done|].
  cbn. f_equal. rewrite <- (IH (S n)) at 2. apply imap_ext. by intros.
Qed.

Lemma shown_respects (st st' : State) :
  shown_obs st' = shown_obs st →
  markers_stand_for_reports st → markers_stand_for_reports st'.
Proof.
  unfold shown_obs, markers_stand_for_reports, floods.
  intros [= Hs Hl] (kr & Hfloods & Hsub). rewrite Hs, Hl. eauto.
Qed.

Lemma shown_obs_of_sync {A : Type} (m : M A) :
  preserves sync_obs m → preserves shown_obs m.
Proof.
  intros H st. specialize (H st). unfold sync_obs, shown_obs in *.
  injection H as _ -> -> _ _. reflexivity.
Qed.

Lemma filterReports_shown : maintains markers_stand_for_reports filterReports.
Proof.
  intros st HP.
  destruct (active_filter_chip (document st)) as [chip|] eqn:Hchip.
  - destruct (layers st !! js "floods") as [g|] eqn:Hg.
    + rewrite (filterReports_run st chip g Hchip Hg). cbn [state_of].
      eexists. rewrite floods_with_floods. split; [apply floodMarkers_pairs|].
      rewrite pairs_reports. apply sublist_filter.
    + unfold filterReports, group_clearLayers.
      cbv [mbind M_bind mret M_ret read write throw]. by rewrite Hchip, Hg.
  - unfold filterReports. cbv [mbind M_bind mret M_ret read write throw].
    by rewrite Hchip.
Qed.

Lemma handleFilterChipClick_shown (this : nat) :
  maintains markers_stand_for_reports (handleFilterChipClick this).
Proof.
  unfold handleFilterChipClick, querySelectorAll_forEach, this_element, update_this.
  repeat match goal with
         | |- maintains _ filterReports => apply filterReports_shown
         | |- maintains _ (_ ≫= _) =>
             apply (maintains_bind markers_stand_for_reports); [|intros ?]
         | |- maintains _ _ =>
             apply (maintains_preserves shown_obs _ shown_respects); solve [preserves]
         end.
Qed.

Lemma shown_obs_resetForm (now : JsDate) : preserves shown_obs (resetForm now).
Proof.
  unfold resetForm, map_removeLayer, querySelectorAll_forEach, setDefaultDateTime.
  preserves. by apply preserves_with_map.
Qed.

(** The store takes a report and the flood group its marker. *)
Lemma push_shown (report : FloodReport) (rest : M unit) :
  preserves shown_obs rest →
  maintains markers_stand_for_reports
    (write (λ st, set_floodReports (floodReports st ++ [report]) st);;
     addFloodMarker report;;
     rest).
Proof.
  intros Hrest st (kr & Hfloods & Hsub). rewrite bind_write.
  destruct (layers st !! js "floods") as [g|] eqn:Hg.
  - erewrite bind_Ok by (by apply (addFloodMarker_run report _ g)).
    apply (maintains_preserves shown_obs _ shown_respects _ Hrest).
    exists (kr ++ [(nextStamp st, report)]).
    rewrite floods_with_floods, !fmap_app. cbn. split.
    + f_equal. unfold floods in Hfloods. by rewrite Hg in Hfloods.
    + by apply sublist_app.
  - unfold addFloodMarker, L_marker, group_addLayer.
    cbv [mbind M_bind mret M_ret read write throw]. cbn.
    unfold layers in Hg. rewrite Hg. cbn.
    exists kr. unfold floods, layers in *. cbn. rewrite Hg in *. cbn in *.
    split; [done|]. by apply sublist_inserts_r.
Qed.

Lemma handleFormSubmit_shown (clock : SubmitClock) :
  maintains markers_stand_for_reports (handleFormSubmit clock).
Proof.
  unfold handleFormSubmit.
  repeat match goal with
         | |- maintains _ (write _ ≫= _) =>
             apply push_shown; unfold updateStats, showToast, updateReportList;
             repeat (apply preserves_bind; [|intros ?]);
             first [apply shown_obs_resetForm | solve [preserves]]
         | |- maintains _ (_ ≫= _) =>
             apply (maintains_bind markers_stand_for_reports); [|intros ?]
         | |- maintains _ (let _ := _ in _) => cbv zeta
         | |- maintains _ _ =>
             apply (maintains_preserves shown_obs _ shown_respects); solve [preserves]
         end.
Qed.

(** An invariant that reads no more than [page_obs] holds after every event
    once the four handlers that write what [page_obs] reads keep it. *)
Lemma dispatch_maintains (P : State → Prop) :
  (∀ st st', page_obs st' = page_obs st → P st → P st') →
  (∀ latlng, maintains P (handleMapClick latlng)) →
  maintains P filterReports →
  (∀ this, maintains P (handleFilterChipClick this)) →
  (∀ clock, maintains P (handleFormSubmit clock)) →
  ∀ ev st, P st → P (dispatch ev st).
Proof.
  intros Hresp Hclick Hfilter Hchip Hsubmit ev st HP.
  destruct ev as [latlng|this|file|value|value|value|clock|value|value| |this| ];
    cbn [dispatch transition].
  - by apply Hclick.
  - destruct (document st !! this) as [el|]; [|done].
    apply (maintains_listeners P); [|done].
    intros m Hm. apply list_elem_of_fmap in Hm as (l & -> & Hl).
    apply list_elem_of_filter in Hl as [_ Hl].
    unfold clickListeners in Hl.
    apply elem_of_cons in Hl as [->|Hl];
      [exact (maintains_preserves page_obs _ Hresp _ (page_obs_handleDepthSelect this))|].
    apply elem_of_cons in Hl as [->|Hl];
      [exact (maintains_preserves page_obs _ Hresp _
                (page_obs_handleSituationSelect this))|].
    apply elem_of_cons in Hl as [->|Hl];
      [exact (maintains_preserves page_obs _ Hresp _ (page_obs_handleLayerToggle this))|].
    apply elem_of_cons in Hl as [->|Hl];
      [exact (maintains_preserves page_obs _ Hresp _ (page_obs_handleModeToggle this))|].
    apply elem_of_cons in Hl as [->|Hl]; [exact (Hchip this)|].
    by apply elem_of_nil in Hl.
  - apply (maintains_preserves page_obs _ Hresp); [|done].
    apply page_obs_handlePhotoUpload.
  - apply (maintains_preserves page_obs _ Hresp); [|done].
    apply (preserves_bind _ (write (set_eventDate value)));
      [by apply preserves_write|intros _].
    apply page_obs_validateForm.
  - apply (maintains_preserves page_obs _ Hresp); [|done].
    apply (preserves_bind _ (write (set_eventTime value)));
      [by apply preserves_write|intros _].
    apply page_obs_validateForm.
  - by apply (Hresp st).
  - by apply Hsubmit.
  - apply Hfilter. by apply (Hresp st).
  - apply Hfilter. by apply (Hresp st).
  - by apply (Hresp st).
  - apply (maintains_preserves page_obs _ Hresp); [|done].
    apply page_obs_handleReportItemClick.
  - apply (maintains_preserves page_obs _ Hresp); [|done].
    apply page_obs_toastTimeout.
Qed.

Lemma shown_obs_of_page (st st' : State) :
  page_obs st' = page_obs st → shown_obs st' = shown_obs st.
Proof. unfold page_obs, shown_obs. by intros [= _ _ _ _ -> -> _ _]. Qed.

Lemma dispatch_shown (ev : Event) (st : State) :
  markers_stand_for_reports st → markers_stand_for_reports (dispatch ev st).
Proof.
  apply dispatch_maintains.
  - intros s s' H. by apply shown_respects, shown_obs_of_page.
  - intros latlng. apply (maintains_preserves shown_obs _ shown_respects).
    apply shown_obs_of_sync, sync_obs_handleMapClick.
  - apply filterReports_shown.
  - apply handleFilterChipClick_shown.
  - apply handleFormSubmit_shown.
Qed.

(** X5. On every page, network and clock, and after every session: each
    member of the flood group is the marker of a stored report, standing at
    that report's location with the icon of its depth and carrying it, and
    the reports shown follow the store's order, none twice over a report
    stored once. *)
Theorem markers_are_of_stored_reports (page_form : FormDom) (page_view : ViewDom)
    (net : jsstring → FetchResult) (now : nat → JsDate) (evs : list Event) :
  markers_stand_for_reports
    (session evs (state_of (onDOMContentLoaded net now (initial page_form page_view)))).
Proof.
  revert evs.
  assert (Hstep : ∀ evs st, markers_stand_for_reports st →
                            markers_stand_for_reports (session evs st)).
  { induction evs as [|ev evs IH]; intros st HP; [done|].
    change (session (ev :: evs) st) with (session evs (dispatch ev st)).
    by apply IH, dispatch_shown. }
  intros evs. apply Hstep.
  destruct (loaded_sync page_form page_view net now) as [_ Hfloods].
  exists (imap (λ i r, (0 + i, r)) (demoReports (λ k, now (S k)))). split.
  - rewrite Hfloods. apply floodMarkers_pairs.
  - rewrite pairs_reports, loaded_store. reflexivity.
Qed.

(** ** A click on a filter chip *)

(** After a group's token has been taken from every element of the group
    and given to the clicked one, an element of the group carries it exactly
    when it is the clicked one. *)
Lemma token_unique (g t : string) (doc : list Element) (this j : nat) (el' : Element) :
  alter (with_classes (classList_add (js t))) this
    (map (λ e, if has_class g e
               then with_classes (classList_remove (js t)) e
               else e) doc) !! j = Some el' →
  has_class g el' = true →
  has_class t el' = true ↔ j = this.
Proof.
  intros Hlook Hg. destruct (decide (j = this)) as [->|Hne].
  - rewrite list_lookup_alter_eq in Hlook.
    destruct (map _ doc !! this) as [e|]; [|discriminate]. cbn in Hlook.
    injection Hlook as <-. split; [done|]. intros _.
    apply has_class_spec. cbn. apply elem_of_classList_add. by right.
  - rewrite list_lookup_alter_ne in Hlook by done.
    change (map ?f doc) with (f <$> doc) in Hlook.
    rewrite list_lookup_fmap in Hlook.
    destruct (doc !! j) as [e|]; [|discriminate]. cbn in Hlook.
    injection Hlook as <-. split; [|done]. intros Hsel. exfalso.
    destruct (has_class g e) eqn:E.
    + apply has_class_spec in Hsel. cbn in Hsel.
      apply elem_of_classList_remove in Hsel. tauto.
    + congruence.
Qed.

Lemma find_the_only {A : Type} (P : A → bool) (l : list A) :
  ∀ i x, l !! i = Some x → P x = true →
         (∀ j y, l !! j = Some y → P y = true → j = i) →
         find P l = Some x.
Proof.
  induction l as [|y l IH]; intros i x Hi Hx Honly; [done|].
  cbn. destruct (P y) eqn:Hy.
  - assert (0 = i)%nat as <- by (by apply (Honly 0%nat y)).
    by injection Hi as ->.
  - destruct i as [|i]; [injection Hi as ->; congruence|].
    apply (IH i); [done..|].
    intros j z Hj Hz. by injection (Honly (S j) z Hj Hz).
Qed.

Arguments filterReports : simpl never.

Lemma handleFilterChipClick_run (this : nat) (st : State) (el : Element) :
  document st !! this = Some el →
  handleFilterChipClick this st =
  filterReports
    (set_document
       (alter (with_classes (classList_add (js "active"))) this
          (map (λ e, if has_class "filter-chip" e
                     then with_classes (classList_remove (js "active")) e
                     else e)
               (document st)))
       st).
Proof.
  intros Hel.
  unfold handleFilterChipClick, querySelectorAll_forEach, this_element, update_this.
  expose st. run.
  erewrite this_lookup_map by eassumption.
  destruct (has_class "filter-chip" el); reflexivity.
Qed.

(** X6. A click on a filter chip, on a page with a flood group, returns with
    that chip the only active one of its group and with the flood group
    rebuilt for that chip's depth and the two date bounds as they stand: one
    marker per stored report that passes.  The store is as it was. *)
Theorem filter_chip_click (this : nat) (st : State) (el : Element) :
  document st !! this = Some el →
  has_class "filter-chip" el = true →
  is_Some (layers st !! js "floods") →
  ∃ st',
    handleFilterChipClick this st = Ok tt st'
    ∧ (∀ j el', document st' !! j = Some el' →
                has_class "filter-chip" el' = true →
                (has_class "active" el' = true ↔ j = this))
    ∧ floods st'
      = floodMarkers (nextStamp st)
          (filter (passes (data "depth" el) (filterDateFrom st) (filterDateTo st))
                  (floodReports st))
    ∧ floodReports st' = floodReports st.
Proof.
  intros Hel Hchip [g Hg].
  rewrite (handleFilterChipClick_run this st el Hel).
  set (doc' := alter _ this (map _ (document st))).
  assert (Hthis : doc' !! this
                  = Some (with_classes (classList_add (js "active"))
                            (with_classes (classList_remove (js "active")) el))).
  { unfold doc'. rewrite list_lookup_alter_eq.
    erewrite this_lookup_map by exact Hel. by rewrite Hchip. }
  assert (Honly : ∀ j el', doc' !! j = Some el' →
                           has_class "filter-chip" el' = true →
                           (has_class "active" el' = true ↔ j = this)).
  { intros j el'. apply token_unique. }
  assert (Hkept : has_class "filter-chip"
                    (with_classes (classList_add (js "active"))
                       (with_classes (classList_remove (js "active")) el)) = true).
  { apply has_class_spec. cbn. apply elem_of_classList_add. left.
    apply elem_of_classList_remove. split; [by apply has_class_spec|].
    intros H. vm_compute in H. discriminate H. }
  rewrite (filterReports_run _ (with_classes (classList_add (js "active"))
                                  (with_classes (classList_remove (js "active")) el)) g).
  - eexists. split; [reflexivity|].
    rewrite floods_with_floods, filter_show_passes. cbn.
    split; [exact Honly|]. by split.
  - unfold active_filter_chip. cbn [document view_document view set_document].
    apply (find_the_only _ _ this); [exact Hthis| |].
    + rewrite Hkept. cbn. apply has_class_spec. cbn.
      apply elem_of_classList_add. by right.
    + intros j y Hj Hy. apply andb_true_iff in Hy as [Hy1 Hy2].
      by apply (Honly j y).
  - exact Hg.
Qed.

Lemma filter_chip_click_witness :
  ∃ st',
    handleFilterChipClick 19 loaded = Ok tt st'
    ∧ (∀ j el', document st' !! j = Some el' →
                has_class "filter-chip" el' = true →
                (has_class "active" el' = true ↔ j = 19%nat))
    ∧ floods st'
      = floodMarkers (nextStamp loaded)
          (filter (passes (data "depth" (chip ["filter-chip"] "depth" "moderate"))
                          (filterDateFrom loaded) (filterDateTo loaded))
                  (floodReports loaded))
    ∧ floodReports st' = floodReports loaded.
Proof.
  apply (filter_chip_click 19 loaded (chip ["filter-chip"] "depth" "moderate")).
  - vm_compute. reflexivity.
  - vm_compute. reflexivity.
  - vm_compute. eauto.
Defined.

(** ** A click on a layer toggle *)

Lemma has_class_toggle (t : string) (el : Element) :
  has_class t (with_classes (classList_toggle (js t)) el) = negb (has_class t el).
Proof.
  unfold has_class, with_classes, classList_toggle. cbn.
  destruct (contains (classList el) (js t)) eqn:E; cbn.
  - apply bool_decide_eq_false. rewrite elem_of_classList_remove. tauto.
  - apply bool_decide_eq_true. apply elem_of_app. right. by left.
Qed.

Lemma existsb_group_added (name other : jsstring) (items : list MapItem) :
  existsb (same_item (GroupItem other))
          (if existsb (same_item (GroupItem name)) items then items
           else items ++ [GroupItem name])
  = existsb (same_item (GroupItem other)) items || bool_decide (other = name).
Proof.
  destruct (existsb (same_item (GroupItem name)) items) eqn:E.
  - destruct (decide (other = name)) as [->|Hne].
    + rewrite E. done.
    + rewrite (bool_decide_eq_false_2 _ Hne). by rewrite orb_false_r.
  - rewrite existsb_app. cbn. by rewrite orb_false_r.
Qed.

Lemma existsb_group_removed (name other : jsstring) (items : list MapItem) :
  existsb (same_item (GroupItem other))
          (filter (λ x, same_item (GroupItem name) x = false) items)
  = existsb (same_item (GroupItem other)) items && negb (bool_decide (other = name)).
Proof.
  apply eq_true_iff_eq.
  rewrite andb_true_iff, negb_true_iff, bool_decide_eq_false, !existsb_exists. split.
  - intros (x & Hin & Hx).
    apply list_elem_of_In, list_elem_of_filter in Hin as [Hkeep Hin]. split.
    + exists x. split; [by apply list_elem_of_In|done].
    + destruct x as [url|name'|m]; cbn in *; try discriminate.
      apply bool_decide_eq_true in Hx as ->.
      apply bool_decide_eq_false in Hkeep. congruence.
  - intros [(x & Hin & Hx) Hne]. exists x. split; [|done].
    apply list_elem_of_In, list_elem_of_filter. split; [|by apply list_elem_of_In].
    destruct x as [url|name'|m]; cbn in *; try done.
    apply bool_decide_eq_true in Hx as ->.
    apply bool_decide_eq_false. congruence.
Qed.

Lemma map_items_added (item : MapItem) (mp : LMap) :
  map_items (if existsb (same_item item) (map_items mp) then mp
             else mkMap (map_center mp) (map_zoom mp) (map_items mp ++ [item]))
  = if existsb (same_item item) (map_items mp) then map_items mp
    else map_items mp ++ [item].
Proof. by destruct (existsb (same_item item) (map_items mp)). Qed.

Arguments same_item : simpl never.

(** X7. A click on a layer toggle whose data-layer names a registered group,
    on a page with a map, returns with the toggle's 'active' flipped and the
    group drawn on the map exactly when the toggle is now active.  No other
    group's presence on the map changes, and the groups keep their members:
    hiding a layer destroys nothing. *)
Theorem layer_toggle_shows_or_hides (this : nat) (st : State) (el : Element)
    (name : jsstring) :
  document st !! this = Some el →
  data "layer" el = JStr name →
  is_Some (layers st !! name) →
  is_Some (leafletMap st) →
  ∃ st' el',
    handleLayerToggle this st = Ok tt st'
    ∧ document st' !! this = Some el'
    ∧ has_class "active" el' = negb (has_class "active" el)
    ∧ on_map name st' = has_class "active" el'
    ∧ (∀ other, other ≠ name → on_map other st' = on_map other st)
    ∧ layers st' = layers st
    ∧ floodReports st' = floodReports st.
Proof.
  intros Hel Hname [g Hg] [mp Hmp].
  assert (Hel' : alter (with_classes (classList_toggle (js "active"))) this (document st)
                 !! this
                 = Some (with_classes (classList_toggle (js "active")) el)).
  { by rewrite list_lookup_alter_eq, Hel. }
  unfold handleLayerToggle, this_element, update_this, map_addLayer, map_removeLayer,
    with_map, on_map.
  expose st. run. subst. rewrite Hel. cbn. rewrite Hel'. cbn.
  assert (Hdata : data "layer" el = JStr name) by exact Hname.
  rewrite Hdata, Hg.
  pose proof (has_class_toggle "active" el) as Htoggle.
  destruct (has_class "active" (with_classes (classList_toggle (js "active")) el))
    eqn:Hactive; cbn.
  - eexists _, _. split; [reflexivity|]. cbn. rewrite Hel'.
    split; [reflexivity|]. split; [by rewrite Hactive|].
    rewrite Hactive. split; [|split; [|done]].
    + rewrite map_items_added, existsb_group_added.
      rewrite bool_decide_eq_true_2 by done. by rewrite orb_true_r.
    + intros other Hne. rewrite map_items_added, existsb_group_added.
      rewrite bool_decide_eq_false_2 by done. by rewrite orb_false_r.
  - eexists _, _. split; [reflexivity|]. cbn. rewrite Hel'.
    split; [reflexivity|]. split; [by rewrite Hactive|].
    rewrite Hactive. split; [|split; [|done]].
    + apply (filter_same_item_off (GroupItem name)).
    + intros other Hne. rewrite existsb_group_removed.
      rewrite bool_decide_eq_false_2 by done. by rewrite andb_true_r.
Qed.

Lemma layer_toggle_shows_or_hides_witness :
  ∃ st' el',
    handleLayerToggle 9 loaded = Ok tt st'
    ∧ document st' !! 9%nat = Some el'
    ∧ has_class "active" el'
      = negb (has_class "active" (chip ["layer-item"; "active"] "layer" "water"))
    ∧ on_map (js "water") st' = has_class "active" el'
    ∧ (∀ other, other ≠ js "water" → on_map other st' = on_map other loaded)
    ∧ layers st' = layers loaded
    ∧ floodReports st' = floodReports loaded.
Proof.
  apply (layer_toggle_shows_or_hides 9 loaded
           (chip ["layer-item"; "active"] "layer" "water") (js "water"));
    vm_compute; eauto.
Defined.

(** ** A click on a mode button *)

(** X8. A click on a mode button returns with that button the only active
    one of the mode buttons and with exactly one of the two panels shown:
    the report form when the button's data-mode is 'report', the report list
    for any other value, also a missing one.  The variables of the script
    are as they were. *)
Theorem mode_toggle_shows_one_panel (this : nat) (st : State) (el : Element) :
  document st !! this = Some el →
  ∃ st',
    handleModeToggle this st = Ok tt st'
    ∧ (∀ j el', document st' !! j = Some el' →
                has_class "mode-btn" el' = true →
                (has_class "active" el' = true ↔ j = this))
    ∧ (reportFormDisplay st', reportListDisplay st')
      = (if bool_decide (data "mode" el = JStr (js "report"))
         then (JStr (js "block"), JStr (js "none"))
         else (JStr (js "none"), JStr (js "block")))
    ∧ vars st' = vars st.
Proof.
  intros Hel.
  unfold handleModeToggle, querySelectorAll_forEach, this_element, update_this, strict_eq.
  expose st. run.
  erewrite this_lookup_map by eassumption.
  assert (Hdata : ∀ e, data "mode" (if has_class "mode-btn" e
                                    then with_classes (classList_remove (js "active")) e
                                    else e) = data "mode" e).
  { intros e. by destruct (has_class "mode-btn" e). }
  cbn. rewrite Hdata.
  destruct (bool_decide (data "mode" el = JStr (js "report"))); cbn;
    (eexists; split; [reflexivity|]; cbn; split; [|done]);
    intros j el'; apply token_unique.
Qed.

Lemma mode_toggle_shows_one_panel_witness :
  ∃ st',
    handleModeToggle 16 loaded = Ok tt st'
    ∧ (∀ j el', document st' !! j = Some el' →
                has_class "mode-btn" el' = true →
                (has_class "active" el' = true ↔ j = 16%nat))
    ∧ (reportFormDisplay st', reportListDisplay st')
      = (if bool_decide (data "mode" (chip ["mode-btn"] "mode" "list") = JStr (js "report"))
         then (JStr (js "block"), JStr (js "none"))
         else (JStr (js "none"), JStr (js "block")))
    ∧ vars st' = vars loaded.
Proof.
  apply (mode_toggle_shows_one_panel 16 loaded (chip ["mode-btn"] "mode" "list")).
  vm_compute. reflexivity.
Defined.

(** ** The submit control over a session *)

Lemma gate_respects (st st' : State) :
  gate_obs st' = gate_obs st → gate_tracked st → gate_tracked st'.
Proof.
  unfold gate_obs, gate_tracked, gate. intros [= H1 H2 H3 H4].
  by rewrite H1, H2, H3, H4.
Qed.

Lemma validateForm_tracks (st : State) : gate_tracked (state_of (validateForm st)).
Proof. by rewrite validateForm_run. Qed.

Lemma handleMapClick_tracks (latlng : LatLng) :
  maintains gate_tracked (handleMapClick latlng).
Proof.
  intros st HP.
  unfold handleMapClick, map_removeLayer, map_addLayer, with_map, L_marker,
    updateLocationDisplay, gate_tracked in *.
  expose st. run. subst.
  destruct vars_currentMarker0 as [m|], vars_leafletMap0 as [mp|]; run;
    rewrite ?validateForm_run; done.
Qed.

Lemma handleDepthSelect_tracks (this : nat) :
  maintains gate_tracked (handleDepthSelect this).
Proof.
  intros st HP. destruct (document st !! this) as [el|] eqn:Hel.
  - rewrite (handleDepthSelect_run _ _ _ Hel). apply validateForm_tracks.
  - unfold handleDepthSelect, querySelectorAll_forEach, this_element, update_this,
      gate_tracked in *.
    expose st. run.
    change (map ?f view_document0) with (f <$> view_document0).
    by rewrite list_lookup_fmap, Hel.
Qed.

Lemma handleSituationSelect_tracks (this : nat) :
  maintains gate_tracked (handleSituationSelect this).
Proof.
  intros st HP. destruct (document st !! this) as [el|] eqn:Hel.
  - rewrite (handleSituationSelect_run _ _ _ Hel). apply validateForm_tracks.
  - unfold handleSituationSelect, querySelectorAll_forEach, this_element, update_this,
      gate_tracked in *.
    expose st. run.
    change (map ?f view_document0) with (f <$> view_document0).
    by rewrite list_lookup_fmap, Hel.
Qed.

Lemma resetForm_tracks (now : JsDate) : maintains gate_tracked (resetForm now).
Proof.
  intros st HP.
  unfold resetForm, map_removeLayer, with_map, querySelectorAll_forEach,
    setDefaultDateTime, gate_tracked in *.
  expose st. run. subst.
  destruct vars_currentMarker0 as [m|], vars_leafletMap0 as [mp|]; run; done.
Qed.

Lemma gate_obs_addFloodMarker (report : FloodReport) :
  preserves gate_obs (addFloodMarker report).
Proof. unfold addFloodMarker, L_marker, group_addLayer. preserves. Qed.

Lemma gate_obs_filterReports : preserves gate_obs filterReports.
Proof.
  intros st. by destruct (filterReports_outcome st) as [->|(members & n & ->)].
Qed.

Lemma handleFormSubmit_tracks (clock : SubmitClock) :
  maintains gate_tracked (handleFormSubmit clock).
Proof.
  unfold handleFormSubmit.
  repeat match goal with
         | |- maintains _ (resetForm _) => apply resetForm_tracks
         | |- maintains _ (addFloodMarker _) =>
             apply (maintains_preserves gate_obs _ gate_respects),
                   gate_obs_addFloodMarker
         | |- maintains _ (_ ≫= _) =>
             apply (maintains_bind gate_tracked); [|intros ?]
         | |- maintains _ (let _ := _ in _) => cbv zeta
         | |- maintains _ _ =>
             apply (maintains_preserves gate_obs _ gate_respects);
             unfold updateStats, showToast, updateReportList; solve [preserves]
         end.
Qed.

Lemma dispatch_tracks (ev : Event) (st : State) :
  gate_tracked st → gate_tracked (dispatch ev st).
Proof.
  intros HP.
  destruct ev as [latlng|this|file|value|value|value|clock|value|value| |this| ];
    cbn [dispatch transition].
  - by apply handleMapClick_tracks.
  - destruct (document st !! this) as [el|]; [|done].
    apply (maintains_listeners gate_tracked); [|done].
    intros m Hm. apply list_elem_of_fmap in Hm as (l & -> & Hl).
    apply list_elem_of_filter in Hl as [_ Hl].
    unfold clickListeners in Hl.
    apply elem_of_cons in Hl as [->|Hl]; [exact (handleDepthSelect_tracks this)|].
    apply elem_of_cons in Hl as [->|Hl]; [exact (handleSituationSelect_tracks this)|].
    apply elem_of_cons in Hl as [->|Hl].
    { apply (maintains_preserves gate_obs _ gate_respects). cbn.
      unfold handleLayerToggle, this_element, update_this, map_addLayer,
        map_removeLayer.
      preserves; by apply preserves_with_map. }
    apply elem_of_cons in Hl as [->|Hl].
    { apply (maintains_preserves gate_obs _ gate_respects). cbn.
      unfold handleModeToggle, querySelectorAll_forEach, this_element, update_this.
      preserves. }
    apply elem_of_cons in Hl as [->|Hl].
    { apply (maintains_preserves gate_obs _ gate_respects). cbn.
      unfold handleFilterChipClick, querySelectorAll_forEach, this_element,
        update_this.
      preserves. apply gate_obs_filterReports. }
    by apply elem_of_nil in Hl.
  - apply (maintains_preserves gate_obs _ gate_respects); [|done].
    unfold handlePhotoUpload. preserves.
  - unfold mbind, M_bind, write. apply validateForm_tracks.
  - unfold mbind, M_bind, write. apply validateForm_tracks.
  - by apply (gate_respects st).
  - by apply handleFormSubmit_tracks.
  - apply (gate_respects st); [|done]. by rewrite gate_obs_filterReports.
  - apply (gate_respects st); [|done]. by rewrite gate_obs_filterReports.
  - by apply (gate_respects st).
  - apply (maintains_preserves gate_obs _ gate_respects); [|done].
    unfold handleReportItemClick, map_setView.
    preserves. by apply preserves_with_map.
  - apply (maintains_preserves gate_obs _ gate_respects); [|done].
    unfold toastTimeout. preserves.
Qed.

Lemma loaded_tracks (page_form : FormDom) (page_view : ViewDom)
    (net : jsstring → FetchResult) (now : nat → JsDate) :
  form_submitDisabled page_form = true →
  gate_tracked (state_of (onDOMContentLoaded net now (initial page_form page_view))).
Proof.
  intros Hdis.
  assert (Hkeep : preserves (λ st, (form_location (formState st), submitDisabled st))
                            (onDOMContentLoaded net now)).
  { unfold onDOMContentLoaded, initializeMap, initializeLayerGroups, new_layerGroup,
      map_addLayer, loadGeoJSONData, loadLayer, fetch, res_json, L_geoJSON,
      group_addLayer, console_log, setDefaultDateTime, addDemoData, addFloodMarker,
      L_marker, updateStats, updateReportList.
    preserves; by apply preserves_with_map. }
  specialize (Hkeep (initial page_form page_view)). cbn in Hkeep.
  injection Hkeep as Hloc Hsub.
  unfold gate_tracked, gate. rewrite Hsub, Hloc. exact Hdis.
Qed.

(** X9. On a page authored with its submit control disabled, over every
    network and clock and after every session (clicks on the map and on any
    element, edits, photo choices, submissions, also ones that throw): the
    submit control is enabled if and only if location, depth, situation,
    date and time are all set. *)
Theorem submit_control_tracks_gate (page_form : FormDom) (page_view : ViewDom)
    (net : jsstring → FetchResult) (now : nat → JsDate) (evs : list Event) :
  form_submitDisabled page_form = true →
  submitDisabled
    (session evs (state_of (onDOMContentLoaded net now (initial page_form page_view))))
  = false
  ↔ all_set
      (session evs (state_of (onDOMContentLoaded net now (initial page_form page_view)))).
Proof.
  intros Hdis. rewrite <- gate_spec.
  pose proof (session_invariant gate_tracked dispatch_tracks evs _
                (loaded_tracks page_form page_view net now Hdis)) as H.
  unfold gate_tracked in H. rewrite H.
  by destruct (gate _).
Qed.

Lemma submit_control_tracks_gate_witness :
  submitDisabled (session draft loaded) = false ↔ all_set (session draft loaded).
Proof.
  apply (submit_control_tracks_gate sampleForm sampleView sampleNet (λ _, sampleNow) draft).
  reflexivity.
Defined.

(** ** Loading on any state *)

(** One load on any state, whether its group exists or not. *)
Lemma loadLayer_returns (net : jsstring → FetchResult) (l : StaticLayer) (st : State) :
  ∃ st',
    loadLayer net (static_url l) (static_name l) (static_options l) (static_target l) st
    = Ok tt st'
    ∧ requests st' = requests st ++ [js (static_url l)]
    ∧ length (console st') = (length (console st) + 2)%nat
    ∧ (∀ name, is_Some (layers st' !! name) ↔ is_Some (layers st !! name))
    ∧ (∀ name, name ≠ js (static_target l) → layers st' !! name = layers st !! name)
    ∧ vars_leafletMap (vars st') = vars_leafletMap (vars st)
    ∧ floodReports st' = floodReports st
    ∧ form st' = form st ∧ view st' = view st
    ∧ nextStamp st' = nextStamp st.
Proof.
  unfold loadLayer, fetch, res_json, L_geoJSON, group_addLayer, console_log.
  expose st. run.
  destruct (net (js (static_url l))) as [|status [geo|]]; run;
    try destruct (status_ok status); run;
    try destruct (geoJSON_layer geo (static_options l)); run;
    try destruct (vars_layers0 !! js (static_target l)) as [g|] eqn:Hg; run;
    (eexists; split; [reflexivity|]); cbn;
    rewrite ?length_app, <- ?app_assoc; cbn;
    (repeat split; try done; try lia);
    try (intros name Hne; by rewrite lookup_insert_ne);
    try (destruct (decide (js (static_target l) = name)) as [<-|Hne];
         [rewrite lookup_insert_eq, ?Hg; eauto|by rewrite lookup_insert_ne]).
Qed.

Lemma loadAll_returns (net : jsstring → FetchResult) (ls : list StaticLayer) :
  ∀ st : State,
    ∃ st',
      loadAll net ls st = Ok tt st'
      ∧ requests st' = requests st ++ ((λ l, js (static_url l)) <$> ls)
      ∧ length (console st') = (length (console st) + 2 * length ls)%nat
      ∧ (∀ name, is_Some (layers st' !! name) ↔ is_Some (layers st !! name))
      ∧ (∀ name, name ∉ (λ l, js (static_target l)) <$> ls →
                 layers st' !! name = layers st !! name)
      ∧ vars_leafletMap (vars st') = vars_leafletMap (vars st)
      ∧ floodReports st' = floodReports st
      ∧ form st' = form st ∧ view st' = view st
      ∧ nextStamp st' = nextStamp st.
Proof.
  induction ls as [|l ls IH]; intros st.
  - exists st. cbn. rewrite app_nil_r. repeat split; try done; lia.
  - destruct (loadLayer_returns net l st)
      as (st1 & Hrun1 & Hreq1 & Hcon1 & Hdom1 & Hother1 & Hmap1 & Hrep1 & Hform1
          & Hview1 & Hstamp1).
    destruct (IH st1) as (st' & Hrun & Hreq & Hcon & Hdom & Hother & Hmap & Hrep
                          & Hform & Hview & Hstamp).
    exists st'. split.
    { unfold loadAll in *. cbn [forEach]. unfold mbind, M_bind at 1.
      by rewrite Hrun1. }
    split. { rewrite Hreq, Hreq1, fmap_cons, <- app_assoc. reflexivity. }
    split. { rewrite Hcon, Hcon1. cbn [length]. lia. }
    split. { intros name. by rewrite Hdom, Hdom1. }
    split.
    { intros name Hname. rewrite fmap_cons, not_elem_of_cons in Hname.
      destruct Hname as [Hne Hname]. rewrite (Hother _ Hname). by apply Hother1. }
    repeat split; congruence.
Qed.


(** ** What a submission checks *)

(** X11. The submit handler checks nothing but what it reads: on a draft
    without a location it throws a TypeError before anything is written, and
    on a draft with a location it stores a report whatever the other fields
    hold, unset ones included, as they stand. *)
Theorem submit_checks_location_only (clock : SubmitClock) (st : State) :
  (form_location (formState st) = None →
   handleFormSubmit clock st = Throw TypeError st)
  ∧ (∀ loc, initialised st →
            form_location (formState st) = Some loc →
            ∃ st', handleFormSubmit clock st = Ok tt st'
                   ∧ floodReports st' = floodReports st ++ [submitted clock st loc]
                   ∧ report_depth (submitted clock st loc) = form_depth (formState st)
                   ∧ report_situation (submitted clock st loc)
                     = form_situation (formState st)
                   ∧ report_date (submitted clock st loc) = eventDate st
                   ∧ report_time (submitted clock st loc) = eventTime st).
Proof.
  split.
  - intros Hloc. unfold handleFormSubmit. expose st. run. by rewrite Hloc.
  - intros loc Hinit Hloc.
    destruct (handleFormSubmit_run clock st loc Hinit Hloc) as (st' & Hrun & Hstore & _).
    exists st'. by repeat split.
Qed.

Lemma submit_checks_location_only_witness :
  handleFormSubmit sampleClock loaded = Throw TypeError loaded
  ∧ ∃ st', handleFormSubmit sampleClock (session [MapClick (mkLatLng 30.25 120.15)] loaded)
           = Ok tt st'
           ∧ length (floodReports st') = 6%nat.
Proof.
  split.
  - apply (proj1 (submit_checks_location_only sampleClock loaded)).
    vm_compute. reflexivity.
  - destruct (proj2 (submit_checks_location_only sampleClock
                       (session [MapClick (mkLatLng 30.25 120.15)] loaded))
                    (mkLatLng 30.25 120.15))
      as (st' & Hrun & Hstore & _).
    + split; vm_compute; eauto.
    + vm_compute. reflexivity.
    + exists st'. split; [exact Hrun|]. rewrite Hstore, length_app. vm_compute. reflexivity.
Defined.

(** ** The photo of a report *)




(** ** The static groups after loading *)

Lemma static_groups_of_layers (st st' : State) :
  layers st' = layers st → static_groups st' = static_groups st.
Proof. unfold static_groups. by intros ->. Qed.

Lemma static_addFloodMarker (report : FloodReport) :
  preserves static_groups (addFloodMarker report).
Proof.
  intros st. unfold addFloodMarker, L_marker, group_addLayer, static_groups.
  expose st. run. destruct (vars_layers0 !! js "floods"); cbn; [|done].
  apply delete_insert_eq.
Qed.

Lemma static_filterReports : preserves static_groups filterReports.
Proof.
  intros st. destruct (filterReports_outcome st) as [->|(members & n & ->)]; [done|].
  unfold static_groups, with_floods. cbn. apply delete_insert_eq.
Qed.

Lemma handleFormSubmit_static (clock : SubmitClock) :
  preserves static_groups (handleFormSubmit clock).
Proof.
  unfold handleFormSubmit, updateStats, showToast, resetForm, map_removeLayer,
    querySelectorAll_forEach, setDefaultDateTime, updateReportList.
  repeat lazymatch goal with
         | |- preserves _ (addFloodMarker _) => apply static_addFloodMarker
         | |- preserves _ (with_map _) => by apply preserves_with_map
         | _ => preserves_step
         end.
Qed.

Lemma dispatch_static (G : gmap jsstring (list Layer)) (ev : Event) (st : State) :
  static_groups st = G → static_groups (dispatch ev st) = G.
Proof.
  apply (dispatch_maintains (λ s, static_groups s = G)).
  - intros s s' Hobs <-. apply static_groups_of_layers.
    unfold page_obs in Hobs. by injection Hobs.
  - intros latlng s <-. apply static_groups_of_layers.
    pose proof (sync_obs_handleMapClick latlng s) as Hobs.
    unfold sync_obs in Hobs. by injection Hobs.
  - intros s <-. apply static_filterReports.
  - intros this s <-.
    unfold handleFilterChipClick, querySelectorAll_forEach, this_element, update_this.
    revert s. preserves. apply static_filterReports.
  - intros clock s <-. apply handleFormSubmit_static.
Qed.

Lemma loaded_static (page_form : FormDom) (page_view : ViewDom)
    (net : jsstring → FetchResult) (now : nat → JsDate) (l : StaticLayer) :
  l ∈ staticLayers →
  static_groups (state_of (onDOMContentLoaded net now (initial page_form page_view)))
  !! js (static_target l)
  = Some (after_load net l []).
Proof.
  intros Hl. unfold onDOMContentLoaded.
  erewrite bind_Ok by (vm_compute; reflexivity).
  erewrite bind_Ok by (vm_compute; reflexivity).
  match goal with |- context [mbind _ (loadGeoJSONData net) ?s] =>
    destruct (loadAll_run net staticLayers s staticLayers_targets_NoDup)
      as (st2 & Hrun & _ & Hlay & _);
    [|rewrite <- (loadGeoJSONData_loadAll net s) in Hrun]
  end.
  { intros l' Hl'. unfold staticLayers in Hl'.
    repeat (apply elem_of_cons in Hl' as [->|Hl']; [vm_compute; eauto|]).
    by apply elem_of_nil in Hl'. }
  erewrite bind_Ok by exact Hrun.
  assert (Hkeep : preserves static_groups
                    (setDefaultDateTime (now 0%nat);; addDemoData (λ k, now (S k)))).
  { unfold setDefaultDateTime, addDemoData, updateStats, updateReportList.
    repeat lazymatch goal with
           | |- preserves _ (addFloodMarker _) => apply static_addFloodMarker
           | _ => preserves_step
           end. }
  rewrite (Hkeep st2). unfold static_groups.
  assert (Hne : js "floods" ≠ js (static_target l)).
  { unfold staticLayers in Hl.
    repeat (apply elem_of_cons in Hl as [->|Hl]; [by vm_compute|]).
    by apply elem_of_nil in Hl. }
  rewrite (lookup_delete_ne _ _ _ Hne), (Hlay l Hl).
  unfold staticLayers in Hl.
  repeat (apply elem_of_cons in Hl as [->|Hl]; [reflexivity|]).
  by apply elem_of_nil in Hl.
Qed.

(** X13. Each static group is written once, at startup, by its own file.
    On every page, network and clock, and after every session: each of the
    six static groups holds the layer its own file gave, or nothing when
    that load failed; and no event of a session changes any group other than
    the flood group. *)
Theorem static_groups_are_final (page_form : FormDom) (page_view : ViewDom)
    (net : jsstring → FetchResult) (now : nat → JsDate) (evs : list Event) :
  (∀ l, l ∈ staticLayers →
        layers (session evs (state_of (onDOMContentLoaded net now
                                         (initial page_form page_view))))
        !! js (static_target l)
        = Some (after_load net l []))
  ∧ (∀ name, name ≠ js "floods" →
             layers (session evs (state_of (onDOMContentLoaded net now
                                              (initial page_form page_view))))
             !! name
             = layers (state_of (onDOMContentLoaded net now
                                   (initial page_form page_view))) !! name).
Proof.
  pose proof (session_invariant
                (λ s, static_groups s
                      = static_groups (state_of (onDOMContentLoaded net now
                                                   (initial page_form page_view))))
                (dispatch_static _) evs _ eq_refl) as Hinv.
  cbn beta in Hinv.
  assert (Hother : ∀ name s, name ≠ js "floods" →
                             layers s !! name = static_groups s !! name).
  { intros name s Hne. unfold static_groups. by rewrite lookup_delete_ne. }
  split.
  - intros l Hl. rewrite Hother, Hinv; [by apply loaded_static|].
    unfold staticLayers in Hl.
    repeat (apply elem_of_cons in Hl as [->|Hl]; [by vm_compute|]).
    by apply elem_of_nil in Hl.
  - intros name Hne. by rewrite !Hother, Hinv.
Qed.

(** ** What else a submission leaves behind *)

Lemma has_class_removed (t : string) (el : Element) :
  has_class t (with_classes (classList_remove (js t)) el) = false.
Proof.
  unfold has_class, with_classes, contains. cbn.
  apply bool_decide_eq_false. rewrite elem_of_classList_remove. tauto.
Qed.

(** The two passes of [resetForm] over the page leave no depth option and
    no situation chip selected. *)
Lemma deselected (e : Element) :
  let reset g e := if has_class g e
                   then with_classes (classList_remove (js "selected")) e else e in
  let e' := reset "situation-chip" (reset "depth-option" e) in
  has_class "depth-option" e' || has_class "situation-chip" e' = true →
  has_class "selected" e' = false.
Proof.
  cbv zeta beta.
  destruct (has_class "depth-option" e) eqn:E1;
    match goal with |- context [if has_class "situation-chip" ?x then _ else _] =>
      destruct (has_class "situation-chip" x) eqn:E2 end;
    intros H; try apply (has_class_removed "selected").
  rewrite E1, E2 in H. discriminate H.
Qed.

(** X14. A submission of a draft with a location on an initialised page
    also leaves no depth option and no situation chip selected, the
    description empty and the location display back to its placeholder; it
    shows the toast and leaves one more timeout pending; and the two counters
    show the number of stored reports and the number of them whose event date
    is the day of the clock as [toISOString] writes it. *)
Theorem submit_deselects_and_acknowledges (clock : SubmitClock) (st : State)
    (loc : LatLng) :
  initialised st →
  form_location (formState st) = Some loc →
  ∃ st',
    handleFormSubmit clock st = Ok tt st'
    ∧ (∀ j el', document st' !! j = Some el' →
                has_class "depth-option" el' || has_class "situation-chip" el' = true →
                has_class "selected" el' = false)
    ∧ length (document st') = length (document st)
    ∧ locationDesc st' = []
    ∧ locationDisplay st' = LocationPlaceholder
    ∧ js "show" ∈ toastClasses st'
    ∧ timers st' = S (timers st)
    ∧ totalReports st' = Some (length (floodReports st'))
    ∧ todayReports st'
      = Some (length (filter (λ r, report_date r
                                   = before 84 (toISOString (clock_stats clock)))
                             (floodReports st'))).
Proof.
  intros [[mp Hmp] [g Hg]] Hloc.
  unfold handleFormSubmit, addFloodMarker, L_marker, group_addLayer, updateStats,
    showToast, resetForm, map_removeLayer, with_map,
    querySelectorAll_forEach, setDefaultDateTime, updateReportList.
  expose st. run_with Hg.
  match goal with |- context [match ?c with Some _ => _ | None => _ end] =>
    destruct c as [m0|] end; run_with Hg;
    (eexists; split; [reflexivity|]); cbn;
    (split; [|rewrite !length_map; repeat split; try reflexivity;
              apply elem_of_classList_add; by right]);
    intros j el' Hlook;
    change (map ?f (map ?h view_document0)) with (f <$> (h <$> view_document0)) in Hlook;
    rewrite !list_lookup_fmap in Hlook;
    (destruct (view_document0 !! j) as [e|]; [|discriminate]);
    cbn in Hlook; injection Hlook as <-; apply deselected.
Qed.

Lemma submit_deselects_and_acknowledges_witness :
  ∃ st',
    handleFormSubmit sampleClock (session draft loaded) = Ok tt st'
    ∧ (∀ j el', document st' !! j = Some el' →
                has_class "depth-option" el' || has_class "situation-chip" el' = true →
                has_class "selected" el' = false)
    ∧ length (document st') = length (document (session draft loaded))
    ∧ locationDesc st' = []
    ∧ locationDisplay st' = LocationPlaceholder
    ∧ js "show" ∈ toastClasses st'
    ∧ timers st' = S (timers (session draft loaded))
    ∧ totalReports st' = Some (length (floodReports st'))
    ∧ todayReports st'
      = Some (length (filter (λ r, report_date r
                                   = before 84 (toISOString (clock_stats sampleClock)))
                             (floodReports st'))).
Proof.
  apply (submit_deselects_and_acknowledges sampleClock (session draft loaded)
           (mkLatLng 30.25 120.15)).
  - split; vm_compute; eauto.
  - vm_compute. reflexivity.
Defined.

(** ** A click on the map *)

Lemma same_item_refl (item : MapItem) : same_item item item = true.
Proof. destruct item; unfold same_item; by apply bool_decide_eq_true. Qed.

Lemma existsb_item_added (item : MapItem) (mp : LMap) :
  existsb (same_item item)
    (map_items (if existsb (same_item item) (map_items mp) then mp
                else mkMap (map_center mp) (map_zoom mp) (map_items mp ++ [item])))
  = true.
Proof.
  rewrite map_items_added.
  destruct (existsb (same_item item) (map_items mp)) eqn:E; [done|].
  rewrite existsb_app. cbn. by rewrite same_item_refl, orb_true_r.
Qed.

(** X15. A click on the map of a page whose map exists returns with a new
    temporary marker at the clicked point, drawn on the map and held in
    [currentMarker]; the draft's location and [selectedLocation] are the
    clicked point, depth and situation are kept; the location display shows
    the point and the instructions are hidden.  The view of the map, the
    store, the layer groups and the date and time fields are as they were.
    Without a map the handler throws and the draft is as it was. *)
Theorem map_click_sets_location (latlng : LatLng) (st : State) :
  (∀ mp, leafletMap st = Some mp →
   ∃ st' m mp',
     handleMapClick latlng st = Ok tt st'
     ∧ currentMarker st' = Some m
     ∧ m = mkMarker (nextStamp st) latlng createTempMarkerIcon None None
     ∧ leafletMap st' = Some mp'
     ∧ existsb (same_item (MarkerItem m)) (map_items mp') = true
     ∧ map_center mp' = map_center mp ∧ map_zoom mp' = map_zoom mp
     ∧ formState st'
       = mkForm (Some latlng) (form_depth (formState st))
                (form_situation (formState st))
     ∧ selectedLocation st' = Some latlng
     ∧ locationDisplay st' = LocationCoords latlng
     ∧ instructionsDisplay st' = JStr (js "none")
     ∧ floodReports st' = floodReports st
     ∧ layers st' = layers st
     ∧ eventDate st' = eventDate st ∧ eventTime st' = eventTime st)
  ∧ (leafletMap st = None →
     ∃ st', handleMapClick latlng st = Throw TypeError st'
            ∧ formState st' = formState st
            ∧ currentMarker st' = currentMarker st
            ∧ selectedLocation st' = selectedLocation st
            ∧ submitDisabled st' = submitDisabled st).
Proof.
  split.
  - intros mp Hmp.
    unfold handleMapClick, map_removeLayer, map_addLayer, with_map, L_marker,
      updateLocationDisplay, createTempMarkerIcon.
    expose st. run. subst.
    destruct vars_currentMarker0 as [m0|]; run; rewrite validateForm_run;
      (eexists; eexists; eexists; split; [reflexivity|]); cbn;
      (split; [reflexivity|]); (split; [reflexivity|]); (split; [reflexivity|]);
      (split; [|by destruct (existsb _ _)]).
    + apply (existsb_item_added _ (mkMap _ _ _)).
    + apply existsb_item_added.
  - intros Hmp.
    unfold handleMapClick, map_removeLayer, map_addLayer, with_map, L_marker,
      updateLocationDisplay.
    expose st. run. subst.
    destruct vars_currentMarker0 as [m0|]; run; eexists; (split; [reflexivity|]); done.
Qed.

Lemma map_click_sets_location_witness :
  ∃ st' m,
    handleMapClick (mkLatLng 30.3 120.2) (session draft loaded) = Ok tt st'
    ∧ currentMarker st' = Some m
    ∧ marker_latlng m = mkLatLng 30.3 120.2
    ∧ form_location (formState st') = Some (mkLatLng 30.3 120.2).
Proof.
  edestruct (proj1 (map_click_sets_location (mkLatLng 30.3 120.2) (session draft loaded)))
    as (st' & m & mp' & Hrun & Hcm & -> & _ & _ & _ & _ & Hform & _).
  - vm_compute. reflexivity.
  - exists st', (mkMarker (nextStamp (session draft loaded)) (mkLatLng 30.3 120.2)
                          createTempMarkerIcon None None).
    split; [exact Hrun|]. split; [exact Hcm|]. split; [reflexivity|].
    by rewrite Hform.
Defined.

(** ** The page after startup *)

Lemma startup_obs_addDemoData (now : nat → JsDate) :
  preserves (λ st, (leafletMap st, requests st, eventDate st, eventTime st))
            (addDemoData now).
Proof.
  unfold addDemoData, addFloodMarker, L_marker, group_addLayer, updateStats,
    updateReportList.
  preserves.
Qed.

Lemma static_addDemoData (now : nat → JsDate) :
  preserves static_groups (addDemoData now).
Proof.
  unfold addDemoData, updateStats, updateReportList.
  repeat lazymatch goal with
         | |- preserves _ (addFloodMarker _) => apply static_addFloodMarker
         | _ => preserves_step
         end.
Qed.

(** X16. Startup, once its six loads are over, on every page, network and
    clock: the map stands at its
    initial centre and zoom and draws the base tiles and then the seven layer
    groups, in the order they were created; the registry holds exactly these
    seven groups; the six files have been asked for, in order; and the form's
    date and time are the ones of the clock as first read. *)
Theorem startup_draws_all_groups (page_form : FormDom) (page_view : ViewDom)
    (net : jsstring → FetchResult) (now : nat → JsDate) :
  leafletMap (state_of (onDOMContentLoaded net now (initial page_form page_view)))
  = Some (mkMap (mkLatLng 30.25 120.15) 11
            (TileItem (js "https://{s}.basemaps.cartocdn.com/dark_all/{z}/{x}/{y}{r}.png")
             :: (GroupItem <$> groupNames)))
  ∧ (∀ name,
       is_Some (layers (state_of (onDOMContentLoaded net now
                                    (initial page_form page_view))) !! name)
       ↔ name ∈ groupNames)
  ∧ requests (state_of (onDOMContentLoaded net now (initial page_form page_view)))
    = (λ l, js (static_url l)) <$> staticLayers
  ∧ eventDate (state_of (onDOMContentLoaded net now (initial page_form page_view)))
    = before 84 (toISOString (now 0%nat))
  ∧ eventTime (state_of (onDOMContentLoaded net now (initial page_form page_view)))
    = slice0 5 (toTimeString (now 0%nat)).
Proof.
  destruct (loaded_sync page_form page_view net now) as [[[_ Hfloods] _] _].
  revert Hfloods. unfold onDOMContentLoaded.
  erewrite bind_Ok by (vm_compute; reflexivity).
  erewrite bind_Ok by (vm_compute; reflexivity).
  match goal with |- context [mbind _ (loadGeoJSONData net) ?s] =>
    destruct (loadAll_returns net staticLayers s)
      as (st2 & Hrun & Hreq & _ & Hdom & _ & Hmap & _ & Hform & _);
    rewrite <- (loadGeoJSONData_loadAll net s) in Hrun;
    assert (Hgroups : layers s
                      = <[js "boundary" := []]> (<[js "floods" := []]>
                          (<[js "metro" := []]> (<[js "amenities" := []]>
                             (<[js "parks" := []]> (<[js "water" := []]>
                                (<[js "roads" := []]> ∅)))))))
      by (vm_compute; reflexivity)
  end.
  erewrite bind_Ok by exact Hrun.
  erewrite (bind_Ok (setDefaultDateTime _)) by reflexivity.
  match goal with |- context [addDemoData ?n ?s] =>
    pose proof (startup_obs_addDemoData n s) as Hobs;
    pose proof (static_addDemoData n s) as Hstatic;
    set (st3 := state_of (addDemoData n s)) in *
  end.
  injection Hobs as Hmap3 Hreq3 Hdate3 Htime3. intros Hfloods.
  split. { rewrite Hmap3. unfold leafletMap. cbn. rewrite Hmap. reflexivity. }
  split.
  { intros name. destruct (decide (name = js "floods")) as [->|Hne].
    - split; [intros _; apply (bool_decide_unpack _); by vm_compute|done].
    - transitivity (is_Some (static_groups st3 !! name)).
      { unfold static_groups. by rewrite lookup_delete_ne. }
      rewrite Hstatic. unfold static_groups. rewrite lookup_delete_ne by done.
      change (layers (set_eventTime ?a (set_eventDate ?b st2))) with (layers st2).
      rewrite Hdom, Hgroups. clear.
      unfold groupNames. rewrite !fmap_cons, !elem_of_cons, fmap_nil, elem_of_nil.
      rewrite !lookup_insert_is_Some'.
      pose proof (lookup_empty_is_Some (M:=gmap jsstring) (A:=list Layer) name).
      split; intros H'.
      + repeat (destruct H' as [<-|H'];
                [by repeat (first [left; reflexivity|right])|]).
        done.
      + repeat (destruct H' as [->|H'];
                [by repeat (first [left; reflexivity|right])|]).
        done. }
  split.
  { rewrite Hreq3.
    change (requests (set_eventTime ?a (set_eventDate ?b st2))) with (requests st2).
    rewrite Hreq. reflexivity. }
  split; [by rewrite Hdate3|by rewrite Htime3].
Qed.
